(** * LCOE / LCOS engines of [packages/lcoe]: a shallow embedding

    The Python package computes levelized costs of energy and storage
    ([core.py]) from dataclass inputs ([models.py]) and wraps the two
    calculators in a sensitivity analyzer and a Monte Carlo analyzer
    ([sensitivity.py]).

    Conventions of the embedding:
    - a Python [float] is idealised as a rational number [Q]: arithmetic is
      exact, without rounding, and unbounded, without [OverflowError] (which
      [x ** n] raises in binary floats once the power leaves the float
      range) and without underflow to [0.0]; equalities between computed
      floats are stated with [==] ([Qeq]);
    - a Python [int] is a [Z];
    - a call that may raise returns a [Result], whose error case names the
      Python exception;
    - objects that the analyzers copy and mutate live in an explicit heap. *)

From Stdlib Require Import ZArith QArith Qminmax Qpower Qround Qabs Lia Ascii String List.
From Stdlib Require Import Sorted Permutation.
From stdpp Require Import base option list gmap strings.

Local Open Scope Z_scope.
Local Open Scope Q_scope.

(** ** Exceptions and fallible computations *)

Inductive exn : Set :=
| ZeroDivisionError
| IndexError
| TypeError
| AttributeError
| KeyError
| RecursionError
| ValueError
| SystemError.

Inductive Result (A : Type) : Type :=
| OK (a : A)
| Err (e : exn).
Arguments OK {A} a.
Arguments Err {A} e.

Definition bind {A B : Type} (m : Result A) (f : A -> Result B) : Result B :=
  match m with
  | OK a => f a
  | Err e => Err e
  end.

Declare Scope result_scope.
Delimit Scope result_scope with result.
Notation "'let*' x ':=' m 'in' k" := (bind m (fun x => k))
  (at level 10, x name, m at level 100, k at level 200) : result_scope.
Local Open Scope result_scope.

Definition succeeds {A : Type} (m : Result A) : Prop := exists a, m = OK a.
Definition raises {A : Type} (m : Result A) : Prop := exists e, m = Err e.

(** ** Floats as rationals *)

Module Float.

(** [x / y] on floats: raises [ZeroDivisionError] when [y] is zero. *)
Definition div (x y : Q) : Result Q :=
  if Qeq_bool y 0 then Err ZeroDivisionError else OK (x / y).

(** [x ** n] for a float [x] and an int [n]: zero to a negative power
    raises [ZeroDivisionError]; [0 ** 0] is [1].  The power is exact: the
    [OverflowError] of a power beyond the float range is not modelled. *)
Definition pow (x : Q) (n : Z) : Result Q :=
  if Qeq_bool x 0 && (n <? 0)%Z then Err ZeroDivisionError else OK (x ^ n).

(** [int(x)]: truncation toward zero. *)
Definition to_int (x : Q) : Z := Z.quot (Qnum x) (Zpos (Qden x)).

(** [math.floor(x)], for comparison with [to_int]. *)
Definition floor (x : Q) : Z := Qfloor x.

End Float.

(** [range(n)] for an int [n]: [0, 1, ..., n-1], empty when [n <= 0]. *)
Definition range (n : Z) : list Z := map Z.of_nat (seq 0 (Z.to_nat n)).

(** The accumulation loop
    [total = 0.0; for year in years: total += term(year)],
    stopped by the first exception. *)
Fixpoint sum_loop (term : Z -> Result Q) (years : list Z) (total : Q) : Result Q :=
  match years with
  | [] => OK total
  | year :: rest =>
      let* t := term year in
      sum_loop term rest (total + t)
  end.

(** A value of an [int]-annotated dataclass field. Annotations are not
    enforced, and the sensitivity analyzer stores [base * (1 - v)], a float,
    into such fields. *)
Inductive pynum : Set :=
| PyInt (z : Z)
| PyFloat (q : Q).

Definition pynum_value (n : pynum) : Q :=
  match n with
  | PyInt z => inject_Z z
  | PyFloat q => q
  end.

(** [range(n)] raises [TypeError] on a float. *)
Definition py_range (n : pynum) : Result (list Z) :=
  match n with
  | PyInt z => OK (range z)
  | PyFloat _ => Err TypeError
  end.

(** ** Data models ([models.py]) *)

Inductive UseCase : Set := RESIDENTIAL | COMMERCIAL | UTILITY.
Inductive TechnologyType : Set := PV | BATTERY | WIND | HYDRO | THERMAL.

Module FinancingParameters.
Record t : Type := {
  discount_rate : Q;
  inflation_rate : Q;
  tax_rate : Q;
  debt_fraction : Q;
  debt_interest_rate : Q;
  federal_itc : Q;
  state_rebate : Q;
  depreciation_schedule : list Q
}.

Definition default : t := {|
  discount_rate := 7 # 100;
  inflation_rate := 25 # 1000;
  tax_rate := 21 # 100;
  debt_fraction := 6 # 10;
  debt_interest_rate := 5 # 100;
  federal_itc := 30 # 100;
  state_rebate := 0;
  depreciation_schedule :=
    [2 # 10; 32 # 100; 192 # 1000; 1152 # 10000; 1152 # 10000; 576 # 10000]
|}.

Definition effective_discount_rate (self : t) : Q :=
  discount_rate self * (1 - tax_rate self * debt_fraction self).
End FinancingParameters.

Module DegradationModel.
Record t : Type := {
  annual_degradation_rate : Q;
  degradation_type : string;
  step_years : list Z;
  step_rates : list Q
}.

Definition default : t := {|
  annual_degradation_rate := 5 # 1000;
  degradation_type := "linear";
  step_years := [];
  step_rates := []
|}.

(** The body of the [step] branch:
    [for i, step_year in enumerate(self.step_years):
       if year >= step_year: factor *= (1.0 - self.step_rates[i])]. *)
Fixpoint step_loop (year : Z) (rates : list Q) (i : nat)
    (years : list Z) (factor : Q) : Result Q :=
  match years with
  | [] => OK factor
  | step_year :: rest =>
      if (year >=? step_year)%Z then
        match nth_error rates i with
        | Some rate => step_loop year rates (S i) rest (factor * (1 - rate))
        | None => Err IndexError
        end
      else step_loop year rates (S i) rest factor
  end.

Definition performance_factor (self : t) (year : Z) : Result Q :=
  if String.eqb (degradation_type self) "linear" then
    OK (Qmax 0 (1 - inject_Z year * annual_degradation_rate self))
  else if String.eqb (degradation_type self) "exponential" then
    Float.pow (1 - annual_degradation_rate self) year
  else if String.eqb (degradation_type self) "step" then
    step_loop year (step_rates self) 0 (step_years self) 1
  else OK 1.
End DegradationModel.

Module LCOEInputs.
Record t : Type := {
  capex_per_kw : Q;
  system_size_kw : Q;
  fixed_om_per_kw_year : Q;
  variable_om_per_mwh : Q;
  fuel_cost_per_mwh : Q;
  capacity_factor : Q;
  system_lifetime_years : pynum;
  degradation : DegradationModel.t;
  financing : FinancingParameters.t;
  technology_type : TechnologyType;
  use_case : UseCase
}.

Definition default : t := {|
  capex_per_kw := 1500;
  system_size_kw := 100;
  fixed_om_per_kw_year := 15;
  variable_om_per_mwh := 0;
  fuel_cost_per_mwh := 0;
  capacity_factor := 25 # 100;
  system_lifetime_years := PyInt 25;
  degradation := DegradationModel.default;
  financing := FinancingParameters.default;
  technology_type := PV;
  use_case := RESIDENTIAL
|}.
End LCOEInputs.

Module LCOEResult.
Record t : Type := {
  lcoe_usd_per_mwh : Q;
  lcoe_usd_per_kwh : Q;
  capex_component : Q;
  opex_component : Q;
  fuel_component : Q;
  financing_component : Q;
  total_capex : Q;
  total_opex_npv : Q;
  total_energy_mwh : Q;
  capacity_factor_actual : Q;
  p10_lcoe : option Q;
  p50_lcoe : option Q;
  p90_lcoe : option Q
}.
End LCOEResult.

(** [x < y] and the test of a guarded division, [x > 0]. *)
Definition Qlt_bool (x y : Q) : bool := negb (Qle_bool y x).
Definition positive (x : Q) : bool := Qlt_bool 0 x.

(** [_calculate_npv_series], the same method in both calculators. *)
Definition _calculate_npv_series (annual_amount : Q) (years : pynum)
    (discount_rate inflation_rate : Q) : Result Q :=
  let* ys := py_range years in
  sum_loop (fun year =>
      let* infl := Float.pow (1 + inflation_rate) year in
      let inflated_amount := annual_amount * infl in
      let* disc := Float.pow (1 + discount_rate) year in
      Float.div inflated_amount disc)
    ys 0.

(** ** The LCOE calculator ([core.py], class [LCOECalculator]) *)

Module LCOECalculator.
Import LCOEInputs.

Definition _calculate_total_capex (inputs : LCOEInputs.t) : Q :=
  let base_capex := capex_per_kw inputs * system_size_kw inputs in
  let itc_benefit := base_capex * FinancingParameters.federal_itc (financing inputs) in
  let state_rebate :=
    FinancingParameters.state_rebate (financing inputs) * system_size_kw inputs in
  let net_capex := base_capex - itc_benefit - state_rebate in
  Qmax 0 net_capex.

Definition _calculate_annual_energy (inputs : LCOEInputs.t) : Q :=
  system_size_kw inputs * capacity_factor inputs * 8760 / 1000.

Definition _calculate_lifetime_energy (inputs : LCOEInputs.t)
    (annual_energy_mwh : Q) : Result Q :=
  let discount_rate :=
    FinancingParameters.effective_discount_rate (financing inputs) in
  let* ys := py_range (system_lifetime_years inputs) in
  sum_loop (fun year =>
      let* performance_factor :=
        DegradationModel.performance_factor (degradation inputs) year in
      let year_energy := annual_energy_mwh * performance_factor in
      let* disc := Float.pow (1 + discount_rate) year in
      Float.div year_energy disc)
    ys 0.

Definition _calculate_opex_npv (inputs : LCOEInputs.t) : Result Q :=
  let annual_fixed_om := fixed_om_per_kw_year inputs * system_size_kw inputs in
  let annual_variable_om :=
    variable_om_per_mwh inputs * _calculate_annual_energy inputs in
  let annual_opex := annual_fixed_om + annual_variable_om in
  _calculate_npv_series annual_opex (system_lifetime_years inputs)
    (FinancingParameters.effective_discount_rate (financing inputs))
    (FinancingParameters.inflation_rate (financing inputs)).

Definition _calculate_fuel_npv (inputs : LCOEInputs.t)
    (annual_energy_mwh : Q) : Result Q :=
  if Qle_bool (fuel_cost_per_mwh inputs) 0 then OK 0
  else
    let annual_fuel_cost := fuel_cost_per_mwh inputs * annual_energy_mwh in
    _calculate_npv_series annual_fuel_cost (system_lifetime_years inputs)
      (FinancingParameters.effective_discount_rate (financing inputs))
      (FinancingParameters.inflation_rate (financing inputs)).

Definition _calculate_financing_cost (inputs : LCOEInputs.t) (capex : Q)
    : Result Q :=
  let debt_amount := capex * FinancingParameters.debt_fraction (financing inputs) in
  let annual_interest :=
    debt_amount * FinancingParameters.debt_interest_rate (financing inputs) in
  _calculate_npv_series annual_interest (system_lifetime_years inputs)
    (FinancingParameters.effective_discount_rate (financing inputs)) 0.

Definition calculate (inputs : LCOEInputs.t) : Result LCOEResult.t :=
  let total_capex := _calculate_total_capex inputs in
  let annual_energy_mwh := _calculate_annual_energy inputs in
  let* lifetime_energy_mwh := _calculate_lifetime_energy inputs annual_energy_mwh in
  let* total_opex_npv := _calculate_opex_npv inputs in
  let* total_fuel_npv := _calculate_fuel_npv inputs annual_energy_mwh in
  let* financing_cost := _calculate_financing_cost inputs total_capex in
  let total_costs := total_capex + total_opex_npv + total_fuel_npv + financing_cost in
  let lcoe_usd_per_mwh :=
    if positive lifetime_energy_mwh then total_costs / lifetime_energy_mwh else 0 in
  let lcoe_usd_per_kwh := lcoe_usd_per_mwh / 1000 in
  let capex_component :=
    if positive lifetime_energy_mwh then total_capex / lifetime_energy_mwh else 0 in
  let opex_component :=
    if positive lifetime_energy_mwh then total_opex_npv / lifetime_energy_mwh else 0 in
  let fuel_component :=
    if positive lifetime_energy_mwh then total_fuel_npv / lifetime_energy_mwh else 0 in
  let financing_component :=
    if positive lifetime_energy_mwh then financing_cost / lifetime_energy_mwh else 0 in
  let* capacity_factor_actual :=
    Float.div annual_energy_mwh (system_size_kw inputs * (876 # 100)) in
  OK {| LCOEResult.lcoe_usd_per_mwh := lcoe_usd_per_mwh;
        LCOEResult.lcoe_usd_per_kwh := lcoe_usd_per_kwh;
        LCOEResult.capex_component := capex_component;
        LCOEResult.opex_component := opex_component;
        LCOEResult.fuel_component := fuel_component;
        LCOEResult.financing_component := financing_component;
        LCOEResult.total_capex := total_capex;
        LCOEResult.total_opex_npv := total_opex_npv;
        LCOEResult.total_energy_mwh := lifetime_energy_mwh;
        LCOEResult.capacity_factor_actual := capacity_factor_actual;
        LCOEResult.p10_lcoe := None;
        LCOEResult.p50_lcoe := None;
        LCOEResult.p90_lcoe := None |}.
End LCOECalculator.

(** ** The LCOS calculator ([core.py], class [LCOSCalculator]) *)

Module LoadProfile.
Record t : Type := {
  annual_energy_kwh : Q;
  peak_demand_kw : Q;
  load_factor : Q;
  seasonal_variation : Q;
  time_of_use_profile : list (string * Q)
}.

Definition default : t := {|
  annual_energy_kwh := 10000;
  peak_demand_kw := 5;
  load_factor := 3 # 10;
  seasonal_variation := 2 # 10;
  time_of_use_profile := []
|}.
End LoadProfile.

Module LCOSInputs.
Record t : Type := {
  capex_per_kwh : Q;
  system_size_kwh : Q;
  power_rating_kw : Q;
  fixed_om_per_kwh_year : Q;
  variable_om_per_cycle : Q;
  round_trip_efficiency : Q;
  cycles_per_year : Q;
  cycle_life : pynum;
  calendar_life_years : pynum;
  depth_of_discharge : Q;
  capacity_fade_per_year : Q;
  efficiency_fade_per_cycle : Q;
  financing : FinancingParameters.t;
  load_profile : LoadProfile.t;
  technology_type : TechnologyType;
  use_case : UseCase
}.

Definition default : t := {|
  capex_per_kwh := 400;
  system_size_kwh := 100;
  power_rating_kw := 50;
  fixed_om_per_kwh_year := 5;
  variable_om_per_cycle := 1 # 100;
  round_trip_efficiency := 90 # 100;
  cycles_per_year := 365;
  cycle_life := PyInt 4000;
  calendar_life_years := PyInt 15;
  depth_of_discharge := 90 # 100;
  capacity_fade_per_year := 2 # 100;
  efficiency_fade_per_cycle := 1 # 100000;
  financing := FinancingParameters.default;
  load_profile := LoadProfile.default;
  technology_type := BATTERY;
  use_case := RESIDENTIAL
|}.
End LCOSInputs.

Module LCOSResult.
Record t : Type := {
  lcos_usd_per_mwh : Q;
  lcos_usd_per_kwh : Q;
  capex_component : Q;
  opex_component : Q;
  replacement_component : Q;
  financing_component : Q;
  total_throughput_mwh : Q;
  effective_cycles : Q;
  end_of_life_capacity : Q;
  average_efficiency : Q;
  total_capex : Q;
  total_opex_npv : Q;
  replacement_cost_npv : Q;
  p10_lcos : option Q;
  p50_lcos : option Q;
  p90_lcos : option Q
}.
End LCOSResult.

Module LCOSCalculator.
Import LCOSInputs.

Definition _calculate_total_capex (inputs : LCOSInputs.t) : Q :=
  let base_capex := capex_per_kwh inputs * system_size_kwh inputs in
  let itc_benefit := base_capex * FinancingParameters.federal_itc (financing inputs) in
  let state_rebate :=
    FinancingParameters.state_rebate (financing inputs) * system_size_kwh inputs in
  let net_capex := base_capex - itc_benefit - state_rebate in
  Qmax 0 net_capex.

(** [inputs.cycle_life / inputs.cycles_per_year]. *)
Definition cycle_limited_years (inputs : LCOSInputs.t) : Result Q :=
  Float.div (pynum_value (cycle_life inputs)) (cycles_per_year inputs).

(** [min(cycle_limited_years, inputs.calendar_life_years)]. *)
Definition actual_lifetime (inputs : LCOSInputs.t) : Result Q :=
  let* cycle_limited_years := cycle_limited_years inputs in
  OK (Qmin cycle_limited_years (pynum_value (calendar_life_years inputs))).

Definition _calculate_lifetime_throughput (inputs : LCOSInputs.t) : Result Q :=
  let* actual_lifetime := actual_lifetime inputs in
  let usable_capacity_kwh := system_size_kwh inputs * depth_of_discharge inputs in
  let annual_throughput_base :=
    usable_capacity_kwh * cycles_per_year inputs * round_trip_efficiency inputs / 1000 in
  let discount_rate :=
    FinancingParameters.effective_discount_rate (financing inputs) in
  sum_loop (fun year =>
      let capacity_factor :=
        Qmax (5 # 10) (1 - inject_Z year * capacity_fade_per_year inputs) in
      let total_cycles := inject_Z year * cycles_per_year inputs in
      let efficiency_factor :=
        Qmax (7 # 10)
          (round_trip_efficiency inputs
           - total_cycles * efficiency_fade_per_cycle inputs) in
      let* ratio := Float.div efficiency_factor (round_trip_efficiency inputs) in
      let year_throughput := annual_throughput_base * capacity_factor * ratio in
      let* disc := Float.pow (1 + discount_rate) year in
      Float.div year_throughput disc)
    (range (Float.to_int actual_lifetime)) 0.

Definition _calculate_opex_npv (inputs : LCOSInputs.t) : Result Q :=
  let annual_fixed_om := fixed_om_per_kwh_year inputs * system_size_kwh inputs in
  let annual_variable_om := variable_om_per_cycle inputs * cycles_per_year inputs in
  let annual_opex := annual_fixed_om + annual_variable_om in
  _calculate_npv_series annual_opex (calendar_life_years inputs)
    (FinancingParameters.effective_discount_rate (financing inputs))
    (FinancingParameters.inflation_rate (financing inputs)).

Definition _calculate_replacement_cost (inputs : LCOSInputs.t) : Result Q :=
  let* cycle_limited_years := cycle_limited_years inputs in
  if Qlt_bool cycle_limited_years (pynum_value (calendar_life_years inputs)) then
    let replacement_year := Float.to_int cycle_limited_years in
    let replacement_cost :=
      capex_per_kwh inputs * system_size_kwh inputs * (7 # 10) in
    let discount_rate :=
      FinancingParameters.effective_discount_rate (financing inputs) in
    let* disc := Float.pow (1 + discount_rate) replacement_year in
    Float.div replacement_cost disc
  else OK 0.

Definition _calculate_financing_cost (inputs : LCOSInputs.t) (capex : Q)
    : Result Q :=
  let debt_amount := capex * FinancingParameters.debt_fraction (financing inputs) in
  let annual_interest :=
    debt_amount * FinancingParameters.debt_interest_rate (financing inputs) in
  _calculate_npv_series annual_interest (calendar_life_years inputs)
    (FinancingParameters.effective_discount_rate (financing inputs)) 0.

Definition _calculate_effective_cycles (inputs : LCOSInputs.t) : Result Q :=
  let* actual_lifetime := actual_lifetime inputs in
  OK (actual_lifetime * cycles_per_year inputs).

Definition _calculate_end_of_life_capacity (inputs : LCOSInputs.t) : Result Q :=
  let* actual_lifetime := actual_lifetime inputs in
  OK (Qmax (5 # 10) (1 - actual_lifetime * capacity_fade_per_year inputs)).

Definition _calculate_average_efficiency (inputs : LCOSInputs.t) : Result Q :=
  let* actual_lifetime := actual_lifetime inputs in
  let total_cycles := actual_lifetime * cycles_per_year inputs in
  let end_efficiency :=
    Qmax (7 # 10)
      (round_trip_efficiency inputs
       - total_cycles * efficiency_fade_per_cycle inputs) in
  OK ((round_trip_efficiency inputs + end_efficiency) / 2).

Definition calculate (inputs : LCOSInputs.t) : Result LCOSResult.t :=
  let total_capex := _calculate_total_capex inputs in
  let* lifetime_throughput_mwh := _calculate_lifetime_throughput inputs in
  let* total_opex_npv := _calculate_opex_npv inputs in
  let* replacement_cost_npv := _calculate_replacement_cost inputs in
  let* financing_cost := _calculate_financing_cost inputs total_capex in
  let total_costs :=
    total_capex + total_opex_npv + replacement_cost_npv + financing_cost in
  let lcos_usd_per_mwh :=
    if positive lifetime_throughput_mwh
    then total_costs / lifetime_throughput_mwh else 0 in
  let lcos_usd_per_kwh := lcos_usd_per_mwh / 1000 in
  let* effective_cycles := _calculate_effective_cycles inputs in
  let* end_of_life_capacity := _calculate_end_of_life_capacity inputs in
  let* average_efficiency := _calculate_average_efficiency inputs in
  let capex_component :=
    if positive lifetime_throughput_mwh
    then total_capex / lifetime_throughput_mwh else 0 in
  let opex_component :=
    if positive lifetime_throughput_mwh
    then total_opex_npv / lifetime_throughput_mwh else 0 in
  let replacement_component :=
    if positive lifetime_throughput_mwh
    then replacement_cost_npv / lifetime_throughput_mwh else 0 in
  let financing_component :=
    if positive lifetime_throughput_mwh
    then financing_cost / lifetime_throughput_mwh else 0 in
  OK {| LCOSResult.lcos_usd_per_mwh := lcos_usd_per_mwh;
        LCOSResult.lcos_usd_per_kwh := lcos_usd_per_kwh;
        LCOSResult.capex_component := capex_component;
        LCOSResult.opex_component := opex_component;
        LCOSResult.replacement_component := replacement_component;
        LCOSResult.financing_component := financing_component;
        LCOSResult.total_throughput_mwh := lifetime_throughput_mwh;
        LCOSResult.effective_cycles := effective_cycles;
        LCOSResult.end_of_life_capacity := end_of_life_capacity;
        LCOSResult.average_efficiency := average_efficiency;
        LCOSResult.total_capex := total_capex;
        LCOSResult.total_opex_npv := total_opex_npv;
        LCOSResult.replacement_cost_npv := replacement_cost_npv;
        LCOSResult.p10_lcos := None;
        LCOSResult.p50_lcos := None;
        LCOSResult.p90_lcos := None |}.
End LCOSCalculator.

(** ** Objects, references and the heap

    The analyzers of [sensitivity.py] receive a reference to the caller's
    input object, copy it with [copy.deepcopy] and assign attributes of the
    copy with [setattr].  Objects therefore live in a heap; a value is an
    atom or a reference. *)

Module Heap.

Abbreviation loc := nat (only parsing).

Inductive val : Type :=
| VInt (z : Z)
| VFloat (q : Q)
| VStr (s : string)
| VNone
| VRef (l : loc).

(** An instance carries its [__dict__] in insertion order. *)
Inductive obj : Type :=
| Instance (cls : string) (attrs : list (string * val))
| PyList (items : list val)
| PyDict (entries : list (string * val)).

Abbreviation heap := (list obj) (only parsing).

(** Computations that read and write the heap and may raise.  A raised
    exception does not undo the writes made before it. *)
Definition M (A : Type) : Type := heap -> Result A * heap.

Definition ret {A : Type} (a : A) : M A := fun h => (OK a, h).
Definition raise {A : Type} (e : exn) : M A := fun h => (Err e, h).
Definition lift {A : Type} (r : Result A) : M A := fun h => (r, h).

Definition bindM {A B : Type} (m : M A) (k : A -> M B) : M B :=
  fun h =>
    match m h with
    | (OK a, h') => k a h'
    | (Err e, h') => (Err e, h')
    end.

(** [try: m except Exception as e: handler(e)]. *)
Definition try_except {A : Type} (m : M A) (handler : exn -> M A) : M A :=
  fun h =>
    match m h with
    | (OK a, h') => (OK a, h')
    | (Err e, h') => handler e h'
    end.

Declare Scope heap_scope.
Delimit Scope heap_scope with heap.
Notation "x <- m ;; k" := (bindM m (fun x => k))
  (at level 100, m at next level, right associativity) : heap_scope.
Local Open Scope heap_scope.

Definition load (l : loc) : M obj :=
  fun h =>
    match h !! l with
    | Some o => (OK o, h)
    | None => (Err SystemError, h)
    end.

Definition alloc (o : obj) : M loc :=
  fun h => (OK (length h), h ++ [o]).

Definition store (l : loc) (o : obj) : M unit :=
  fun h => (OK tt, <[l := o]> h).

(** *** Attribute dictionaries *)

Fixpoint assoc_get (name : string) (attrs : list (string * val)) : option val :=
  match attrs with
  | [] => None
  | (k, v) :: rest => if String.eqb k name then Some v else assoc_get name rest
  end.

Fixpoint assoc_set (name : string) (x : val) (attrs : list (string * val))
    : list (string * val) :=
  match attrs with
  | [] => [(name, x)]
  | (k, v) :: rest =>
      if String.eqb k name then (k, x) :: rest
      else (k, v) :: assoc_set name x rest
  end.

Definition getattr (o : val) (name : string) : M val :=
  match o with
  | VRef l =>
      ob <- load l ;;
      match ob with
      | Instance _ attrs =>
          match assoc_get name attrs with
          | Some x => ret x
          | None => raise AttributeError
          end
      | _ => raise AttributeError
      end
  | _ => raise AttributeError
  end.

Definition setattr (o : val) (name : string) (x : val) : M unit :=
  match o with
  | VRef l =>
      ob <- load l ;;
      match ob with
      | Instance cls attrs => store l (Instance cls (assoc_set name x attrs))
      | _ => raise AttributeError
      end
  | _ => raise AttributeError
  end.

(** *** [copy.deepcopy]

    [deepcopy(x, memo)] returns atoms as they are; for a list, a dict or an
    instance it looks [x] up in [memo], and otherwise creates the empty
    copy, records it in [memo], copies the children and fills the copy.
    The member of an [Enum] class is not copied: [deepcopy] returns the
    member itself, so the copy of an object shares its enum members with
    the original.  The fuel stands for the interpreter's recursion limit. *)

(** The [Enum] classes of [models.py]. *)
Definition is_enum_class (cls : string) : bool :=
  String.eqb cls "UseCase" || String.eqb cls "TechnologyType".

Abbreviation memo_t := (gmap nat nat) (only parsing).

Fixpoint copy_items (copy : val -> memo_t -> M (val * memo_t))
    (items : list val) (memo : memo_t) : M (list val * memo_t) :=
  match items with
  | [] => ret ([], memo)
  | x :: rest =>
      r1 <- copy x memo ;;
      r2 <- copy_items copy rest (snd r1) ;;
      ret (fst r1 :: fst r2, snd r2)
  end.

Fixpoint copy_entries (copy : val -> memo_t -> M (val * memo_t))
    (entries : list (string * val)) (memo : memo_t)
    : M (list (string * val) * memo_t) :=
  match entries with
  | [] => ret ([], memo)
  | (k, x) :: rest =>
      r1 <- copy x memo ;;
      r2 <- copy_entries copy rest (snd r1) ;;
      ret ((k, fst r1) :: fst r2, snd r2)
  end.

Fixpoint deepcopy_memo (fuel : nat) (x : val) (memo : memo_t)
    : M (val * memo_t) :=
  match x with
  | VRef l =>
      match memo !! l with
      | Some l' => ret (VRef l', memo)
      | None =>
          match fuel with
          | O => raise RecursionError
          | S fuel' =>
              ob <- load l ;;
              match ob with
              | PyList items =>
                  l' <- alloc (PyList []) ;;
                  r <- copy_items (deepcopy_memo fuel') items (<[l := l']> memo) ;;
                  _ <- store l' (PyList (fst r)) ;;
                  ret (VRef l', snd r)
              | PyDict entries =>
                  l' <- alloc (PyDict []) ;;
                  r <- copy_entries (deepcopy_memo fuel') entries (<[l := l']> memo) ;;
                  _ <- store l' (PyDict (fst r)) ;;
                  ret (VRef l', snd r)
              | Instance cls attrs =>
                  if is_enum_class cls then ret (VRef l, memo)
                  else
                    l' <- alloc (Instance cls []) ;;
                    r <- copy_entries (deepcopy_memo fuel') attrs
                           (<[l := l']> memo) ;;
                    _ <- store l' (Instance cls (fst r)) ;;
                    ret (VRef l', snd r)
              end
          end
      end
  | atom => ret (atom, memo)
  end.

Definition recursion_limit : nat := 1000.

Definition deepcopy (x : val) : M val :=
  r <- deepcopy_memo recursion_limit x ∅ ;;
  ret (fst r).

(** [copy.copy], which the analyzers do not use: the copy of an instance
    shares the nested objects with the original. *)
Definition shallow_copy (x : val) : M val :=
  match x with
  | VRef l =>
      ob <- load l ;;
      l' <- alloc ob ;;
      ret (VRef l')
  | atom => ret atom
  end.

End Heap.

(** ** Dataclass instances on the heap

    The constructors allocate an instance with the fields of the record; the
    readers give the record that the calculators see behind a reference.
    Attributes that the calculators never read ([depreciation_schedule],
    [power_rating_kw], [load_profile], the two enum tags) are not decoded.
    The attributes that they do read are decoded at once, where the
    calculators read them one by one; an attribute that does not hold a
    value of a usable type makes the call raise.  [getattr] and [setattr]
    see the instance dictionary, that is the dataclass fields; class
    attributes, methods and special attributes are not modelled.

    The members of the two [Enum] classes are objects of their own, made
    when [models.py] is loaded: they stand at the bottom of the heap
    ([enum_members]), and an enum-valued field holds a reference to its
    member.  A member carries its instance dictionary, [_value_], [_name_]
    and [_sort_order_] (the class reference [__objclass__], the read-only
    properties [name] and [value] and the [str] methods are not modelled). *)

Module Instances.
Import Heap.
Local Open Scope heap_scope.

Definition val_of_pynum (n : pynum) : val :=
  match n with
  | PyInt z => VInt z
  | PyFloat q => VFloat q
  end.

Definition pynum_of_val (v : val) : Result pynum :=
  match v with
  | VInt z => OK (PyInt z)
  | VFloat q => OK (PyFloat q)
  | _ => Err TypeError
  end.

(** The instance dictionary of an enum member. *)
Definition enum_member (cls value name : string) (sort_order : Z) : obj :=
  Instance cls [("_value_", VStr value);
                ("_name_", VStr name);
                ("_sort_order_", VInt sort_order)].

(** The members of [UseCase] and [TechnologyType], in the order of their
    definition. *)
Definition enum_members : list obj :=
  [ enum_member "UseCase" "residential" "RESIDENTIAL" 0;
    enum_member "UseCase" "commercial" "COMMERCIAL" 1;
    enum_member "UseCase" "utility" "UTILITY" 2;
    enum_member "TechnologyType" "pv" "PV" 0;
    enum_member "TechnologyType" "battery" "BATTERY" 1;
    enum_member "TechnologyType" "wind" "WIND" 2;
    enum_member "TechnologyType" "hydro" "HYDRO" 3;
    enum_member "TechnologyType" "thermal" "THERMAL" 4 ].

Definition val_of_use_case (u : UseCase) : val :=
  VRef match u with
       | RESIDENTIAL => 0
       | COMMERCIAL => 1
       | UTILITY => 2
       end.

Definition val_of_technology (t : TechnologyType) : val :=
  VRef match t with
       | PV => 3
       | BATTERY => 4
       | WIND => 5
       | HYDRO => 6
       | THERMAL => 7
       end.

Definition new_list (items : list val) : M val :=
  l <- alloc (PyList items) ;; ret (VRef l).

Definition new_FinancingParameters (f : FinancingParameters.t) : M val :=
  schedule <- new_list (map VFloat (FinancingParameters.depreciation_schedule f)) ;;
  l <- alloc (Instance "FinancingParameters"
        [("discount_rate", VFloat (FinancingParameters.discount_rate f));
         ("inflation_rate", VFloat (FinancingParameters.inflation_rate f));
         ("tax_rate", VFloat (FinancingParameters.tax_rate f));
         ("debt_fraction", VFloat (FinancingParameters.debt_fraction f));
         ("debt_interest_rate", VFloat (FinancingParameters.debt_interest_rate f));
         ("federal_itc", VFloat (FinancingParameters.federal_itc f));
         ("state_rebate", VFloat (FinancingParameters.state_rebate f));
         ("depreciation_schedule", schedule)]) ;;
  ret (VRef l).

Definition new_DegradationModel (d : DegradationModel.t) : M val :=
  years <- new_list (map VInt (DegradationModel.step_years d)) ;;
  rates <- new_list (map VFloat (DegradationModel.step_rates d)) ;;
  l <- alloc (Instance "DegradationModel"
        [("annual_degradation_rate", VFloat (DegradationModel.annual_degradation_rate d));
         ("degradation_type", VStr (DegradationModel.degradation_type d));
         ("step_years", years);
         ("step_rates", rates)]) ;;
  ret (VRef l).

Definition new_LoadProfile (p : LoadProfile.t) : M val :=
  d <- alloc (PyDict (map (fun kv => (fst kv, VFloat (snd kv)))
                        (LoadProfile.time_of_use_profile p))) ;;
  l <- alloc (Instance "LoadProfile"
        [("annual_energy_kwh", VFloat (LoadProfile.annual_energy_kwh p));
         ("peak_demand_kw", VFloat (LoadProfile.peak_demand_kw p));
         ("load_factor", VFloat (LoadProfile.load_factor p));
         ("seasonal_variation", VFloat (LoadProfile.seasonal_variation p));
         ("time_of_use_profile", VRef d)]) ;;
  ret (VRef l).

Definition new_LCOEInputs (i : LCOEInputs.t) : M val :=
  d <- new_DegradationModel (LCOEInputs.degradation i) ;;
  f <- new_FinancingParameters (LCOEInputs.financing i) ;;
  l <- alloc (Instance "LCOEInputs"
        [("capex_per_kw", VFloat (LCOEInputs.capex_per_kw i));
         ("system_size_kw", VFloat (LCOEInputs.system_size_kw i));
         ("fixed_om_per_kw_year", VFloat (LCOEInputs.fixed_om_per_kw_year i));
         ("variable_om_per_mwh", VFloat (LCOEInputs.variable_om_per_mwh i));
         ("fuel_cost_per_mwh", VFloat (LCOEInputs.fuel_cost_per_mwh i));
         ("capacity_factor", VFloat (LCOEInputs.capacity_factor i));
         ("system_lifetime_years", val_of_pynum (LCOEInputs.system_lifetime_years i));
         ("degradation", d);
         ("financing", f);
         ("technology_type", val_of_technology (LCOEInputs.technology_type i));
         ("use_case", val_of_use_case (LCOEInputs.use_case i))]) ;;
  ret (VRef l).

Definition new_LCOSInputs (i : LCOSInputs.t) : M val :=
  f <- new_FinancingParameters (LCOSInputs.financing i) ;;
  p <- new_LoadProfile (LCOSInputs.load_profile i) ;;
  l <- alloc (Instance "LCOSInputs"
        [("capex_per_kwh", VFloat (LCOSInputs.capex_per_kwh i));
         ("system_size_kwh", VFloat (LCOSInputs.system_size_kwh i));
         ("power_rating_kw", VFloat (LCOSInputs.power_rating_kw i));
         ("fixed_om_per_kwh_year", VFloat (LCOSInputs.fixed_om_per_kwh_year i));
         ("variable_om_per_cycle", VFloat (LCOSInputs.variable_om_per_cycle i));
         ("round_trip_efficiency", VFloat (LCOSInputs.round_trip_efficiency i));
         ("cycles_per_year", VFloat (LCOSInputs.cycles_per_year i));
         ("cycle_life", val_of_pynum (LCOSInputs.cycle_life i));
         ("calendar_life_years", val_of_pynum (LCOSInputs.calendar_life_years i));
         ("depth_of_discharge", VFloat (LCOSInputs.depth_of_discharge i));
         ("capacity_fade_per_year", VFloat (LCOSInputs.capacity_fade_per_year i));
         ("efficiency_fade_per_cycle", VFloat (LCOSInputs.efficiency_fade_per_cycle i));
         ("financing", f);
         ("load_profile", p);
         ("technology_type", val_of_technology (LCOSInputs.technology_type i));
         ("use_case", val_of_use_case (LCOSInputs.use_case i))]) ;;
  ret (VRef l).

(** *** Readers *)

Definition instance_attrs (h : heap) (o : val) : Result (list (string * val)) :=
  match o with
  | VRef l =>
      match h !! l with
      | Some (Instance _ attrs) => OK attrs
      | Some _ => Err AttributeError
      | None => Err SystemError
      end
  | _ => Err AttributeError
  end.

Definition attr (attrs : list (string * val)) (name : string) : Result val :=
  match assoc_get name attrs with
  | Some v => OK v
  | None => Err AttributeError
  end.

Definition float_of_val (v : val) : Result Q :=
  let* n := pynum_of_val v in OK (pynum_value n).

Definition int_of_val (v : val) : Result Z :=
  match v with
  | VInt z => OK z
  | _ => Err TypeError
  end.

Definition str_of_val (v : val) : Result string :=
  match v with
  | VStr s => OK s
  | _ => Err TypeError
  end.

Definition attr_float (attrs : list (string * val)) (name : string) : Result Q :=
  let* v := attr attrs name in float_of_val v.

Definition attr_num (attrs : list (string * val)) (name : string) : Result pynum :=
  let* v := attr attrs name in pynum_of_val v.

Fixpoint decode_all {A : Type} (decode : val -> Result A) (items : list val)
    : Result (list A) :=
  match items with
  | [] => OK []
  | x :: rest =>
      let* a := decode x in
      let* r := decode_all decode rest in
      OK (a :: r)
  end.

Definition list_items (h : heap) (o : val) : Result (list val) :=
  match o with
  | VRef l =>
      match h !! l with
      | Some (PyList items) => OK items
      | Some _ => Err TypeError
      | None => Err SystemError
      end
  | _ => Err TypeError
  end.

Definition read_FinancingParameters (h : heap) (o : val)
    : Result FinancingParameters.t :=
  let* a := instance_attrs h o in
  let* discount_rate := attr_float a "discount_rate" in
  let* inflation_rate := attr_float a "inflation_rate" in
  let* tax_rate := attr_float a "tax_rate" in
  let* debt_fraction := attr_float a "debt_fraction" in
  let* debt_interest_rate := attr_float a "debt_interest_rate" in
  let* federal_itc := attr_float a "federal_itc" in
  let* state_rebate := attr_float a "state_rebate" in
  OK {| FinancingParameters.discount_rate := discount_rate;
        FinancingParameters.inflation_rate := inflation_rate;
        FinancingParameters.tax_rate := tax_rate;
        FinancingParameters.debt_fraction := debt_fraction;
        FinancingParameters.debt_interest_rate := debt_interest_rate;
        FinancingParameters.federal_itc := federal_itc;
        FinancingParameters.state_rebate := state_rebate;
        FinancingParameters.depreciation_schedule := [] |}.

Definition read_DegradationModel (h : heap) (o : val)
    : Result DegradationModel.t :=
  let* a := instance_attrs h o in
  let* rate := attr_float a "annual_degradation_rate" in
  let* type_v := attr a "degradation_type" in
  let* type := str_of_val type_v in
  let* years_v := attr a "step_years" in
  let* years_items := list_items h years_v in
  let* years := decode_all int_of_val years_items in
  let* rates_v := attr a "step_rates" in
  let* rates_items := list_items h rates_v in
  let* rates := decode_all float_of_val rates_items in
  OK {| DegradationModel.annual_degradation_rate := rate;
        DegradationModel.degradation_type := type;
        DegradationModel.step_years := years;
        DegradationModel.step_rates := rates |}.

Definition read_LCOEInputs (h : heap) (o : val) : Result LCOEInputs.t :=
  let* a := instance_attrs h o in
  let* capex_per_kw := attr_float a "capex_per_kw" in
  let* system_size_kw := attr_float a "system_size_kw" in
  let* fixed_om_per_kw_year := attr_float a "fixed_om_per_kw_year" in
  let* variable_om_per_mwh := attr_float a "variable_om_per_mwh" in
  let* fuel_cost_per_mwh := attr_float a "fuel_cost_per_mwh" in
  let* capacity_factor := attr_float a "capacity_factor" in
  let* system_lifetime_years := attr_num a "system_lifetime_years" in
  let* degradation_v := attr a "degradation" in
  let* degradation := read_DegradationModel h degradation_v in
  let* financing_v := attr a "financing" in
  let* financing := read_FinancingParameters h financing_v in
  OK {| LCOEInputs.capex_per_kw := capex_per_kw;
        LCOEInputs.system_size_kw := system_size_kw;
        LCOEInputs.fixed_om_per_kw_year := fixed_om_per_kw_year;
        LCOEInputs.variable_om_per_mwh := variable_om_per_mwh;
        LCOEInputs.fuel_cost_per_mwh := fuel_cost_per_mwh;
        LCOEInputs.capacity_factor := capacity_factor;
        LCOEInputs.system_lifetime_years := system_lifetime_years;
        LCOEInputs.degradation := degradation;
        LCOEInputs.financing := financing;
        LCOEInputs.technology_type := PV;
        LCOEInputs.use_case := RESIDENTIAL |}.

Definition read_LCOSInputs (h : heap) (o : val) : Result LCOSInputs.t :=
  let* a := instance_attrs h o in
  let* capex_per_kwh := attr_float a "capex_per_kwh" in
  let* system_size_kwh := attr_float a "system_size_kwh" in
  let* fixed_om_per_kwh_year := attr_float a "fixed_om_per_kwh_year" in
  let* variable_om_per_cycle := attr_float a "variable_om_per_cycle" in
  let* round_trip_efficiency := attr_float a "round_trip_efficiency" in
  let* cycles_per_year := attr_float a "cycles_per_year" in
  let* cycle_life := attr_num a "cycle_life" in
  let* calendar_life_years := attr_num a "calendar_life_years" in
  let* depth_of_discharge := attr_float a "depth_of_discharge" in
  let* capacity_fade_per_year := attr_float a "capacity_fade_per_year" in
  let* efficiency_fade_per_cycle := attr_float a "efficiency_fade_per_cycle" in
  let* financing_v := attr a "financing" in
  let* financing := read_FinancingParameters h financing_v in
  OK {| LCOSInputs.capex_per_kwh := capex_per_kwh;
        LCOSInputs.system_size_kwh := system_size_kwh;
        LCOSInputs.power_rating_kw := 0;
        LCOSInputs.fixed_om_per_kwh_year := fixed_om_per_kwh_year;
        LCOSInputs.variable_om_per_cycle := variable_om_per_cycle;
        LCOSInputs.round_trip_efficiency := round_trip_efficiency;
        LCOSInputs.cycles_per_year := cycles_per_year;
        LCOSInputs.cycle_life := cycle_life;
        LCOSInputs.calendar_life_years := calendar_life_years;
        LCOSInputs.depth_of_discharge := depth_of_discharge;
        LCOSInputs.capacity_fade_per_year := capacity_fade_per_year;
        LCOSInputs.efficiency_fade_per_cycle := efficiency_fade_per_cycle;
        LCOSInputs.financing := financing;
        LCOSInputs.load_profile := LoadProfile.default;
        LCOSInputs.technology_type := BATTERY;
        LCOSInputs.use_case := RESIDENTIAL |}.

(** [calculator.calculate(inputs)] on a reference: the calculators only
    read their argument, so the heap is returned as it was. *)
Definition lcoe_calculate (inputs : val) : M LCOEResult.t :=
  fun h => (let* i := read_LCOEInputs h inputs in LCOECalculator.calculate i, h).

Definition lcos_calculate (inputs : val) : M LCOSResult.t :=
  fun h => (let* i := read_LCOSInputs h inputs in LCOSCalculator.calculate i, h).

End Instances.

(** ** Sensitivity analysis ([sensitivity.py], class [SensitivityAnalyzer])

    The logger is not modelled: a parameter whose analysis raises leaves no
    record in the returned list. *)

Module SensitivityResult.
Record t : Type := {
  parameter_name : string;
  base_value : pynum;
  low_value : Q;
  high_value : Q;
  base_result : Q;
  low_result : Q;
  high_result : Q;
  sensitivity : Q;
  elasticity : Q
}.
End SensitivityResult.

(** [s.split('.')]. *)
Fixpoint split_dot (s : string) : list string :=
  match s with
  | EmptyString => [EmptyString]
  | String c rest =>
      match split_dot rest with
      | [] => [String c EmptyString]
      | w :: ws =>
          if Ascii.eqb c "."%char then EmptyString :: w :: ws
          else String c w :: ws
      end
  end.

Module SensitivityAnalyzer.
Import Heap Instances.
Local Open Scope heap_scope.

(** [for attr in attrs: value = getattr(value, attr)]. *)
Fixpoint getattr_path (value : val) (attrs : list string) : M val :=
  match attrs with
  | [] => ret value
  | a :: rest => v <- getattr value a ;; getattr_path v rest
  end.

Definition _get_nested_attribute (o : val) (attr_path : string) : M val :=
  getattr_path o (split_dot attr_path).

Definition _copy_inputs_with_param (inputs : val) (param_path : string)
    (new_value : val) : M val :=
  new_inputs <- deepcopy inputs ;;
  let attrs := split_dot param_path in
  o <- getattr_path new_inputs (removelast attrs) ;;
  _ <- setattr o (List.last attrs EmptyString) new_value ;;
  ret new_inputs.

(** [sensitivity_results.sort(key=lambda x: abs(x.elasticity), reverse=True)]:
    a stable sort, largest absolute elasticity first. *)
Fixpoint insert_by_elasticity (r : SensitivityResult.t)
    (sorted : list SensitivityResult.t) : list SensitivityResult.t :=
  match sorted with
  | [] => [r]
  | x :: rest =>
      if Qle_bool (Qabs (SensitivityResult.elasticity x))
                  (Qabs (SensitivityResult.elasticity r))
      then r :: x :: rest
      else x :: insert_by_elasticity r rest
  end.

Definition sort_by_elasticity (results : list SensitivityResult.t)
    : list SensitivityResult.t :=
  fold_right insert_by_elasticity [] results.

Section Analyzer.
(** [calculator.calculate(inputs).lcoe_usd_per_kwh], or [lcos_usd_per_kwh]. *)
Variable calculate_per_kwh : val -> M Q.

(** The body of the [try] block for one parameter.  [variation_percent]
    is a float, so the low and high values are floats whatever the type of
    the base value; a base value that is not a number makes the product
    raise [TypeError]. *)
Definition analyze_parameter (base_inputs : val) (variation_percent : Q)
    (base_lcoe : Q) (param : string) : M SensitivityResult.t :=
  base_v <- _get_nested_attribute base_inputs param ;;
  base_value <- lift (pynum_of_val base_v) ;;
  let low_value := pynum_value base_value * (1 - variation_percent) in
  let high_value := pynum_value base_value * (1 + variation_percent) in
  low_inputs <- _copy_inputs_with_param base_inputs param (VFloat low_value) ;;
  low_lcoe <- calculate_per_kwh low_inputs ;;
  high_inputs <- _copy_inputs_with_param base_inputs param (VFloat high_value) ;;
  high_lcoe <- calculate_per_kwh high_inputs ;;
  sensitivity <-
    lift (if negb (Qeq_bool high_value low_value)
          then Float.div (high_lcoe - low_lcoe) (high_value - low_value)
          else OK 0) ;;
  elasticity <-
    lift (if negb (Qeq_bool (pynum_value base_value) 0)
             && negb (Qeq_bool base_lcoe 0)
          then
            let* num := Float.div (high_lcoe - low_lcoe) base_lcoe in
            let* den :=
              Float.div (high_value - low_value) (pynum_value base_value) in
            Float.div num den
          else OK 0) ;;
  ret {| SensitivityResult.parameter_name := param;
         SensitivityResult.base_value := base_value;
         SensitivityResult.low_value := low_value;
         SensitivityResult.high_value := high_value;
         SensitivityResult.base_result := base_lcoe;
         SensitivityResult.low_result := low_lcoe;
         SensitivityResult.high_result := high_lcoe;
         SensitivityResult.sensitivity := sensitivity;
         SensitivityResult.elasticity := elasticity |}.

(** [for param in parameters: try: ... append ... except Exception: warn]. *)
Fixpoint analyze_parameters (base_inputs : val) (variation_percent : Q)
    (base_lcoe : Q) (parameters : list string)
    (sensitivity_results : list SensitivityResult.t)
    : M (list SensitivityResult.t) :=
  match parameters with
  | [] => ret sensitivity_results
  | param :: rest =>
      results <-
        try_except
          (r <- analyze_parameter base_inputs variation_percent base_lcoe param ;;
           ret (sensitivity_results ++ [r]))
          (fun _ => ret sensitivity_results) ;;
      analyze_parameters base_inputs variation_percent base_lcoe rest results
  end.

Definition analyze_sensitivity (default_parameters : list string)
    (base_inputs : val) (parameters : option (list string))
    (variation_percent : Q) : M (list SensitivityResult.t) :=
  let parameters :=
    match parameters with
    | None => default_parameters
    | Some ps => ps
    end in
  base_lcoe <- calculate_per_kwh base_inputs ;;
  results <-
    analyze_parameters base_inputs variation_percent base_lcoe parameters [] ;;
  ret (sort_by_elasticity results).
End Analyzer.

Definition lcoe_usd_per_kwh_of (inputs : val) : M Q :=
  r <- lcoe_calculate inputs ;; ret (LCOEResult.lcoe_usd_per_kwh r).

Definition lcos_usd_per_kwh_of (inputs : val) : M Q :=
  r <- lcos_calculate inputs ;; ret (LCOSResult.lcos_usd_per_kwh r).

Definition analyze_lcoe_sensitivity :
    val -> option (list string) -> Q -> M (list SensitivityResult.t) :=
  analyze_sensitivity lcoe_usd_per_kwh_of
    ["capex_per_kw"; "capacity_factor"; "system_lifetime_years";
     "fixed_om_per_kw_year"; "financing.discount_rate"].

Definition analyze_lcos_sensitivity :
    val -> option (list string) -> Q -> M (list SensitivityResult.t) :=
  analyze_sensitivity lcos_usd_per_kwh_of
    ["capex_per_kwh"; "round_trip_efficiency"; "cycle_life";
     "cycles_per_year"; "capacity_fade_per_year"; "financing.discount_rate"].

End SensitivityAnalyzer.

(** ** Monte Carlo simulation ([sensitivity.py], class [MonteCarloAnalyzer])

    The generator [np.random] is a parameter with an explicit state, and a
    draw is a total function: the exceptions that numpy raises on drawing
    ([ValueError] for a negative scale or for a triangular distribution
    whose bounds coincide or are out of order, [OverflowError] for a range
    that is not finite) are not modelled.  They would end the analysis
    before the first sample, the draws being outside of the [try] of the
    loop.  The analysis is modelled up to the array of valid samples; the
    returned statistics are numpy reductions of that array.  A drawn value
    is stored as a float and the sample is evaluated with the float
    operations of the calculators above. *)

Module ParameterDistribution.
Record t : Type := {
  name : string;
  distribution_type : string;
  base_value : Q;
  min_value : option Q;
  max_value : option Q;
  std_dev : option Q;
  mode_value : option Q
}.
End ParameterDistribution.

Module MonteCarloAnalyzer.
Import Heap Instances ParameterDistribution.
Local Open Scope heap_scope.

Section Analyzer.
Variable rng : Type.
Variable np_random_normal : Q -> Q -> nat -> rng -> list Q * rng.
Variable np_random_uniform : Q -> Q -> nat -> rng -> list Q * rng.
Variable np_random_triangular : Q -> Q -> Q -> nat -> rng -> list Q * rng.
Variable n_samples : nat.

Fixpoint _generate_parameter_samples (distributions : list ParameterDistribution.t)
    (samples : gmap string (list Q)) (g : rng) : gmap string (list Q) * rng :=
  match distributions with
  | [] => (samples, g)
  | dist :: rest =>
      let '(drawn, g') :=
        if String.eqb (distribution_type dist) "normal" then
          let sd := match std_dev dist with
                    | None => base_value dist * (1 # 10)
                    | Some sd => sd
                    end in
          np_random_normal (base_value dist) sd n_samples g
        else if String.eqb (distribution_type dist) "uniform" then
          let min_val := default (base_value dist * (8 # 10)) (min_value dist) in
          let max_val := default (base_value dist * (12 # 10)) (max_value dist) in
          np_random_uniform min_val max_val n_samples g
        else if String.eqb (distribution_type dist) "triangular" then
          let min_val := default (base_value dist * (8 # 10)) (min_value dist) in
          let max_val := default (base_value dist * (12 # 10)) (max_value dist) in
          let mode_val := default (base_value dist) (mode_value dist) in
          np_random_triangular min_val mode_val max_val n_samples g
        else (repeat (base_value dist) n_samples, g) in
      _generate_parameter_samples rest (<[name dist := drawn]> samples) g'
  end.

(** [for dist in distributions: ... setattr(obj, attrs[-1], sample_value)]. *)
Fixpoint set_samples (sample_inputs : val)
    (distributions : list ParameterDistribution.t)
    (parameter_samples : gmap string (list Q)) (sample_index : nat) : M unit :=
  match distributions with
  | [] => ret tt
  | dist :: rest =>
      column <- lift (match parameter_samples !! name dist with
                      | Some c => OK c
                      | None => Err KeyError
                      end) ;;
      sample_value <- lift (match nth_error column sample_index with
                            | Some x => OK x
                            | None => Err IndexError
                            end) ;;
      let attrs := split_dot (name dist) in
      o <- SensitivityAnalyzer.getattr_path sample_inputs (removelast attrs) ;;
      _ <- setattr o (List.last attrs EmptyString) (VFloat sample_value) ;;
      set_samples sample_inputs rest parameter_samples sample_index
  end.

Definition _create_sample_inputs (base_inputs : val)
    (distributions : list ParameterDistribution.t)
    (parameter_samples : gmap string (list Q)) (sample_index : nat) : M val :=
  sample_inputs <- deepcopy base_inputs ;;
  _ <- set_samples sample_inputs distributions parameter_samples sample_index ;;
  ret sample_inputs.

Variable calculate_per_kwh : val -> M Q.

(** [for i in range(self.n_samples)]; [None] stands for [np.nan]. *)
Fixpoint sample_loop (base_inputs : val)
    (distributions : list ParameterDistribution.t)
    (parameter_samples : gmap string (list Q)) (indices : list nat)
    (lcoe_samples : list (option Q)) : M (list (option Q)) :=
  match indices with
  | [] => ret lcoe_samples
  | i :: rest =>
      samples' <-
        try_except
          (sample_inputs <-
             _create_sample_inputs base_inputs distributions parameter_samples i ;;
           result <- calculate_per_kwh sample_inputs ;;
           ret (lcoe_samples ++ [Some result]))
          (fun _ => ret (lcoe_samples ++ [None])) ;;
      sample_loop base_inputs distributions parameter_samples rest samples'
  end.

Definition analyze_uncertainty (base_inputs : val)
    (parameter_distributions : list ParameterDistribution.t) (g : rng)
    : M (list Q) :=
  let '(parameter_samples, _) :=
    _generate_parameter_samples parameter_distributions ∅ g in
  lcoe_samples <-
    sample_loop base_inputs parameter_distributions parameter_samples
      (seq 0 n_samples) [] ;;
  let valid := omap id lcoe_samples in
  match valid with
  | [] => raise ValueError
  | _ => ret valid
  end.
End Analyzer.

Definition analyze_lcoe_uncertainty (rng : Type)
    (normal uniform : Q -> Q -> nat -> rng -> list Q * rng)
    (triangular : Q -> Q -> Q -> nat -> rng -> list Q * rng) (n_samples : nat)
    : val -> list ParameterDistribution.t -> rng -> M (list Q) :=
  analyze_uncertainty rng normal uniform triangular n_samples
    SensitivityAnalyzer.lcoe_usd_per_kwh_of.

Definition analyze_lcos_uncertainty (rng : Type)
    (normal uniform : Q -> Q -> nat -> rng -> list Q * rng)
    (triangular : Q -> Q -> Q -> nat -> rng -> list Q * rng) (n_samples : nat)
    : val -> list ParameterDistribution.t -> rng -> M (list Q) :=
  analyze_uncertainty rng normal uniform triangular n_samples
    SensitivityAnalyzer.lcos_usd_per_kwh_of.

End MonteCarloAnalyzer.

(** ** Concrete inputs used in the examples below *)

Module Examples.

(** [LCOEInputs(system_lifetime_years=2)]. *)
Definition lcoe_two_years : LCOEInputs.t := {|
  LCOEInputs.capex_per_kw := 1500;
  LCOEInputs.system_size_kw := 100;
  LCOEInputs.fixed_om_per_kw_year := 15;
  LCOEInputs.variable_om_per_mwh := 0;
  LCOEInputs.fuel_cost_per_mwh := 0;
  LCOEInputs.capacity_factor := 25 # 100;
  LCOEInputs.system_lifetime_years := PyInt 2;
  LCOEInputs.degradation := DegradationModel.default;
  LCOEInputs.financing := FinancingParameters.default;
  LCOEInputs.technology_type := PV;
  LCOEInputs.use_case := RESIDENTIAL
|}.

Definition with_lifetime (n : Z) (i : LCOEInputs.t) : LCOEInputs.t := {|
  LCOEInputs.capex_per_kw := LCOEInputs.capex_per_kw i;
  LCOEInputs.system_size_kw := LCOEInputs.system_size_kw i;
  LCOEInputs.fixed_om_per_kw_year := LCOEInputs.fixed_om_per_kw_year i;
  LCOEInputs.variable_om_per_mwh := LCOEInputs.variable_om_per_mwh i;
  LCOEInputs.fuel_cost_per_mwh := LCOEInputs.fuel_cost_per_mwh i;
  LCOEInputs.capacity_factor := LCOEInputs.capacity_factor i;
  LCOEInputs.system_lifetime_years := PyInt n;
  LCOEInputs.degradation := LCOEInputs.degradation i;
  LCOEInputs.financing := LCOEInputs.financing i;
  LCOEInputs.technology_type := LCOEInputs.technology_type i;
  LCOEInputs.use_case := LCOEInputs.use_case i
|}.

(** [LCOEInputs(system_lifetime_years=0)] and [LCOEInputs(system_lifetime_years=-1)]. *)
Definition lcoe_zero_years : LCOEInputs.t := with_lifetime 0 LCOEInputs.default.
Definition lcoe_negative_years : LCOEInputs.t := with_lifetime (-1) LCOEInputs.default.

(** [DegradationModel(degradation_type="step", step_years=[0], step_rates=[])]. *)
Definition step_without_rates : DegradationModel.t := {|
  DegradationModel.annual_degradation_rate := 5 # 1000;
  DegradationModel.degradation_type := "step";
  DegradationModel.step_years := [0%Z];
  DegradationModel.step_rates := []
|}.

(** [DegradationModel(annual_degradation_rate=2.0, degradation_type="exponential")]. *)
Definition exponential_200_percent : DegradationModel.t := {|
  DegradationModel.annual_degradation_rate := 2;
  DegradationModel.degradation_type := "exponential";
  DegradationModel.step_years := [];
  DegradationModel.step_rates := []
|}.



Definition lcos_with (life : Z) (cycles : Q) (calendar : Z) : LCOSInputs.t := {|
  LCOSInputs.capex_per_kwh := 400;
  LCOSInputs.system_size_kwh := 100;
  LCOSInputs.power_rating_kw := 50;
  LCOSInputs.fixed_om_per_kwh_year := 5;
  LCOSInputs.variable_om_per_cycle := 1 # 100;
  LCOSInputs.round_trip_efficiency := 90 # 100;
  LCOSInputs.cycles_per_year := cycles;
  LCOSInputs.cycle_life := PyInt life;
  LCOSInputs.calendar_life_years := PyInt calendar;
  LCOSInputs.depth_of_discharge := 90 # 100;
  LCOSInputs.capacity_fade_per_year := 2 # 100;
  LCOSInputs.efficiency_fade_per_cycle := 1 # 100000;
  LCOSInputs.financing := FinancingParameters.default;
  LCOSInputs.load_profile := LoadProfile.default;
  LCOSInputs.technology_type := BATTERY;
  LCOSInputs.use_case := RESIDENTIAL
|}.

(** [LCOSInputs(cycle_life=1000, calendar_life_years=5)]: the cycle limit,
    about 2.74 years, binds. *)
Definition lcos_cycle_limited : LCOSInputs.t := lcos_with 1000 365 5.

(** [LCOSInputs(cycle_life=-1, cycles_per_year=2.0)]. *)
Definition lcos_negative_cycle_life : LCOSInputs.t := lcos_with (-1) 2 15.

(** [LCOSInputs(cycles_per_year=0.0)]. *)
Definition lcos_no_cycles : LCOSInputs.t := lcos_with 4000 0 15.

(** The heap of a caller who has built [LCOEInputs(system_lifetime_years=2)],
    [LCOEInputs(system_lifetime_years=0)] or
    [LCOSInputs(cycle_life=1000, calendar_life_years=5)], with the
    reference to that object. *)
Definition lcoe_caller : Result Heap.val * list Heap.obj :=
  Instances.new_LCOEInputs lcoe_two_years Instances.enum_members.
Definition lcoe_zero_years_caller : Result Heap.val * list Heap.obj :=
  Instances.new_LCOEInputs lcoe_zero_years Instances.enum_members.
Definition lcos_caller : Result Heap.val * list Heap.obj :=
  Instances.new_LCOSInputs lcos_cycle_limited Instances.enum_members.

(** [analyze(base_inputs, parameters, variation_percent)] run by such a
    caller. *)
Definition run_sensitivity
    (analyze : Heap.val -> option (list string) -> Q
               -> Heap.M (list SensitivityResult.t))
    (caller : Result Heap.val * list Heap.obj)
    (parameters : list string) (variation_percent : Q)
    : Result (list SensitivityResult.t) :=
  match caller with
  | (OK base_inputs, h) =>
      fst (analyze base_inputs (Some parameters) variation_percent h)
  | (Err e, _) => Err e
  end.

(** The body of the [try] block for one parameter, run by such a caller
    after the base case has been computed. *)
Definition run_parameter (calculate_per_kwh : Heap.val -> Heap.M Q)
    (caller : Result Heap.val * list Heap.obj)
    (param : string) (variation_percent : Q) : Result SensitivityResult.t :=
  match caller with
  | (OK base_inputs, h) =>
      let* base_lcoe := fst (calculate_per_kwh base_inputs h) in
      fst (SensitivityAnalyzer.analyze_parameter calculate_per_kwh base_inputs
             variation_percent base_lcoe param h)
  | (Err e, _) => Err e
  end.

(** What the variation step would be with [copy.copy] in place of
    [copy.deepcopy]. *)
Definition shallow_copy_inputs_with_param (inputs : Heap.val)
    (param_path : string) (new_value : Heap.val) : Heap.M Heap.val :=
  Heap.bindM (Heap.shallow_copy inputs) (fun new_inputs =>
  let attrs := split_dot param_path in
  Heap.bindM (SensitivityAnalyzer.getattr_path new_inputs (removelast attrs))
    (fun o =>
  Heap.bindM (Heap.setattr o (List.last attrs EmptyString) new_value) (fun _ =>
  Heap.ret new_inputs))).

(** The discount rate that the caller's object shows after [step]. *)
Definition discount_rate_after
    (step : Heap.val -> Heap.M Heap.val)
    (caller : Result Heap.val * list Heap.obj) : Result Q :=
  match caller with
  | (OK base_inputs, h) =>
      let* i := Instances.read_LCOEInputs (snd (step base_inputs h)) base_inputs in
      OK (FinancingParameters.discount_rate (LCOEInputs.financing i))
  | (Err e, _) => Err e
  end.






(** A test on the value of a computation that returns. *)
Definition check {A : Type} (r : Result A) (p : A -> bool) : bool :=
  match r with
  | OK a => p a
  | Err _ => false
  end.

End Examples.

(** ** Vocabulary of the frame property

    Relative to the heap [h0] that a caller hands over, a location is fresh
    when it lies beyond [h0], and shared when [h0] holds an enum member
    there: [copy.deepcopy] leaves the members in place, so what is reached
    from a copy is fresh or shared. *)

Module Frame.
Import Heap.

(** [h'] has every object of [h], unchanged, at its location. *)
Definition extends (h h' : heap) : Prop := take (length h) h' = h.

(** A value that is no reference. *)
Definition atom (v : val) : Prop :=
  match v with
  | VRef _ => False
  | _ => True
  end.

Definition atomic (attrs : list (string * val)) : Prop :=
  Forall (fun kv => atom (snd kv)) attrs.

(** The enum members on [h] hold no reference to another object, as the
    members of [models.py] do (a string, a string and an int). *)
Definition members_atomic (h : heap) : Prop :=
  forall (l : loc) (cls : string) (attrs : list (string * val)),
    h !! l = Some (Instance cls attrs) -> is_enum_class cls = true -> atomic attrs.



(** What [h'] keeps of [h]: every object that is not an enum member is
    there unchanged, and where [h] has an enum member, [h'] has an
    instance of the same enum class. *)
Definition keeps_all_but_members (h h' : heap) : Prop :=
  forall (l : loc) (o : obj),
    h !! l = Some o ->
    h' !! l = Some o
    \/ exists cls attrs attrs',
         o = Instance cls attrs
         /\ is_enum_class cls = true
         /\ h' !! l = Some (Instance cls attrs').

Definition shared (h0 : heap) (l : loc) : Prop :=
  exists cls attrs, h0 !! l = Some (Instance cls attrs) /\ is_enum_class cls = true.

(** A value through which the analyzers may write: an atom, a fresh
    reference or a reference to an enum member. *)
Definition val_ok (h0 : heap) (v : val) : Prop :=
  match v with
  | VRef l => (length h0 <= l)%nat \/ shared h0 l
  | _ => True
  end.

Definition obj_ok (h0 : heap) (o : obj) : Prop :=
  match o with
  | Instance _ attrs => Forall (fun kv => val_ok h0 (snd kv)) attrs
  | PyDict entries => Forall (fun kv => val_ok h0 (snd kv)) entries
  | PyList items => Forall (val_ok h0) items
  end.

(** Fresh objects refer to fresh objects and to enum members only. *)
Definition closed (h0 h : heap) : Prop :=
  forall (l : loc) (o : obj),
    (length h0 <= l)%nat -> h !! l = Some o -> obj_ok h0 o.

Definition memo_fresh (n : nat) (memo : memo_t) : Prop :=
  map_Forall (fun (_ l' : loc) => (n <= l')%nat) memo.

(** The invariant of an analysis started on [h0]: the objects of [h0] that
    are no enum members are in place, its enum members are still members
    of their class that hold atoms, and the fresh objects are closed. *)
Definition inv (h0 h : heap) : Prop :=
  (length h0 <= length h)%nat
  /\ (forall l o, h0 !! l = Some o -> ~ shared h0 l -> h !! l = Some o)
  /\ (forall l cls attrs,
        h0 !! l = Some (Instance cls attrs) -> is_enum_class cls = true ->
        exists attrs', h !! l = Some (Instance cls attrs') /\ atomic attrs')
  /\ closed h0 h.

(** [m] keeps the invariant, whether it returns or raises, and a returned
    value satisfies [post]. *)
Definition safe {A : Type} (h0 : heap) (m : M A) (post : A -> Prop) : Prop :=
  forall h, inv h0 h ->
    inv h0 (snd (m h)) /\ forall a, fst (m h) = OK a -> post a.

(** [m] writes nothing. *)
Definition read_only {A : Type} (m : M A) : Prop := forall h, snd (m h) = h.

(** What a copy step returns: a value to write through and a memo of fresh
    copies. *)
Definition copied (h0 : heap) (r : val * gmap nat nat) : Prop :=
  val_ok h0 (fst r) /\ memo_fresh (length h0) (snd r).

(** The postcondition that asks nothing. *)
Definition anything {A : Type} (_ : A) : Prop := True.

End Frame.

(** ** Vocabulary of the statements *)

(** The levelized value of a cost bucket, as [calculate] writes it for the
    total and for each component: [bucket / energy if energy > 0 else 0]. *)
Definition levelized (bucket energy : Q) : Q :=
  if positive energy then bucket / energy else 0.

(** An input on which [LCOECalculator.calculate] has nothing to trip over:
    an integer lifetime, a non-zero size (the divisor of the realized
    capacity factor), a discount factor [1 + r] that is not zero, and, for
    the step variant, a rate for every trigger year. *)
Definition well_formed_lcoe (i : LCOEInputs.t) : Prop :=
  (exists n, LCOEInputs.system_lifetime_years i = PyInt n)
  /\ ~ LCOEInputs.system_size_kw i == 0
  /\ ~ 1 + FinancingParameters.effective_discount_rate (LCOEInputs.financing i) == 0
  /\ (DegradationModel.degradation_type (LCOEInputs.degradation i) = "step" ->
      (length (DegradationModel.step_years (LCOEInputs.degradation i))
       <= length (DegradationModel.step_rates (LCOEInputs.degradation i)))%nat).

(** A result whose levelized cost and four components are all zero. *)
Definition lcoe_all_zero (r : LCOEResult.t) : Prop :=
  LCOEResult.lcoe_usd_per_mwh r == 0
  /\ LCOEResult.lcoe_usd_per_kwh r == 0
  /\ LCOEResult.capex_component r == 0
  /\ LCOEResult.opex_component r == 0
  /\ LCOEResult.fuel_component r == 0
  /\ LCOEResult.financing_component r == 0.

(** ** Further vocabulary: scaling, the step product, sorted results *)

(** [inputs] with [system_size_kw] multiplied by [k]. *)
Definition scale_size (k : Q) (i : LCOEInputs.t) : LCOEInputs.t := {|
  LCOEInputs.capex_per_kw := LCOEInputs.capex_per_kw i;
  LCOEInputs.system_size_kw := k * LCOEInputs.system_size_kw i;
  LCOEInputs.fixed_om_per_kw_year := LCOEInputs.fixed_om_per_kw_year i;
  LCOEInputs.variable_om_per_mwh := LCOEInputs.variable_om_per_mwh i;
  LCOEInputs.fuel_cost_per_mwh := LCOEInputs.fuel_cost_per_mwh i;
  LCOEInputs.capacity_factor := LCOEInputs.capacity_factor i;
  LCOEInputs.system_lifetime_years := LCOEInputs.system_lifetime_years i;
  LCOEInputs.degradation := LCOEInputs.degradation i;
  LCOEInputs.financing := LCOEInputs.financing i;
  LCOEInputs.technology_type := LCOEInputs.technology_type i;
  LCOEInputs.use_case := LCOEInputs.use_case i
|}.

(** The net capex before the floor at zero, for the two calculators. *)
Definition lcoe_net_capex (i : LCOEInputs.t) : Q :=
  LCOEInputs.capex_per_kw i * LCOEInputs.system_size_kw i
  - LCOEInputs.capex_per_kw i * LCOEInputs.system_size_kw i
    * FinancingParameters.federal_itc (LCOEInputs.financing i)
  - FinancingParameters.state_rebate (LCOEInputs.financing i)
    * LCOEInputs.system_size_kw i.

Definition lcos_net_capex (i : LCOSInputs.t) : Q :=
  LCOSInputs.capex_per_kwh i * LCOSInputs.system_size_kwh i
  - LCOSInputs.capex_per_kwh i * LCOSInputs.system_size_kwh i
    * FinancingParameters.federal_itc (LCOSInputs.financing i)
  - FinancingParameters.state_rebate (LCOSInputs.financing i)
    * LCOSInputs.system_size_kwh i.

(** The step factor as a product over the (trigger year, rate) pairs: a pair
    whose trigger year has been reached contributes [1 - rate], any other
    pair contributes 1. *)
Fixpoint step_product (year : Z) (pairs : list (Z * Q)) : Q :=
  match pairs with
  | [] => 1
  | (step_year, rate) :: rest =>
      (if (year >=? step_year)%Z then 1 - rate else 1) * step_product year rest
  end.

(** [x] does not come after [y] in the order of the returned list: its
    absolute elasticity is at least that of [y]. *)
Definition elasticity_ge (x y : SensitivityResult.t) : Prop :=
  Qabs (SensitivityResult.elasticity y) <= Qabs (SensitivityResult.elasticity x).

(** The effective lifetime of a storage system, as the metrics use it. *)
Definition effective_lifetime (i : LCOSInputs.t) : Q :=
  Qmin (pynum_value (LCOSInputs.cycle_life i) / LCOSInputs.cycles_per_year i)
       (pynum_value (LCOSInputs.calendar_life_years i)).

(** [DegradationModel(degradation_type="step", step_years=[5, 10],
    step_rates=[0.1, 0.2])] and the same model with the second rate
    missing. *)
Definition two_steps : DegradationModel.t := {|
  DegradationModel.annual_degradation_rate := 5 # 1000;
  DegradationModel.degradation_type := "step";
  DegradationModel.step_years := [5%Z; 10%Z];
  DegradationModel.step_rates := [1 # 10; 2 # 10]
|}.

Definition two_steps_one_rate : DegradationModel.t := {|
  DegradationModel.annual_degradation_rate := 5 # 1000;
  DegradationModel.degradation_type := "step";
  DegradationModel.step_years := [5%Z; 10%Z];
  DegradationModel.step_rates := [1 # 10]
|}.

(** [LCOSInputs(cycle_life=300, calendar_life_years=5)]: an effective
    lifetime of 300/365 of a year. *)
Definition lcos_under_one_year : LCOSInputs.t := Examples.lcos_with 300 365 5.

(** [inputs] with another [round_trip_efficiency]. *)
Definition with_round_trip_efficiency (rte : Q) (i : LCOSInputs.t) : LCOSInputs.t := {|
  LCOSInputs.capex_per_kwh := LCOSInputs.capex_per_kwh i;
  LCOSInputs.system_size_kwh := LCOSInputs.system_size_kwh i;
  LCOSInputs.power_rating_kw := LCOSInputs.power_rating_kw i;
  LCOSInputs.fixed_om_per_kwh_year := LCOSInputs.fixed_om_per_kwh_year i;
  LCOSInputs.variable_om_per_cycle := LCOSInputs.variable_om_per_cycle i;
  LCOSInputs.round_trip_efficiency := rte;
  LCOSInputs.cycles_per_year := LCOSInputs.cycles_per_year i;
  LCOSInputs.cycle_life := LCOSInputs.cycle_life i;
  LCOSInputs.calendar_life_years := LCOSInputs.calendar_life_years i;
  LCOSInputs.depth_of_discharge := LCOSInputs.depth_of_discharge i;
  LCOSInputs.capacity_fade_per_year := LCOSInputs.capacity_fade_per_year i;
  LCOSInputs.efficiency_fade_per_cycle := LCOSInputs.efficiency_fade_per_cycle i;
  LCOSInputs.financing := LCOSInputs.financing i;
  LCOSInputs.load_profile := LCOSInputs.load_profile i;
  LCOSInputs.technology_type := LCOSInputs.technology_type i;
  LCOSInputs.use_case := LCOSInputs.use_case i
|}.

(** Whether a string contains a dot. *)
Fixpoint has_dot (s : string) : bool :=
  match s with
  | EmptyString => false
  | String c rest => Ascii.eqb c "."%char || has_dot rest
  end.

(** A generator that always draws the mean or the lower bound, for examples:
    it has no state. *)
Definition constant_draw (a _ : Q) (n : nat) (g : unit) : list Q * unit :=
  (repeat a n, g).
Definition constant_draw3 (a _ _ : Q) (n : nat) (g : unit) : list Q * unit :=
  (repeat a n, g).

(** [ParameterDistribution("capex_per_kw", "normal", 1500)]. *)
Definition capex_distribution : ParameterDistribution.t := {|
  ParameterDistribution.name := "capex_per_kw";
  ParameterDistribution.distribution_type := "normal";
  ParameterDistribution.base_value := 1500;
  ParameterDistribution.min_value := None;
  ParameterDistribution.max_value := None;
  ParameterDistribution.std_dev := None;
  ParameterDistribution.mode_value := None
|}.

(** The part of an input record that the calculators read: the attributes
    that the readers do not decode are at their default. *)
Definition financing_view (f : FinancingParameters.t) : FinancingParameters.t := {|
  FinancingParameters.discount_rate := FinancingParameters.discount_rate f;
  FinancingParameters.inflation_rate := FinancingParameters.inflation_rate f;
  FinancingParameters.tax_rate := FinancingParameters.tax_rate f;
  FinancingParameters.debt_fraction := FinancingParameters.debt_fraction f;
  FinancingParameters.debt_interest_rate := FinancingParameters.debt_interest_rate f;
  FinancingParameters.federal_itc := FinancingParameters.federal_itc f;
  FinancingParameters.state_rebate := FinancingParameters.state_rebate f;
  FinancingParameters.depreciation_schedule := []
|}.

Definition lcoe_view (i : LCOEInputs.t) : LCOEInputs.t := {|
  LCOEInputs.capex_per_kw := LCOEInputs.capex_per_kw i;
  LCOEInputs.system_size_kw := LCOEInputs.system_size_kw i;
  LCOEInputs.fixed_om_per_kw_year := LCOEInputs.fixed_om_per_kw_year i;
  LCOEInputs.variable_om_per_mwh := LCOEInputs.variable_om_per_mwh i;
  LCOEInputs.fuel_cost_per_mwh := LCOEInputs.fuel_cost_per_mwh i;
  LCOEInputs.capacity_factor := LCOEInputs.capacity_factor i;
  LCOEInputs.system_lifetime_years := LCOEInputs.system_lifetime_years i;
  LCOEInputs.degradation := LCOEInputs.degradation i;
  LCOEInputs.financing := financing_view (LCOEInputs.financing i);
  LCOEInputs.technology_type := PV;
  LCOEInputs.use_case := RESIDENTIAL
|}.

Definition lcos_view (i : LCOSInputs.t) : LCOSInputs.t := {|
  LCOSInputs.capex_per_kwh := LCOSInputs.capex_per_kwh i;
  LCOSInputs.system_size_kwh := LCOSInputs.system_size_kwh i;
  LCOSInputs.power_rating_kw := 0;
  LCOSInputs.fixed_om_per_kwh_year := LCOSInputs.fixed_om_per_kwh_year i;
  LCOSInputs.variable_om_per_cycle := LCOSInputs.variable_om_per_cycle i;
  LCOSInputs.round_trip_efficiency := LCOSInputs.round_trip_efficiency i;
  LCOSInputs.cycles_per_year := LCOSInputs.cycles_per_year i;
  LCOSInputs.cycle_life := LCOSInputs.cycle_life i;
  LCOSInputs.calendar_life_years := LCOSInputs.calendar_life_years i;
  LCOSInputs.depth_of_discharge := LCOSInputs.depth_of_discharge i;
  LCOSInputs.capacity_fade_per_year := LCOSInputs.capacity_fade_per_year i;
  LCOSInputs.efficiency_fade_per_cycle := LCOSInputs.efficiency_fade_per_cycle i;
  LCOSInputs.financing := financing_view (LCOSInputs.financing i);
  LCOSInputs.load_profile := LoadProfile.default;
  LCOSInputs.technology_type := BATTERY;
  LCOSInputs.use_case := RESIDENTIAL
|}.

(** ** Overrides from a dictionary ([custom_params])

    The scenario builders and the Tesla calculators end with
    [if custom_params:
       for key, value in custom_params.items():
         if hasattr(inputs, key): setattr(inputs, key, value)].
    The dictionary is the list of its items; [None] and the empty dictionary
    are the empty list.  As for [getattr], only the instance dictionary is
    seen: keys that name a method or a special attribute are not modelled. *)

Module Overrides.
Import Heap.
Local Open Scope heap_scope.

(** [hasattr(o, name)]: [getattr(o, name)] with [AttributeError] caught. *)
Definition hasattr (o : val) (name : string) : M bool :=
  try_except (_ <- getattr o name ;; ret true)
    (fun e =>
       match e with
       | AttributeError => ret false
       | _ => raise e
       end).

Fixpoint apply_custom_params (inputs : val) (custom_params : list (string * val))
    : M unit :=
  match custom_params with
  | [] => ret tt
  | (key, value) :: rest =>
      known <- hasattr inputs key ;;
      _ <- (if known then setattr inputs key value else ret tt) ;;
      apply_custom_params inputs rest
  end.

(** [d.get(key)] on a dictionary with string keys. *)
Fixpoint dict_get {A : Type} (key : string) (d : list (string * A)) : option A :=
  match d with
  | [] => None
  | (k, v) :: rest => if String.eqb k key then Some v else dict_get key rest
  end.

(** [d[key]]. *)
Definition dict_item {A : Type} (d : list (string * A)) (key : string) : Result A :=
  match dict_get key d with
  | Some v => OK v
  | None => Err KeyError
  end.

(** [x * m] for a float [m]. *)
Definition mul_float (x : val) (m : Q) : Result val :=
  match x with
  | VInt z => OK (VFloat (inject_Z z * m))
  | VFloat q => OK (VFloat (q * m))
  | _ => Err TypeError
  end.

(** [o.name *= m]. *)
Definition imul_attr (o : val) (name : string) (m : Q) : M unit :=
  x <- getattr o name ;;
  y <- lift (mul_float x m) ;;
  setattr o name y.

(** [use_case.value]. *)
Definition use_case_value (u : UseCase) : string :=
  match u with
  | RESIDENTIAL => "residential"
  | COMMERCIAL => "commercial"
  | UTILITY => "utility"
  end.

(** The last value that [custom_params] gives for [key]. *)
Fixpoint last_override (key : string) (custom_params : list (string * val))
    : option val :=
  match custom_params with
  | [] => None
  | (k, v) :: rest =>
      match last_override key rest with
      | Some w => Some w
      | None => if String.eqb k key then Some v else None
      end
  end.
End Overrides.

(** ** Tesla solar products ([tesla.py], class [TeslaLCOECalculator])

    Int literals that the product tables give for float fields are stored
    as floats; no arithmetic depends on the difference. *)

Module TeslaLCOECalculator.
Import Heap Instances Overrides.
Local Open Scope heap_scope.

Record solar_specs : Type := {
  capex_per_kw : Q;
  capacity_factor : list (string * Q);
  degradation_rate : Q;
  warranty_years : Z;
  efficiency : Q;
  fixed_om_per_kw_year : Q
}.

Definition solar_panels : solar_specs := {|
  capex_per_kw := 2500;
  capacity_factor :=
    [("residential", 19 # 100); ("commercial", 22 # 100); ("utility", 25 # 100)];
  degradation_rate := 4 # 1000;
  warranty_years := 25;
  efficiency := 222 # 1000;
  fixed_om_per_kw_year := 12
|}.

Definition solar_roof : solar_specs := {|
  capex_per_kw := 4000;
  capacity_factor := [("residential", 18 # 100)];
  degradation_rate := 4 # 1000;
  warranty_years := 25;
  efficiency := 222 # 1000;
  fixed_om_per_kw_year := 8
|}.

(** [DegradationModel(annual_degradation_rate=rate)]. *)
Definition linear_degradation (rate : Q) : DegradationModel.t := {|
  DegradationModel.annual_degradation_rate := rate;
  DegradationModel.degradation_type := "linear";
  DegradationModel.step_years := [];
  DegradationModel.step_rates := []
|}.

(** [(capacity_factor_mult, cost_mult)] by region. *)
Definition regional_factors : list (string * (Q * Q)) :=
  [("CA", (11 # 10, 12 # 10));
   ("TX", (105 # 100, 9 # 10));
   ("FL", (1, 1));
   ("NY", (85 # 100, 13 # 10));
   ("AZ", (12 # 10, 95 # 100))].

(** The adjustment is made on the object that is passed in, and the same
    reference is returned. *)
Definition _apply_regional_adjustments (inputs : val) (region : string) : M val :=
  match dict_get region regional_factors with
  | Some factors =>
      _ <- imul_attr inputs "capacity_factor" (fst factors) ;;
      _ <- imul_attr inputs "capex_per_kw" (snd factors) ;;
      ret inputs
  | None => ret inputs
  end.

(** The inputs that [calculate_tesla_solar_panels] constructs. *)
Definition solar_panels_inputs (system_size_kw : Q) (use_case : UseCase)
    : LCOEInputs.t := {|
  LCOEInputs.capex_per_kw := capex_per_kw solar_panels;
  LCOEInputs.system_size_kw := system_size_kw;
  LCOEInputs.fixed_om_per_kw_year := fixed_om_per_kw_year solar_panels;
  LCOEInputs.variable_om_per_mwh := 0;
  LCOEInputs.fuel_cost_per_mwh := 0;
  LCOEInputs.capacity_factor :=
    default (19 # 100)
      (dict_get (use_case_value use_case) (capacity_factor solar_panels));
  LCOEInputs.system_lifetime_years := PyInt (warranty_years solar_panels);
  LCOEInputs.degradation := linear_degradation (degradation_rate solar_panels);
  LCOEInputs.financing := FinancingParameters.default;
  LCOEInputs.technology_type := PV;
  LCOEInputs.use_case := use_case
|}.

Definition calculate_tesla_solar_panels (system_size_kw : Q) (use_case : UseCase)
    (region : string) (custom_params : list (string * val)) : M LCOEResult.t :=
  inputs <- new_LCOEInputs (solar_panels_inputs system_size_kw use_case) ;;
  inputs <- _apply_regional_adjustments inputs region ;;
  _ <- apply_custom_params inputs custom_params ;;
  lcoe_calculate inputs.

(** [1.0 + max(0, (1.0 - tile_coverage_ratio) * 0.5)]. *)
Definition complexity_multiplier (system_size_kw roof_area_sqft : Q) : Result Q :=
  let* tile_coverage_ratio :=
    Float.div (system_size_kw * 1000) (roof_area_sqft * 15) in
  OK (1 + Qmax 0 ((1 - tile_coverage_ratio) * (5 # 10))).

Definition solar_roof_inputs (system_size_kw complexity_multiplier : Q)
    (residential : Q) : LCOEInputs.t := {|
  LCOEInputs.capex_per_kw := capex_per_kw solar_roof * complexity_multiplier;
  LCOEInputs.system_size_kw := system_size_kw;
  LCOEInputs.fixed_om_per_kw_year := fixed_om_per_kw_year solar_roof;
  LCOEInputs.variable_om_per_mwh := 0;
  LCOEInputs.fuel_cost_per_mwh := 0;
  LCOEInputs.capacity_factor := residential;
  LCOEInputs.system_lifetime_years := PyInt (warranty_years solar_roof);
  LCOEInputs.degradation := linear_degradation (degradation_rate solar_roof);
  LCOEInputs.financing := FinancingParameters.default;
  LCOEInputs.technology_type := PV;
  LCOEInputs.use_case := RESIDENTIAL
|}.

Definition calculate_tesla_solar_roof (system_size_kw roof_area_sqft : Q)
    (region : string) (custom_params : list (string * val)) : M LCOEResult.t :=
  multiplier <- lift (complexity_multiplier system_size_kw roof_area_sqft) ;;
  residential <- lift (dict_item (capacity_factor solar_roof) "residential") ;;
  inputs <- new_LCOEInputs (solar_roof_inputs system_size_kw multiplier residential) ;;
  inputs <- _apply_regional_adjustments inputs region ;;
  _ <- apply_custom_params inputs custom_params ;;
  lcoe_calculate inputs.
End TeslaLCOECalculator.

(** ** Tesla storage products ([tesla.py], class [TeslaLCOSCalculator]) *)

Module TeslaLCOSCalculator.
Import Heap Instances Overrides.
Local Open Scope heap_scope.

Record battery_specs : Type := {
  capex_per_kwh : Q;
  power_rating_kw : Q;
  usable_capacity_kwh : Q;
  round_trip_efficiency : Q;
  cycle_life : Z;
  calendar_life_years : Z;
  capacity_fade_per_year : Q;
  efficiency_fade_per_cycle : Q;
  fixed_om_per_kwh_year : Q;
  variable_om_per_cycle : Q;
  depth_of_discharge : Q
}.

Definition powerwall_3 : battery_specs := {|
  capex_per_kwh := 800;
  power_rating_kw := 115 # 10;
  usable_capacity_kwh := 135 # 10;
  round_trip_efficiency := 975 # 1000;
  cycle_life := 4000;
  calendar_life_years := 10;
  capacity_fade_per_year := 2 # 100;
  efficiency_fade_per_cycle := 5 # 1000000;
  fixed_om_per_kwh_year := 3;
  variable_om_per_cycle := 5 # 1000;
  depth_of_discharge := 1
|}.

Definition powerwall_2 : battery_specs := {|
  capex_per_kwh := 700;
  power_rating_kw := 5;
  usable_capacity_kwh := 135 # 10;
  round_trip_efficiency := 90 # 100;
  cycle_life := 3650;
  calendar_life_years := 10;
  capacity_fade_per_year := 25 # 1000;
  efficiency_fade_per_cycle := 1 # 100000;
  fixed_om_per_kwh_year := 4;
  variable_om_per_cycle := 1 # 100;
  depth_of_discharge := 1
|}.

Definition megapack : battery_specs := {|
  capex_per_kwh := 300;
  power_rating_kw := 1900;
  usable_capacity_kwh := 3900;
  round_trip_efficiency := 92 # 100;
  cycle_life := 4000;
  calendar_life_years := 20;
  capacity_fade_per_year := 15 # 1000;
  efficiency_fade_per_cycle := 3 # 1000000;
  fixed_om_per_kwh_year := 2;
  variable_om_per_cycle := 2 # 1000;
  depth_of_discharge := 1
|}.

(** [LoadProfile(annual_energy_kwh=..., peak_demand_kw=..., load_factor=...)]. *)
Definition new_load_profile (annual_energy_kwh peak_demand_kw load_factor : Q)
    : LoadProfile.t := {|
  LoadProfile.annual_energy_kwh := annual_energy_kwh;
  LoadProfile.peak_demand_kw := peak_demand_kw;
  LoadProfile.load_factor := load_factor;
  LoadProfile.seasonal_variation := LoadProfile.seasonal_variation LoadProfile.default;
  LoadProfile.time_of_use_profile := []
|}.

(** The inputs that the three product methods construct from a row of the
    product table. *)
Definition battery_inputs (specs : battery_specs) (num_units : Z)
    (cycles_per_year : Q) (load_profile : LoadProfile.t) (use_case : UseCase)
    : LCOSInputs.t := {|
  LCOSInputs.capex_per_kwh := capex_per_kwh specs;
  LCOSInputs.system_size_kwh := usable_capacity_kwh specs * inject_Z num_units;
  LCOSInputs.power_rating_kw := power_rating_kw specs * inject_Z num_units;
  LCOSInputs.fixed_om_per_kwh_year := fixed_om_per_kwh_year specs;
  LCOSInputs.variable_om_per_cycle := variable_om_per_cycle specs;
  LCOSInputs.round_trip_efficiency := round_trip_efficiency specs;
  LCOSInputs.cycles_per_year := cycles_per_year;
  LCOSInputs.cycle_life := PyInt (cycle_life specs);
  LCOSInputs.calendar_life_years := PyInt (calendar_life_years specs);
  LCOSInputs.depth_of_discharge := depth_of_discharge specs;
  LCOSInputs.capacity_fade_per_year := capacity_fade_per_year specs;
  LCOSInputs.efficiency_fade_per_cycle := efficiency_fade_per_cycle specs;
  LCOSInputs.financing := FinancingParameters.default;
  LCOSInputs.load_profile := load_profile;
  LCOSInputs.technology_type := BATTERY;
  LCOSInputs.use_case := use_case
|}.

(** [if load_profile is None: load_profile = LoadProfile(...)]. *)
Definition load_profile_or_default (specs : battery_specs) (num_units : Z)
    (load_profile : option LoadProfile.t) : LoadProfile.t :=
  let system_size_kwh := usable_capacity_kwh specs * inject_Z num_units in
  let power_rating := power_rating_kw specs * inject_Z num_units in
  match load_profile with
  | None =>
      new_load_profile (system_size_kwh * 365) (power_rating * (8 # 10)) (3 # 10)
  | Some p => p
  end.

(** The body that [calculate_powerwall_3] and [calculate_powerwall_2]
    share, on their row of the product table. *)
Definition calculate_powerwall (specs : battery_specs) (num_units : Z)
    (use_case : UseCase) (load_profile : option LoadProfile.t)
    (custom_params : list (string * val)) : M LCOSResult.t :=
  let load_profile := load_profile_or_default specs num_units load_profile in
  inputs <- new_LCOSInputs (battery_inputs specs num_units 365 load_profile use_case) ;;
  _ <- apply_custom_params inputs custom_params ;;
  lcos_calculate inputs.

Definition calculate_powerwall_3 := calculate_powerwall powerwall_3.
Definition calculate_powerwall_2 := calculate_powerwall powerwall_2.

(** The utility-scale load profile of [calculate_megapack]. *)
Definition megapack_load_profile (num_units : Z) (cycles_per_year : Q)
    : LoadProfile.t :=
  let system_size_kwh := usable_capacity_kwh megapack * inject_Z num_units in
  let power_rating := power_rating_kw megapack * inject_Z num_units in
  new_load_profile (system_size_kwh * cycles_per_year) power_rating (4 # 10).

Definition calculate_megapack (num_units : Z) (cycles_per_year : Q)
    (custom_params : list (string * val)) : M LCOSResult.t :=
  let load_profile := megapack_load_profile num_units cycles_per_year in
  inputs <- new_LCOSInputs
              (battery_inputs megapack num_units cycles_per_year load_profile UTILITY) ;;
  _ <- apply_custom_params inputs custom_params ;;
  lcos_calculate inputs.

(** [(battery_kwh * efficiency) / load_kw if load_kw > 0 else 0]. *)
Definition calculate_backup_hours (battery_kwh load_kw efficiency : Q) : Result Q :=
  if Qlt_bool 0 load_kw then Float.div (battery_kwh * efficiency) load_kw
  else OK 0.

(** The dictionary that [calculate_solar_plus_storage] returns; the two
    results stand for their [to_dict()]. *)
Record solar_plus_storage : Type := {
  solar_lcoe : LCOEResult.t;
  storage_lcos : LCOSResult.t;
  total_capex : Q;
  combined_lcoe_kwh : Q;
  backup_hours : Q;
  solar_kw : Q;
  battery_kwh : Q
}.

Definition calculate_solar_plus_storage (solar_kw battery_kwh : Q)
    (region : string) (use_case : UseCase) : M solar_plus_storage :=
  solar_result <-
    TeslaLCOECalculator.calculate_tesla_solar_panels solar_kw use_case region [] ;;
  let num_powerwalls := Z.max 1 (Float.to_int (battery_kwh / (135 # 10))) in
  storage_result <- calculate_powerwall_3 num_powerwalls use_case None [] ;;
  let total_capex :=
    LCOEResult.total_capex solar_result + LCOSResult.total_capex storage_result in
  let combined_lcoe :=
    (LCOEResult.lcoe_usd_per_kwh solar_result
     + LCOSResult.lcos_usd_per_kwh storage_result) / 2 in
  hours <- lift (calculate_backup_hours battery_kwh 5 (95 # 100)) ;;
  ret {| solar_lcoe := solar_result;
         storage_lcos := storage_result;
         total_capex := total_capex;
         combined_lcoe_kwh := combined_lcoe;
         backup_hours := hours;
         solar_kw := solar_kw;
         battery_kwh := battery_kwh |}.
End TeslaLCOSCalculator.

(** ** Scenario builders ([scenarios.py], class [ScenarioBuilder]) *)

Module ScenarioBuilder.
Import Heap Instances Overrides.
Local Open Scope heap_scope.

Record incentives_data : Type := {
  federal_itc : Q;
  state_rebate : Q;
  net_metering : bool
}.

Record region_data : Type := {
  solar_irradiance_factor : Q;
  cost_multiplier : Q;
  incentives : incentives_data;
  electricity_rate : Q;
  peak_demand_charge : Q
}.

Definition regional_data : list (string * region_data) :=
  [("CA", {| solar_irradiance_factor := 11 # 10;
             cost_multiplier := 12 # 10;
             incentives := {| federal_itc := 30 # 100;
                              state_rebate := 1000;
                              net_metering := true |};
             electricity_rate := 25 # 100;
             peak_demand_charge := 15 |});
   ("TX", {| solar_irradiance_factor := 105 # 100;
             cost_multiplier := 9 # 10;
             incentives := {| federal_itc := 30 # 100;
                              state_rebate := 0;
                              net_metering := false |};
             electricity_rate := 12 # 100;
             peak_demand_charge := 10 |});
   ("FL", {| solar_irradiance_factor := 1;
             cost_multiplier := 1;
             incentives := {| federal_itc := 30 # 100;
                              state_rebate := 0;
                              net_metering := true |};
             electricity_rate := 13 # 100;
             peak_demand_charge := 8 |});
   ("NY", {| solar_irradiance_factor := 85 # 100;
             cost_multiplier := 13 # 10;
             incentives := {| federal_itc := 30 # 100;
                              state_rebate := 1500;
                              net_metering := true |};
             electricity_rate := 20 # 100;
             peak_demand_charge := 18 |});
   ("AZ", {| solar_irradiance_factor := 12 # 10;
             cost_multiplier := 95 # 100;
             incentives := {| federal_itc := 30 # 100;
                              state_rebate := 0;
                              net_metering := true |};
             electricity_rate := 14 # 100;
             peak_demand_charge := 12 |})].

Record load_profile_data : Type := {
  annual_energy_kwh : Q;
  peak_demand_kw : Q;
  load_factor : Q
}.

Record financing_data : Type := {
  discount_rate : Q;
  debt_fraction : Q;
  debt_interest_rate : Q
}.

Record use_case_data : Type := {
  typical_size_kw : Q;
  capacity_factor : Q;
  load_profile : load_profile_data;
  financing : financing_data
}.

Definition use_case_profiles : list (string * use_case_data) :=
  [("residential",
    {| typical_size_kw := 7;
       capacity_factor := 19 # 100;
       load_profile := {| annual_energy_kwh := 10000;
                          peak_demand_kw := 5;
                          load_factor := 3 # 10 |};
       financing := {| discount_rate := 6 # 100;
                       debt_fraction := 8 # 10;
                       debt_interest_rate := 4 # 100 |} |});
   ("commercial",
    {| typical_size_kw := 100;
       capacity_factor := 22 # 100;
       load_profile := {| annual_energy_kwh := 150000;
                          peak_demand_kw := 75;
                          load_factor := 4 # 10 |};
       financing := {| discount_rate := 8 # 100;
                       debt_fraction := 7 # 10;
                       debt_interest_rate := 5 # 100 |} |});
   ("utility",
    {| typical_size_kw := 50000;
       capacity_factor := 25 # 100;
       load_profile := {| annual_energy_kwh := 100000000;
                          peak_demand_kw := 40000;
                          load_factor := 5 # 10 |};
       financing := {| discount_rate := 7 # 100;
                       debt_fraction := 6 # 10;
                       debt_interest_rate := 4 # 100 |} |})].

(** [FinancingParameters(discount_rate=..., debt_fraction=...,
    debt_interest_rate=..., federal_itc=..., state_rebate=...)]. *)
Definition new_financing (u : use_case_data) (r : region_data)
    : FinancingParameters.t := {|
  FinancingParameters.discount_rate := discount_rate (financing u);
  FinancingParameters.inflation_rate :=
    FinancingParameters.inflation_rate FinancingParameters.default;
  FinancingParameters.tax_rate :=
    FinancingParameters.tax_rate FinancingParameters.default;
  FinancingParameters.debt_fraction := debt_fraction (financing u);
  FinancingParameters.debt_interest_rate := debt_interest_rate (financing u);
  FinancingParameters.federal_itc := federal_itc (incentives r);
  FinancingParameters.state_rebate := state_rebate (incentives r);
  FinancingParameters.depreciation_schedule :=
    FinancingParameters.depreciation_schedule FinancingParameters.default
|}.

(** The locals that the three technology branches assign. *)
Record technology_parameters : Type := {
  capex_per_kw : Q;
  capacity_factor_of : Q;
  fixed_om : Q;
  variable_om : Q;
  fuel_cost : Q;
  lifetime : Z;
  degradation : DegradationModel.t
}.

Definition technology_branch (technology : TechnologyType) (u : use_case_data)
    (r : region_data) : technology_parameters :=
  match technology with
  | PV =>
      {| capex_per_kw := 2000 * cost_multiplier r;
         capacity_factor_of := capacity_factor u * solar_irradiance_factor r;
         fixed_om := 15;
         variable_om := 0;
         fuel_cost := 0;
         lifetime := 25;
         degradation := TeslaLCOECalculator.linear_degradation (5 # 1000) |}
  | WIND =>
      {| capex_per_kw := 1500 * cost_multiplier r;
         capacity_factor_of := 35 # 100;
         fixed_om := 25;
         variable_om := 5;
         fuel_cost := 0;
         lifetime := 20;
         degradation := TeslaLCOECalculator.linear_degradation (2 # 1000) |}
  | _ =>
      {| capex_per_kw := 2000 * cost_multiplier r;
         capacity_factor_of := capacity_factor u * solar_irradiance_factor r;
         fixed_om := 15;
         variable_om := 0;
         fuel_cost := 0;
         lifetime := 25;
         degradation := TeslaLCOECalculator.linear_degradation (5 # 1000) |}
  end.

Definition lcoe_scenario_inputs (u : use_case_data) (r : region_data)
    (technology : TechnologyType) (use_case : UseCase) : LCOEInputs.t :=
  let p := technology_branch technology u r in
  {| LCOEInputs.capex_per_kw := capex_per_kw p;
     LCOEInputs.system_size_kw := typical_size_kw u;
     LCOEInputs.fixed_om_per_kw_year := fixed_om p;
     LCOEInputs.variable_om_per_mwh := variable_om p;
     LCOEInputs.fuel_cost_per_mwh := fuel_cost p;
     LCOEInputs.capacity_factor := capacity_factor_of p;
     LCOEInputs.system_lifetime_years := PyInt (lifetime p);
     LCOEInputs.degradation := degradation p;
     LCOEInputs.financing := new_financing u r;
     LCOEInputs.technology_type := technology;
     LCOEInputs.use_case := use_case |}.

(** [self.regional_data.get(region, self.regional_data["CA"])]. *)
Definition region_or_california (region : string) : Result region_data :=
  let* california := dict_item regional_data "CA" in
  OK (default california (dict_get region regional_data)).

Definition build_lcoe_scenario (use_case : UseCase) (region : string)
    (technology : TechnologyType) (custom_params : list (string * val)) : M val :=
  u <- lift (dict_item use_case_profiles (use_case_value use_case)) ;;
  r <- lift (region_or_california region) ;;
  inputs <- new_LCOEInputs (lcoe_scenario_inputs u r technology use_case) ;;
  _ <- apply_custom_params inputs custom_params ;;
  ret inputs.

(** The locals of the battery sizing branches:
    [(system_size_kwh, power_rating_kw, capex_per_kwh, cycles_per_year)]. *)
Definition battery_sizing (use_case : UseCase) (r : region_data) : Q * Q * Q * Q :=
  match use_case with
  | RESIDENTIAL => (135 # 10, 5, 800 * cost_multiplier r, 365)
  | COMMERCIAL => (100, 50, 600 * cost_multiplier r, 300)
  | UTILITY => (1000, 500, 400 * cost_multiplier r, 250)
  end.

Definition lcos_scenario_inputs (u : use_case_data) (r : region_data)
    (technology : TechnologyType) (use_case : UseCase) : LCOSInputs.t :=
  let sizing := battery_sizing use_case r in
  {| LCOSInputs.capex_per_kwh := snd (fst sizing);
     LCOSInputs.system_size_kwh := fst (fst (fst sizing));
     LCOSInputs.power_rating_kw := snd (fst (fst sizing));
     LCOSInputs.fixed_om_per_kwh_year := 5;
     LCOSInputs.variable_om_per_cycle := 1 # 100;
     LCOSInputs.round_trip_efficiency := 90 # 100;
     LCOSInputs.cycles_per_year := snd sizing;
     LCOSInputs.cycle_life := PyInt 4000;
     LCOSInputs.calendar_life_years := PyInt 15;
     LCOSInputs.depth_of_discharge := 90 # 100;
     LCOSInputs.capacity_fade_per_year := 2 # 100;
     LCOSInputs.efficiency_fade_per_cycle := 1 # 100000;
     LCOSInputs.financing := new_financing u r;
     LCOSInputs.load_profile :=
       TeslaLCOSCalculator.new_load_profile
         (annual_energy_kwh (load_profile u)) (peak_demand_kw (load_profile u))
         (load_factor (load_profile u));
     LCOSInputs.technology_type := technology;
     LCOSInputs.use_case := use_case |}.

Definition build_lcos_scenario (use_case : UseCase) (region : string)
    (technology : TechnologyType) (custom_params : list (string * val)) : M val :=
  u <- lift (dict_item use_case_profiles (use_case_value use_case)) ;;
  r <- lift (region_or_california region) ;;
  inputs <- new_LCOSInputs (lcos_scenario_inputs u r technology use_case) ;;
  _ <- apply_custom_params inputs custom_params ;;
  ret inputs.
End ScenarioBuilder.

(** The objects that the constructors allocate on a heap of length [n]. *)
Definition financing_objects (n : nat) (f : FinancingParameters.t) : list Heap.obj :=
  [ Heap.PyList (map Heap.VFloat (FinancingParameters.depreciation_schedule f));
    Heap.Instance "FinancingParameters"
      [("discount_rate", Heap.VFloat (FinancingParameters.discount_rate f));
       ("inflation_rate", Heap.VFloat (FinancingParameters.inflation_rate f));
       ("tax_rate", Heap.VFloat (FinancingParameters.tax_rate f));
       ("debt_fraction", Heap.VFloat (FinancingParameters.debt_fraction f));
       ("debt_interest_rate", Heap.VFloat (FinancingParameters.debt_interest_rate f));
       ("federal_itc", Heap.VFloat (FinancingParameters.federal_itc f));
       ("state_rebate", Heap.VFloat (FinancingParameters.state_rebate f));
       ("depreciation_schedule", Heap.VRef n)] ].

Definition degradation_objects (n : nat) (d : DegradationModel.t) : list Heap.obj :=
  [ Heap.PyList (map Heap.VInt (DegradationModel.step_years d));
    Heap.PyList (map Heap.VFloat (DegradationModel.step_rates d));
    Heap.Instance "DegradationModel"
      [("annual_degradation_rate",
        Heap.VFloat (DegradationModel.annual_degradation_rate d));
       ("degradation_type", Heap.VStr (DegradationModel.degradation_type d));
       ("step_years", Heap.VRef n);
       ("step_rates", Heap.VRef (n + 1))] ].

Definition load_profile_objects (n : nat) (p : LoadProfile.t) : list Heap.obj :=
  [ Heap.PyDict (map (fun kv => (fst kv, Heap.VFloat (snd kv)))
                   (LoadProfile.time_of_use_profile p));
    Heap.Instance "LoadProfile"
      [("annual_energy_kwh", Heap.VFloat (LoadProfile.annual_energy_kwh p));
       ("peak_demand_kw", Heap.VFloat (LoadProfile.peak_demand_kw p));
       ("load_factor", Heap.VFloat (LoadProfile.load_factor p));
       ("seasonal_variation", Heap.VFloat (LoadProfile.seasonal_variation p));
       ("time_of_use_profile", Heap.VRef n)] ].

Definition lcoe_attrs (n : nat) (i : LCOEInputs.t) : list (string * Heap.val) :=
  [("capex_per_kw", Heap.VFloat (LCOEInputs.capex_per_kw i));
   ("system_size_kw", Heap.VFloat (LCOEInputs.system_size_kw i));
   ("fixed_om_per_kw_year", Heap.VFloat (LCOEInputs.fixed_om_per_kw_year i));
   ("variable_om_per_mwh", Heap.VFloat (LCOEInputs.variable_om_per_mwh i));
   ("fuel_cost_per_mwh", Heap.VFloat (LCOEInputs.fuel_cost_per_mwh i));
   ("capacity_factor", Heap.VFloat (LCOEInputs.capacity_factor i));
   ("system_lifetime_years",
    Instances.val_of_pynum (LCOEInputs.system_lifetime_years i));
   ("degradation", Heap.VRef (n + 2));
   ("financing", Heap.VRef (n + 4));
   ("technology_type", Instances.val_of_technology (LCOEInputs.technology_type i));
   ("use_case", Instances.val_of_use_case (LCOEInputs.use_case i))].

Definition lcos_attrs (n : nat) (i : LCOSInputs.t) : list (string * Heap.val) :=
  [("capex_per_kwh", Heap.VFloat (LCOSInputs.capex_per_kwh i));
   ("system_size_kwh", Heap.VFloat (LCOSInputs.system_size_kwh i));
   ("power_rating_kw", Heap.VFloat (LCOSInputs.power_rating_kw i));
   ("fixed_om_per_kwh_year", Heap.VFloat (LCOSInputs.fixed_om_per_kwh_year i));
   ("variable_om_per_cycle", Heap.VFloat (LCOSInputs.variable_om_per_cycle i));
   ("round_trip_efficiency", Heap.VFloat (LCOSInputs.round_trip_efficiency i));
   ("cycles_per_year", Heap.VFloat (LCOSInputs.cycles_per_year i));
   ("cycle_life", Instances.val_of_pynum (LCOSInputs.cycle_life i));
   ("calendar_life_years", Instances.val_of_pynum (LCOSInputs.calendar_life_years i));
   ("depth_of_discharge", Heap.VFloat (LCOSInputs.depth_of_discharge i));
   ("capacity_fade_per_year", Heap.VFloat (LCOSInputs.capacity_fade_per_year i));
   ("efficiency_fade_per_cycle",
    Heap.VFloat (LCOSInputs.efficiency_fade_per_cycle i));
   ("financing", Heap.VRef (n + 1));
   ("load_profile", Heap.VRef (n + 3));
   ("technology_type", Instances.val_of_technology (LCOSInputs.technology_type i));
   ("use_case", Instances.val_of_use_case (LCOSInputs.use_case i))].

(** Five objects below the instance itself, which sits at [n + 5]. *)
Definition lcoe_parts (n : nat) (i : LCOEInputs.t) : list Heap.obj :=
  degradation_objects n (LCOEInputs.degradation i)
  ++ financing_objects (n + 3) (LCOEInputs.financing i).

(** Four objects below the instance itself, which sits at [n + 4]. *)
Definition lcos_parts (n : nat) (i : LCOSInputs.t) : list Heap.obj :=
  financing_objects n (LCOSInputs.financing i)
  ++ load_profile_objects (n + 2) (LCOSInputs.load_profile i).

(** Each override replaces the value of an attribute that is there. *)
Definition overridden (custom_params : list (string * Heap.val))
    (attrs : list (string * Heap.val)) : list (string * Heap.val) :=
  map (fun kv => (fst kv, default (snd kv) (Overrides.last_override (fst kv) custom_params)))
    attrs.

(** The heap after [LCOEInputs(...)] (respectively [LCOSInputs(...)]) has
    been constructed on [h] from the fields of a record: the new instance is
    the last object. *)
Definition lcoe_heap (h : list Heap.obj) (i : LCOEInputs.t) : list Heap.obj :=
  h ++ lcoe_parts (length h) i
    ++ [Heap.Instance "LCOEInputs" (lcoe_attrs (length h) i)].

Definition lcos_heap (h : list Heap.obj) (i : LCOSInputs.t) : list Heap.obj :=
  h ++ lcos_parts (length h) i
    ++ [Heap.Instance "LCOSInputs" (lcos_attrs (length h) i)].

(** [inputs] after [capacity_factor *= fst factors; capex_per_kw *= snd factors]. *)
Definition with_regional_factors (factors : Q * Q) (i : LCOEInputs.t)
    : LCOEInputs.t := {|
  LCOEInputs.capex_per_kw := LCOEInputs.capex_per_kw i * snd factors;
  LCOEInputs.system_size_kw := LCOEInputs.system_size_kw i;
  LCOEInputs.fixed_om_per_kw_year := LCOEInputs.fixed_om_per_kw_year i;
  LCOEInputs.variable_om_per_mwh := LCOEInputs.variable_om_per_mwh i;
  LCOEInputs.fuel_cost_per_mwh := LCOEInputs.fuel_cost_per_mwh i;
  LCOEInputs.capacity_factor := LCOEInputs.capacity_factor i * fst factors;
  LCOEInputs.system_lifetime_years := LCOEInputs.system_lifetime_years i;
  LCOEInputs.degradation := LCOEInputs.degradation i;
  LCOEInputs.financing := LCOEInputs.financing i;
  LCOEInputs.technology_type := LCOEInputs.technology_type i;
  LCOEInputs.use_case := LCOEInputs.use_case i
|}.

(** The inputs of [calculate_tesla_solar_panels] after the regional
    adjustment. *)
Definition tesla_solar_inputs (system_size_kw : Q) (use_case : UseCase)
    (region : string) : LCOEInputs.t :=
  let i := TeslaLCOECalculator.solar_panels_inputs system_size_kw use_case in
  match Overrides.dict_get region TeslaLCOECalculator.regional_factors with
  | Some factors => with_regional_factors factors i
  | None => i
  end.

(** The default inputs with other values in the fields that the calculators
    do not read. *)
Definition wind_without_schedule : LCOEInputs.t := {|
  LCOEInputs.capex_per_kw := 1500;
  LCOEInputs.system_size_kw := 100;
  LCOEInputs.fixed_om_per_kw_year := 15;
  LCOEInputs.variable_om_per_mwh := 0;
  LCOEInputs.fuel_cost_per_mwh := 0;
  LCOEInputs.capacity_factor := 25 # 100;
  LCOEInputs.system_lifetime_years := PyInt 25;
  LCOEInputs.degradation := DegradationModel.default;
  LCOEInputs.financing := financing_view FinancingParameters.default;
  LCOEInputs.technology_type := WIND;
  LCOEInputs.use_case := UTILITY
|}.

Definition no_power_rating : LCOSInputs.t := {|
  LCOSInputs.capex_per_kwh := 400;
  LCOSInputs.system_size_kwh := 100;
  LCOSInputs.power_rating_kw := 0;
  LCOSInputs.fixed_om_per_kwh_year := 5;
  LCOSInputs.variable_om_per_cycle := 1 # 100;
  LCOSInputs.round_trip_efficiency := 90 # 100;
  LCOSInputs.cycles_per_year := 365;
  LCOSInputs.cycle_life := PyInt 4000;
  LCOSInputs.calendar_life_years := PyInt 15;
  LCOSInputs.depth_of_discharge := 90 # 100;
  LCOSInputs.capacity_fade_per_year := 2 # 100;
  LCOSInputs.efficiency_fade_per_cycle := 1 # 100000;
  LCOSInputs.financing := FinancingParameters.default;
  LCOSInputs.load_profile :=
    TeslaLCOSCalculator.new_load_profile 1 1 1;
  LCOSInputs.technology_type := WIND;
  LCOSInputs.use_case := COMMERCIAL
|}.

(** [inputs] with another [capex_per_kw]. *)
Definition with_capex (capex : Q) (i : LCOEInputs.t) : LCOEInputs.t := {|
  LCOEInputs.capex_per_kw := capex;
  LCOEInputs.system_size_kw := LCOEInputs.system_size_kw i;
  LCOEInputs.fixed_om_per_kw_year := LCOEInputs.fixed_om_per_kw_year i;
  LCOEInputs.variable_om_per_mwh := LCOEInputs.variable_om_per_mwh i;
  LCOEInputs.fuel_cost_per_mwh := LCOEInputs.fuel_cost_per_mwh i;
  LCOEInputs.capacity_factor := LCOEInputs.capacity_factor i;
  LCOEInputs.system_lifetime_years := LCOEInputs.system_lifetime_years i;
  LCOEInputs.degradation := LCOEInputs.degradation i;
  LCOEInputs.financing := LCOEInputs.financing i;
  LCOEInputs.technology_type := LCOEInputs.technology_type i;
  LCOEInputs.use_case := LCOEInputs.use_case i
|}.

(** An input on which [LCOSCalculator.calculate] has nothing to trip over:
    an integer calendar life (it is passed to [range]) and non-zero
    divisors. *)
Definition well_formed_lcos (i : LCOSInputs.t) : Prop :=
  (exists n, LCOSInputs.calendar_life_years i = PyInt n)
  /\ ~ LCOSInputs.cycles_per_year i == 0
  /\ ~ LCOSInputs.round_trip_efficiency i == 0
  /\ ~ 1 + FinancingParameters.effective_discount_rate (LCOSInputs.financing i) == 0.

(** What a scenario depends on: the technology only through being wind or
    not, the region only through its row of the regional table, which is
    the row of California for a region that has none. *)
Definition effective_technology (technology : TechnologyType) : TechnologyType :=
  match technology with
  | WIND => WIND
  | _ => PV
  end.

Definition effective_region (region : string) : string :=
  match Overrides.dict_get region ScenarioBuilder.regional_data with
  | Some _ => region
  | None => "CA"
  end.

(** [calculator.calculate(builder.build_lcoe_scenario(...))] and its LCOS
    counterpart, without overrides. *)
Definition lcoe_of_scenario (use_case : UseCase) (region : string)
    (technology : TechnologyType) : Heap.M LCOEResult.t :=
  Heap.bindM (ScenarioBuilder.build_lcoe_scenario use_case region technology [])
    Instances.lcoe_calculate.

Definition lcos_of_scenario (use_case : UseCase) (region : string)
    (technology : TechnologyType) : Heap.M LCOSResult.t :=
  Heap.bindM (ScenarioBuilder.build_lcos_scenario use_case region technology [])
    Instances.lcos_calculate.

(** The regions whose row has no state rebate. *)
Definition regions_without_rebate : list string := ["TX"; "FL"; "AZ"].
(** * Properties *)

(** ** Fallible computations *)

Lemma bind_OK {A B : Type} (m : Result A) (f : A -> Result B) (b : B) :
  bind m f = OK b -> exists a, m = OK a /\ f a = OK b.
Proof. destruct m as [a|e]; simpl; intros H; [eauto | discriminate]. Qed.

Lemma div_OK (x y v : Q) : Float.div x y = OK v -> ~ y == 0 /\ v = x / y.
Proof.
  unfold Float.div. destruct (Qeq_bool y 0) eqn:E; [discriminate|].
  intros [= <-]. split; [|reflexivity].
  intros H. apply Qeq_bool_iff in H. congruence.
Qed.

Lemma div_nonzero (x y : Q) : ~ y == 0 -> Float.div x y = OK (x / y).
Proof.
  intros H. unfold Float.div. destruct (Qeq_bool y 0) eqn:E; [|reflexivity].
  apply Qeq_bool_iff in E. contradiction.
Qed.

Lemma div_zero (x y : Q) : y == 0 -> Float.div x y = Err ZeroDivisionError.
Proof.
  intros H. unfold Float.div. apply Qeq_bool_iff in H. now rewrite H.
Qed.

Lemma pow_nonneg (x : Q) (n : Z) : (0 <= n)%Z -> Float.pow x n = OK (x ^ n).
Proof.
  intros H. unfold Float.pow.
  replace (n <? 0)%Z with false by (symmetry; apply Z.ltb_ge; exact H).
  now rewrite andb_false_r.
Qed.

Lemma pow_nonzero (x : Q) (n : Z) : ~ x == 0 -> Float.pow x n = OK (x ^ n).
Proof.
  intros H. unfold Float.pow. destruct (Qeq_bool x 0) eqn:E; [|reflexivity].
  apply Qeq_bool_iff in E. contradiction.
Qed.

Lemma Qlt_bool_iff (x y : Q) : Qlt_bool x y = true <-> x < y.
Proof.
  unfold Qlt_bool. rewrite negb_true_iff. split.
  - intros H. apply Qnot_le_lt. intros L. apply Qle_bool_iff in L. congruence.
  - intros H. destruct (Qle_bool y x) eqn:E; [|reflexivity].
    apply Qle_bool_iff in E. exfalso. exact (Qlt_not_le _ _ H E).
Qed.

Lemma positive_iff (x : Q) : positive x = true <-> 0 < x.
Proof. apply Qlt_bool_iff. Qed.

Lemma positive_nonzero (x : Q) : positive x = true -> ~ x == 0.
Proof.
  intros H E. apply positive_iff in H. rewrite E in H. exact (Qlt_irrefl 0 H).
Qed.

Lemma check_true {A : Type} (r : Result A) (p : A -> bool) :
  Examples.check r p = true -> exists a, r = OK a /\ p a = true.
Proof. destruct r as [a|e]; simpl; intros H; [eauto | discriminate H]. Qed.

Lemma Qeq_bool_false (x y : Q) : Qeq_bool x y = false -> ~ x == y.
Proof. intros H E. apply Qeq_bool_iff in E. congruence. Qed.

(** ** Ranges and accumulation loops *)

Lemma range_nonpos (n : Z) : (n <= 0)%Z -> range n = [].
Proof.
  intros H. unfold range. replace (Z.to_nat n) with 0%nat by lia. reflexivity.
Qed.

Lemma range_nonneg (n y : Z) : In y (range n) -> (0 <= y < n)%Z.
Proof.
  unfold range. rewrite in_map_iff. intros [k [<- Hk]].
  apply in_seq in Hk. lia.
Qed.

Lemma sum_loop_succeeds (term : Z -> Result Q) (years : list Z) :
  (forall y, In y years -> succeeds (term y)) ->
  forall total, succeeds (sum_loop term years total).
Proof.
  induction years as [|y ys IH]; intros H total; simpl.
  - now exists total.
  - destruct (H y (or_introl eq_refl)) as [t Ht]. rewrite Ht. simpl.
    apply IH. intros z Hz. apply H. now right.
Qed.

(** A loop whose first iteration raises, raises. *)
Lemma sum_loop_first_raises (term : Z -> Result Q) (y : Z) (ys : list Z)
    (total : Q) (e : exn) :
  term y = Err e -> sum_loop term (y :: ys) total = Err e.
Proof. intros H. simpl. now rewrite H. Qed.

(** What [_calculate_npv_series] returns over no years, and when it returns. *)
Lemma npv_series_nonpos (amount : Q) (n : Z) (d r : Q) :
  (n <= 0)%Z -> _calculate_npv_series amount (PyInt n) d r = OK 0.
Proof. intros H. unfold _calculate_npv_series. simpl. now rewrite range_nonpos. Qed.

Lemma npv_series_succeeds (amount : Q) (n : Z) (d r : Q) :
  ~ 1 + d == 0 -> succeeds (_calculate_npv_series amount (PyInt n) d r).
Proof.
  intros Hd. unfold _calculate_npv_series. simpl.
  apply sum_loop_succeeds. intros y Hy. apply range_nonneg in Hy.
  rewrite !pow_nonneg by lia. simpl.
  rewrite div_nonzero; [eexists; reflexivity|].
  now apply Qpower_not_0.
Qed.

(** ** The shape of a computed result *)

Ltac bind_inv H :=
  repeat match type of H with
         | bind _ _ = OK _ =>
             let a := fresh "a" in
             let Ha := fresh "Ha" in
             apply bind_OK in H; destruct H as [a [Ha H]]
         end.

Lemma levelized_sum (a b c d energy : Q) :
  levelized a energy + levelized b energy + levelized c energy
    + levelized d energy == levelized (a + b + c + d) energy.
Proof.
  unfold levelized. destruct (positive energy) eqn:E.
  - apply positive_nonzero in E. now field.
  - ring.
Qed.

Lemma levelized_no_energy (bucket energy : Q) :
  ~ 0 < energy -> levelized bucket energy = 0.
Proof.
  intros H. unfold levelized. destruct (positive energy) eqn:E; [|reflexivity].
  apply positive_iff in E. contradiction.
Qed.

Lemma lcoe_calculate_inv (i : LCOEInputs.t) (r : LCOEResult.t) :
  LCOECalculator.calculate i = OK r ->
  exists energy opex fuel fin cfa,
    LCOECalculator._calculate_lifetime_energy i
      (LCOECalculator._calculate_annual_energy i) = OK energy
    /\ LCOECalculator._calculate_opex_npv i = OK opex
    /\ LCOECalculator._calculate_fuel_npv i
         (LCOECalculator._calculate_annual_energy i) = OK fuel
    /\ LCOECalculator._calculate_financing_cost i
         (LCOECalculator._calculate_total_capex i) = OK fin
    /\ Float.div (LCOECalculator._calculate_annual_energy i)
         (LCOEInputs.system_size_kw i * (876 # 100)) = OK cfa
    /\ LCOEResult.total_energy_mwh r = energy
    /\ LCOEResult.lcoe_usd_per_mwh r =
         levelized (LCOECalculator._calculate_total_capex i + opex + fuel + fin) energy
    /\ LCOEResult.lcoe_usd_per_kwh r = LCOEResult.lcoe_usd_per_mwh r / 1000
    /\ LCOEResult.capex_component r =
         levelized (LCOECalculator._calculate_total_capex i) energy
    /\ LCOEResult.opex_component r = levelized opex energy
    /\ LCOEResult.fuel_component r = levelized fuel energy
    /\ LCOEResult.financing_component r = levelized fin energy.
Proof.
  unfold LCOECalculator.calculate. intros H. bind_inv H.
  injection H as <-. simpl.
  exists a, a0, a1, a2, a3. repeat split; assumption.
Qed.

Lemma lcos_calculate_inv (i : LCOSInputs.t) (r : LCOSResult.t) :
  LCOSCalculator.calculate i = OK r ->
  exists throughput opex repl fin,
    LCOSCalculator._calculate_lifetime_throughput i = OK throughput
    /\ LCOSCalculator._calculate_opex_npv i = OK opex
    /\ LCOSCalculator._calculate_replacement_cost i = OK repl
    /\ LCOSCalculator._calculate_financing_cost i
         (LCOSCalculator._calculate_total_capex i) = OK fin
    /\ LCOSCalculator._calculate_effective_cycles i
         = OK (LCOSResult.effective_cycles r)
    /\ LCOSCalculator._calculate_end_of_life_capacity i
         = OK (LCOSResult.end_of_life_capacity r)
    /\ LCOSCalculator._calculate_average_efficiency i
         = OK (LCOSResult.average_efficiency r)
    /\ LCOSResult.total_throughput_mwh r = throughput
    /\ LCOSResult.lcos_usd_per_mwh r =
         levelized (LCOSCalculator._calculate_total_capex i + opex + repl + fin)
           throughput
    /\ LCOSResult.capex_component r =
         levelized (LCOSCalculator._calculate_total_capex i) throughput
    /\ LCOSResult.opex_component r = levelized opex throughput
    /\ LCOSResult.replacement_component r = levelized repl throughput
    /\ LCOSResult.financing_component r = levelized fin throughput.
Proof.
  unfold LCOSCalculator.calculate. intros H. bind_inv H.
  injection H as <-. simpl.
  exists a, a0, a1, a2. repeat split; assumption.
Qed.

(** ** C1: the component breakdown sums to the total *)

(** C1. Whenever [calculate] returns, the four breakdown components add up to
    the levelized cost per MWh, for the LCOE result (capex, opex, fuel,
    financing) and for the LCOS result (capex, opex, replacement, financing);
    when the lifetime discounted energy or throughput is not positive, the
    total and the four components are all 0. *)
Theorem component_breakdown_sums_to_total :
  (forall (i : LCOEInputs.t) (r : LCOEResult.t),
      LCOECalculator.calculate i = OK r ->
      LCOEResult.capex_component r + LCOEResult.opex_component r
        + LCOEResult.fuel_component r + LCOEResult.financing_component r
        == LCOEResult.lcoe_usd_per_mwh r
      /\ (~ 0 < LCOEResult.total_energy_mwh r ->
          LCOEResult.lcoe_usd_per_mwh r == 0
          /\ LCOEResult.capex_component r == 0
          /\ LCOEResult.opex_component r == 0
          /\ LCOEResult.fuel_component r == 0
          /\ LCOEResult.financing_component r == 0))
  /\ (forall (i : LCOSInputs.t) (r : LCOSResult.t),
      LCOSCalculator.calculate i = OK r ->
      LCOSResult.capex_component r + LCOSResult.opex_component r
        + LCOSResult.replacement_component r + LCOSResult.financing_component r
        == LCOSResult.lcos_usd_per_mwh r
      /\ (~ 0 < LCOSResult.total_throughput_mwh r ->
          LCOSResult.lcos_usd_per_mwh r == 0
          /\ LCOSResult.capex_component r == 0
          /\ LCOSResult.opex_component r == 0
          /\ LCOSResult.replacement_component r == 0
          /\ LCOSResult.financing_component r == 0)).
Proof.
  split.
  - intros i r H.
    destruct (lcoe_calculate_inv i r H)
      as (energy & opex & fuel & fin & cfa & _ & _ & _ & _ & _
          & He & Ht & _ & Hc & Ho & Hf & Hfi).
    rewrite Ht, Hc, Ho, Hf, Hfi, He. split.
    + apply levelized_sum.
    + intros Hz. now rewrite !levelized_no_energy by exact Hz.
  - intros i r H.
    destruct (lcos_calculate_inv i r H)
      as (thr & opex & repl & fin & _ & _ & _ & _ & _ & _ & _
          & He & Ht & Hc & Ho & Hr & Hfi).
    rewrite Ht, Hc, Ho, Hr, Hfi, He. split.
    + apply levelized_sum.
    + intros Hz. now rewrite !levelized_no_energy by exact Hz.
Qed.

Lemma examples_return :
  Examples.check (LCOECalculator.calculate Examples.lcoe_two_years)
    (fun _ => true) = true
  /\ Examples.check (LCOSCalculator.calculate Examples.lcos_cycle_limited)
       (fun _ => true) = true.
Proof. split; vm_compute; reflexivity. Qed.

Lemma component_breakdown_witness :
  (exists r, LCOECalculator.calculate Examples.lcoe_two_years = OK r
     /\ LCOEResult.capex_component r + LCOEResult.opex_component r
        + LCOEResult.fuel_component r + LCOEResult.financing_component r
        == LCOEResult.lcoe_usd_per_mwh r)
  /\ (exists r, LCOSCalculator.calculate Examples.lcos_cycle_limited = OK r
     /\ LCOSResult.capex_component r + LCOSResult.opex_component r
        + LCOSResult.replacement_component r + LCOSResult.financing_component r
        == LCOSResult.lcos_usd_per_mwh r).
Proof.
  split.
  - destruct (check_true _ _ (proj1 examples_return)) as [r [E _]].
    exists r. split; [exact E|].
    exact (proj1 (proj1 component_breakdown_sums_to_total _ r E)).
  - destruct (check_true _ _ (proj2 examples_return)) as [r [E _]].
    exists r. split; [exact E|].
    exact (proj1 (proj2 component_breakdown_sums_to_total _ r E)).
Defined.

(** ** The step variant of the degradation model *)

Lemma step_loop_succeeds (year : Z) (rates : list Q) (years : list Z) :
  forall (i : nat) (factor : Q),
    (i + length years <= length rates)%nat ->
    succeeds (DegradationModel.step_loop year rates i years factor).
Proof.
  induction years as [|y ys IH]; intros i factor Hlen; simpl in *.
  - now exists factor.
  - destruct (year >=? y)%Z.
    + destruct (nth_error rates i) as [rate|] eqn:E.
      * apply IH. lia.
      * apply nth_error_None in E. lia.
    + apply IH. lia.
Qed.

Lemma step_loop_raises (year : Z) (rates : list Q) (years : list Z) :
  forall (i k : nat) (factor : Q) (step_year : Z),
    nth_error years k = Some step_year ->
    (length rates <= i + k)%nat ->
    (step_year <= year)%Z ->
    DegradationModel.step_loop year rates i years factor = Err IndexError.
Proof.
  induction years as [|y ys IH]; intros i k factor sy Hk Hlen Hle.
  - destruct k; discriminate.
  - simpl. destruct k as [|k]; simpl in Hk.
    + injection Hk as ->.
      replace (year >=? sy)%Z with true by (symmetry; apply Z.geb_le; lia).
      replace (nth_error rates i) with (@None Q); [reflexivity|].
      symmetry. apply nth_error_None. lia.
    + destruct (year >=? y)%Z.
      * destruct (nth_error rates i) as [rate|]; [|reflexivity].
        apply (IH (S i) k _ sy Hk); [lia | exact Hle].
      * apply (IH (S i) k _ sy Hk); [lia | exact Hle].
Qed.

Lemma performance_factor_succeeds (m : DegradationModel.t) (year : Z) :
  (0 <= year)%Z ->
  (DegradationModel.degradation_type m = "step" ->
   (length (DegradationModel.step_years m)
    <= length (DegradationModel.step_rates m))%nat) ->
  succeeds (DegradationModel.performance_factor m year).
Proof.
  intros Hy Hstep. unfold DegradationModel.performance_factor.
  destruct (String.eqb _ "linear"); [eexists; reflexivity|].
  destruct (String.eqb _ "exponential").
  { rewrite pow_nonneg by exact Hy. eexists; reflexivity. }
  destruct (String.eqb _ "step") eqn:E; [|eexists; reflexivity].
  apply String.eqb_eq in E. apply step_loop_succeeds. simpl. auto.
Qed.

(** ** The LCOE calculator: when it returns, and what it returns over no years *)

Lemma lcoe_no_years (i : LCOEInputs.t) (n : Z) :
  LCOEInputs.system_lifetime_years i = PyInt n ->
  (n <= 0)%Z ->
  ~ LCOEInputs.system_size_kw i == 0 ->
  exists r, LCOECalculator.calculate i = OK r /\ lcoe_all_zero r.
Proof.
  intros Hlife Hn Hsize.
  assert (Hdiv : ~ LCOEInputs.system_size_kw i * (876 # 100) == 0).
  { intros H. apply Qmult_integral in H. destruct H as [H|H]; [auto | discriminate H]. }
  unfold LCOECalculator.calculate.
  unfold LCOECalculator._calculate_lifetime_energy,
    LCOECalculator._calculate_opex_npv, LCOECalculator._calculate_fuel_npv,
    LCOECalculator._calculate_financing_cost.
  rewrite Hlife. simpl py_range. rewrite !npv_series_nonpos by exact Hn.
  rewrite range_nonpos by exact Hn. simpl.
  destruct (Qle_bool (LCOEInputs.fuel_cost_per_mwh i) 0); simpl;
    rewrite (div_nonzero _ _ Hdiv); simpl;
    (eexists; split; [reflexivity|]);
    unfold lcoe_all_zero; simpl; repeat split; reflexivity.
Qed.

Lemma lcoe_lifetime_energy_succeeds (i : LCOEInputs.t) (annual : Q) :
  well_formed_lcoe i ->
  succeeds (LCOECalculator._calculate_lifetime_energy i annual).
Proof.
  intros ([n Hn] & _ & Hd & Hstep).
  unfold LCOECalculator._calculate_lifetime_energy. rewrite Hn. simpl.
  apply sum_loop_succeeds. intros y Hy. apply range_nonneg in Hy.
  destruct (performance_factor_succeeds (LCOEInputs.degradation i) y) as [f Hf];
    [lia | exact Hstep |].
  rewrite Hf. simpl. rewrite pow_nonneg by lia. simpl.
  rewrite div_nonzero; [eexists; reflexivity|]. now apply Qpower_not_0.
Qed.

Lemma lcoe_stages_succeed (i : LCOEInputs.t) :
  (exists n, LCOEInputs.system_lifetime_years i = PyInt n) ->
  ~ 1 + FinancingParameters.effective_discount_rate (LCOEInputs.financing i) == 0 ->
  succeeds (LCOECalculator._calculate_opex_npv i)
  /\ (forall annual, succeeds (LCOECalculator._calculate_fuel_npv i annual))
  /\ (forall capex, succeeds (LCOECalculator._calculate_financing_cost i capex)).
Proof.
  intros [n Hn] Hd.
  unfold LCOECalculator._calculate_opex_npv, LCOECalculator._calculate_fuel_npv,
    LCOECalculator._calculate_financing_cost.
  rewrite Hn. repeat split; intros.
  - now apply npv_series_succeeds.
  - destruct (Qle_bool _ 0); [eexists; reflexivity | now apply npv_series_succeeds].
  - now apply npv_series_succeeds.
Qed.

Lemma lcoe_calculate_succeeds (i : LCOEInputs.t) :
  well_formed_lcoe i -> succeeds (LCOECalculator.calculate i).
Proof.
  intros W.
  destruct (lcoe_lifetime_energy_succeeds i (LCOECalculator._calculate_annual_energy i) W)
    as [energy He].
  destruct W as (Hn & Hsize & Hd & Hstep).
  destruct (lcoe_stages_succeed i Hn Hd) as ([opex Ho] & Hf & Hfi).
  destruct (Hf (LCOECalculator._calculate_annual_energy i)) as [fuel Hfuel].
  destruct (Hfi (LCOECalculator._calculate_total_capex i)) as [fin Hfin].
  unfold LCOECalculator.calculate. rewrite He, Ho, Hfuel, Hfin. simpl.
  rewrite div_nonzero; [eexists; reflexivity|].
  intros H. apply Qmult_integral in H. destruct H as [H|H]; [auto | discriminate H].
Qed.

(** ** C2: the contract of [LCOECalculator.calculate] *)

(** C2, as the code has it. On a well-formed input (integer lifetime, non-zero
    size, discount factor [1 + r] not zero, a rate for every step year)
    [calculate] raises nothing and returns a result. A negative lifetime is
    not refused: for every input with [system_lifetime_years < 0] and a
    non-zero size the loops run over no year and [calculate] returns a
    result whose levelized cost and four components are 0.

    The first half is a statement of exact arithmetic, floats being
    idealised as rationals.  In binary floating point a power
    [(1 + rate) ** year] that leaves the float range makes Python raise
    [OverflowError] (a lifetime of 12000 at the default rates), and one that
    underflows to 0.0 makes the division by it raise [ZeroDivisionError];
    neither is modelled.  The second half involves no power and no
    rounding: it holds of the float program as it stands. *)
Theorem lcoe_calculate_returns_also_for_negative_lifetime :
  (forall i : LCOEInputs.t,
      well_formed_lcoe i -> succeeds (LCOECalculator.calculate i))
  /\ (forall (i : LCOEInputs.t) (n : Z),
      LCOEInputs.system_lifetime_years i = PyInt n ->
      (n < 0)%Z ->
      ~ LCOEInputs.system_size_kw i == 0 ->
      exists r, LCOECalculator.calculate i = OK r /\ lcoe_all_zero r).
Proof.
  split.
  - apply lcoe_calculate_succeeds.
  - intros i n Hlife Hn Hsize. apply (lcoe_no_years i n Hlife); [lia | exact Hsize].
Qed.

Lemma default_lcoe_well_formed : well_formed_lcoe LCOEInputs.default.
Proof.
  unfold well_formed_lcoe. simpl. repeat split.
  - now exists 25%Z.
  - intros H. vm_compute in H. discriminate H.
  - intros H. vm_compute in H. discriminate H.
  - intros H. discriminate H.
Qed.

Lemma lcoe_calculate_negative_lifetime_witness :
  succeeds (LCOECalculator.calculate LCOEInputs.default)
  /\ exists r, LCOECalculator.calculate Examples.lcoe_negative_years = OK r
               /\ lcoe_all_zero r.
Proof.
  split.
  - apply (proj1 lcoe_calculate_returns_also_for_negative_lifetime).
    exact default_lcoe_well_formed.
  - apply (proj2 lcoe_calculate_returns_also_for_negative_lifetime
             Examples.lcoe_negative_years (-1)%Z).
    + reflexivity.
    + lia.
    + intros H. vm_compute in H. discriminate H.
Defined.

(** The claim as written fails at [LCOEInputs(system_lifetime_years=-1)]:
    the lifetime is negative and [calculate] does not fail. *)
Lemma negative_lifetime_is_not_refused :
  LCOEInputs.system_lifetime_years Examples.lcoe_negative_years = PyInt (-1)
  /\ ~ raises (LCOECalculator.calculate Examples.lcoe_negative_years).
Proof.
  split; [reflexivity|].
  assert (E : Examples.check
                (LCOECalculator.calculate Examples.lcoe_negative_years)
                (fun _ => true) = true) by (vm_compute; reflexivity).
  destruct (check_true _ _ E) as [r [Hr _]].
  intros [e H]. rewrite Hr in H. discriminate H.
Qed.

(** ** C3: a lifetime of zero years *)

(** C3. For every input with [system_size_kw > 0] and
    [system_lifetime_years = 0], [calculate] returns a result with
    [lcoe_usd_per_mwh = 0], [lcoe_usd_per_kwh = 0] and the four components
    equal to 0: the division by the zero lifetime energy is guarded. *)
Theorem lcoe_zero_lifetime_gives_zero_cost (i : LCOEInputs.t) :
  0 < LCOEInputs.system_size_kw i ->
  LCOEInputs.system_lifetime_years i = PyInt 0 ->
  exists r, LCOECalculator.calculate i = OK r
    /\ LCOEResult.lcoe_usd_per_mwh r == 0
    /\ LCOEResult.lcoe_usd_per_kwh r == 0
    /\ LCOEResult.capex_component r == 0
    /\ LCOEResult.opex_component r == 0
    /\ LCOEResult.fuel_component r == 0
    /\ LCOEResult.financing_component r == 0.
Proof.
  intros Hsize Hlife.
  destruct (lcoe_no_years i 0 Hlife) as [r [Hr Hz]]; [lia | |].
  - intros H. rewrite H in Hsize. exact (Qlt_irrefl 0 Hsize).
  - exists r. split; [exact Hr | exact Hz].
Qed.

Lemma lcoe_zero_lifetime_witness :
  exists r, LCOECalculator.calculate Examples.lcoe_zero_years = OK r
    /\ LCOEResult.lcoe_usd_per_mwh r == 0
    /\ LCOEResult.lcoe_usd_per_kwh r == 0
    /\ LCOEResult.capex_component r == 0
    /\ LCOEResult.opex_component r == 0
    /\ LCOEResult.fuel_component r == 0
    /\ LCOEResult.financing_component r == 0.
Proof.
  apply (lcoe_zero_lifetime_gives_zero_cost Examples.lcoe_zero_years).
  - reflexivity.
  - reflexivity.
Defined.

(** ** C10: a system of size zero *)

Lemma lcoe_size_zero_divisor (i : LCOEInputs.t) :
  LCOEInputs.system_size_kw i == 0 ->
  Float.div (LCOECalculator._calculate_annual_energy i)
    (LCOEInputs.system_size_kw i * (876 # 100)) = Err ZeroDivisionError.
Proof. intros H. apply div_zero. rewrite H. reflexivity. Qed.




(** ** C9: the step variant needs a rate for every trigger year *)

(** C9. Let the model be of the step variant. If [step_rates] is shorter than
    [step_years], then [performance_factor] raises [IndexError] at every year
    that has reached a trigger year whose index has no rate, and such a year
    exists. If [step_rates] is at least as long as [step_years], then
    [performance_factor] returns a factor at every year. *)
Theorem step_performance_factor_partial (m : DegradationModel.t) :
  DegradationModel.degradation_type m = "step" ->
  ((length (DegradationModel.step_rates m)
    < length (DegradationModel.step_years m))%nat ->
   (forall (k : nat) (step_year year : Z),
       (length (DegradationModel.step_rates m) <= k)%nat ->
       nth_error (DegradationModel.step_years m) k = Some step_year ->
       (step_year <= year)%Z ->
       DegradationModel.performance_factor m year = Err IndexError)
   /\ exists year, DegradationModel.performance_factor m year = Err IndexError)
  /\ ((length (DegradationModel.step_years m)
       <= length (DegradationModel.step_rates m))%nat ->
      forall year, succeeds (DegradationModel.performance_factor m year)).
Proof.
  intros Hstep.
  assert (Hpf : forall year,
    DegradationModel.performance_factor m year =
    DegradationModel.step_loop year (DegradationModel.step_rates m) 0
      (DegradationModel.step_years m) 1).
  { intros year. unfold DegradationModel.performance_factor.
    rewrite Hstep. reflexivity. }
  assert (Hraise : forall (k : nat) (step_year year : Z),
    (length (DegradationModel.step_rates m) <= k)%nat ->
    nth_error (DegradationModel.step_years m) k = Some step_year ->
    (step_year <= year)%Z ->
    DegradationModel.performance_factor m year = Err IndexError).
  { intros k sy year Hk Hnth Hle. rewrite Hpf.
    apply (step_loop_raises year _ _ 0%nat k 1 sy Hnth); [lia | exact Hle]. }
  split.
  - intros Hshort. split; [exact Hraise|].
    destruct (nth_error (DegradationModel.step_years m)
                (length (DegradationModel.step_rates m))) as [sy|] eqn:E.
    + exists sy. apply (Hraise _ sy sy (Nat.le_refl _) E). lia.
    + apply nth_error_None in E. lia.
  - intros Hlong year. rewrite Hpf. apply step_loop_succeeds. simpl. exact Hlong.
Qed.

Lemma step_performance_factor_witness :
  (forall year, (0 <= year)%Z ->
      DegradationModel.performance_factor Examples.step_without_rates year
      = Err IndexError)
  /\ exists year,
      DegradationModel.performance_factor Examples.step_without_rates year
      = Err IndexError.
Proof.
  assert (Hstep :
    DegradationModel.degradation_type Examples.step_without_rates = "step")
    by reflexivity.
  assert (Hshort :
    (length (DegradationModel.step_rates Examples.step_without_rates)
     < length (DegradationModel.step_years Examples.step_without_rates))%nat)
    by (simpl; lia).
  destruct (proj1 (step_performance_factor_partial Examples.step_without_rates Hstep)
              Hshort) as [Hall Hex].
  split; [|exact Hex].
  intros year Hy. apply (Hall 0%nat 0%Z year); [simpl; lia | reflexivity | exact Hy].
Defined.

(** ** C6: degradation never increases the performance factor *)

Lemma linear_performance_factor (m : DegradationModel.t) (year : Z) :
  DegradationModel.degradation_type m = "linear" ->
  DegradationModel.performance_factor m year
  = OK (Qmax 0 (1 - inject_Z year * DegradationModel.annual_degradation_rate m)).
Proof.
  intros H. unfold DegradationModel.performance_factor. now rewrite H.
Qed.

Lemma exponential_performance_factor (m : DegradationModel.t) (year : Z) :
  DegradationModel.degradation_type m = "exponential" ->
  (0 <= year)%Z ->
  DegradationModel.performance_factor m year
  = OK ((1 - DegradationModel.annual_degradation_rate m) ^ year).
Proof.
  intros H Hy. unfold DegradationModel.performance_factor. rewrite H. simpl.
  now apply pow_nonneg.
Qed.

(** C6, as the code has it. For a linear model with
    [annual_degradation_rate > 0], and for an exponential model with
    [0 < annual_degradation_rate <= 1], the performance factor of year
    [year + 1] is at most that of year [year], for every [year >= 0]. *)
Theorem degradation_monotone (m : DegradationModel.t) (year : Z) :
  (0 <= year)%Z ->
  0 < DegradationModel.annual_degradation_rate m ->
  DegradationModel.degradation_type m = "linear"
  \/ (DegradationModel.degradation_type m = "exponential"
      /\ DegradationModel.annual_degradation_rate m <= 1) ->
  exists next this,
    DegradationModel.performance_factor m (year + 1) = OK next
    /\ DegradationModel.performance_factor m year = OK this
    /\ next <= this.
Proof.
  intros Hy Hrate [Hlin | [Hexp Hle]].
  - rewrite !linear_performance_factor by exact Hlin.
    eexists. eexists. split; [reflexivity|]. split; [reflexivity|].
    apply Q.max_le_compat_l.
    rewrite inject_Z_plus. simpl inject_Z at 2.
    set (r := DegradationModel.annual_degradation_rate m) in *.
    apply Qle_minus_iff. ring_simplify. apply Qlt_le_weak. exact Hrate.
  - rewrite !exponential_performance_factor by (try exact Hexp; lia).
    eexists. eexists. split; [reflexivity|]. split; [reflexivity|].
    set (b := 1 - DegradationModel.annual_degradation_rate m).
    assert (Hb0 : 0 <= b).
    { unfold b. apply Qle_minus_iff in Hle. exact Hle. }
    assert (Hb1 : b <= 1).
    { unfold b. apply Qle_minus_iff. ring_simplify. apply Qlt_le_weak. exact Hrate. }
    rewrite Qpower_plus' by lia. simpl (b ^ 1).
    assert (Hp : 0 <= b ^ year) by (apply Qpower_0_le; exact Hb0).
    apply Qle_trans with (b ^ year * 1).
    + apply Qmult_le_compat_nonneg.
      * split; [exact Hp | apply Qle_refl].
      * split; [exact Hb0 | exact Hb1].
    + rewrite Qmult_1_r. apply Qle_refl.
Qed.

Lemma degradation_monotone_witness :
  exists next this,
    DegradationModel.performance_factor DegradationModel.default (3 + 1) = OK next
    /\ DegradationModel.performance_factor DegradationModel.default 3 = OK this
    /\ next <= this.
Proof.
  apply (degradation_monotone DegradationModel.default 3).
  - lia.
  - reflexivity.
  - left. reflexivity.
Defined.

(** The claim as written fails for an exponential model with a rate of 200%:
    the factor is [-1] in year 1 and [1] in year 2. *)
Lemma exponential_rate_above_one_not_monotone :
  0 < DegradationModel.annual_degradation_rate Examples.exponential_200_percent
  /\ DegradationModel.degradation_type Examples.exponential_200_percent
     = "exponential"
  /\ exists next this,
      DegradationModel.performance_factor Examples.exponential_200_percent (1 + 1)
      = OK next
      /\ DegradationModel.performance_factor Examples.exponential_200_percent 1
         = OK this
      /\ ~ next <= this.
Proof.
  split; [reflexivity|]. split; [reflexivity|].
  eexists. eexists. split; [reflexivity|]. split; [reflexivity|].
  intros H. vm_compute in H. apply H. reflexivity.
Qed.

(** ** The LCOS calculator: lifetime metrics *)

Lemma actual_lifetime_OK (i : LCOSInputs.t) (L : Q) :
  LCOSCalculator.actual_lifetime i = OK L ->
  ~ LCOSInputs.cycles_per_year i == 0
  /\ L = Qmin (pynum_value (LCOSInputs.cycle_life i) / LCOSInputs.cycles_per_year i)
              (pynum_value (LCOSInputs.calendar_life_years i)).
Proof.
  unfold LCOSCalculator.actual_lifetime, LCOSCalculator.cycle_limited_years.
  intros H. bind_inv H. apply div_OK in Ha. destruct Ha as [Hnz ->].
  injection H as <-. split; [exact Hnz | reflexivity].
Qed.

(** C4, as the code has it. Whenever [calculate] returns, the reported
    metrics are computed at the effective lifetime itself,
    [L = min(cycle_life / cycles_per_year, calendar_life_years)], not at its
    floor: [effective_cycles = L * cycles_per_year],
    [end_of_life_capacity = max(0.5, 1 - L * capacity_fade_per_year)] and
    [average_efficiency] is the mean of [round_trip_efficiency] and
    [max(0.7, round_trip_efficiency - L * cycles_per_year * efficiency_fade_per_cycle)]. *)
Theorem lcos_metrics_at_unfloored_lifetime (i : LCOSInputs.t) (r : LCOSResult.t) :
  LCOSCalculator.calculate i = OK r ->
  ~ LCOSInputs.cycles_per_year i == 0
  /\ let L := Qmin (pynum_value (LCOSInputs.cycle_life i)
                    / LCOSInputs.cycles_per_year i)
                   (pynum_value (LCOSInputs.calendar_life_years i)) in
     LCOSResult.effective_cycles r == L * LCOSInputs.cycles_per_year i
     /\ LCOSResult.end_of_life_capacity r
        == Qmax (5 # 10) (1 - L * LCOSInputs.capacity_fade_per_year i)
     /\ LCOSResult.average_efficiency r
        == (LCOSInputs.round_trip_efficiency i
            + Qmax (7 # 10)
                (LCOSInputs.round_trip_efficiency i
                 - L * LCOSInputs.cycles_per_year i
                   * LCOSInputs.efficiency_fade_per_cycle i)) / 2.
Proof.
  intros H.
  destruct (lcos_calculate_inv i r H)
    as (thr & opex & repl & fin & _ & _ & _ & _ & Hc & He & Ha & _).
  unfold LCOSCalculator._calculate_effective_cycles in Hc.
  unfold LCOSCalculator._calculate_end_of_life_capacity in He.
  unfold LCOSCalculator._calculate_average_efficiency in Ha.
  bind_inv Hc. bind_inv He. bind_inv Ha.
  apply actual_lifetime_OK in Ha0, Ha1, Ha2.
  destruct Ha0 as [Hnz ->], Ha1 as [_ ->], Ha2 as [_ ->].
  injection Hc as <-. injection He as <-. injection Ha as <-.
  split; [exact Hnz|]. cbv zeta. repeat split; reflexivity.
Qed.

Lemma lcos_metrics_witness :
  exists r, LCOSCalculator.calculate Examples.lcos_cycle_limited = OK r
    /\ LCOSResult.effective_cycles r == 1000.
Proof.
  destruct (check_true _ _ (proj2 examples_return)) as [r [E _]].
  exists r. split; [exact E|].
  destruct (lcos_metrics_at_unfloored_lifetime _ r E) as [_ [Hc _]].
  rewrite Hc. reflexivity.
Defined.

(** The reported metrics of [LCOSInputs()], whose effective lifetime is
    4000/365 years with floor 10, against the floored formulas. *)
Lemma default_lcos_metrics :
  Examples.check (LCOSCalculator.calculate LCOSInputs.default)
    (fun r =>
       Qeq_bool (LCOSResult.effective_cycles r) 4000
       && negb (Qeq_bool (LCOSResult.effective_cycles r) (inject_Z 10 * 365))
       && negb (Qeq_bool (LCOSResult.end_of_life_capacity r)
                  (Qmax (5 # 10) (1 - inject_Z 10 * (2 # 100))))
       && negb (Qeq_bool (LCOSResult.average_efficiency r)
                  (((90 # 100)
                    + Qmax (7 # 10)
                        ((90 # 100) - inject_Z 10 * 365 * (1 # 100000))) / 2))
       && positive (LCOSResult.total_throughput_mwh r))
  = true.
Proof. vm_compute. reflexivity. Qed.

(** The claim as written fails at the default [LCOSInputs()]
    ([cycle_life=4000], [cycles_per_year=365], [calendar_life_years=15]):
    the effective lifetime is 4000/365 years, its floor is 10, and none of
    the three metrics is the floored one; [effective_cycles] is 4000, not
    3650. *)
Lemma lcos_metrics_are_not_floored :
  exists r L,
    LCOSCalculator.calculate LCOSInputs.default = OK r
    /\ LCOSCalculator.actual_lifetime LCOSInputs.default = OK L
    /\ Float.floor L = 10%Z
    /\ ~ LCOSResult.effective_cycles r
         == inject_Z (Float.floor L) * LCOSInputs.cycles_per_year LCOSInputs.default
    /\ ~ LCOSResult.end_of_life_capacity r
         == Qmax (5 # 10)
              (1 - inject_Z (Float.floor L)
                   * LCOSInputs.capacity_fade_per_year LCOSInputs.default)
    /\ ~ LCOSResult.average_efficiency r
         == (LCOSInputs.round_trip_efficiency LCOSInputs.default
             + Qmax (7 # 10)
                 (LCOSInputs.round_trip_efficiency LCOSInputs.default
                  - inject_Z (Float.floor L)
                    * LCOSInputs.cycles_per_year LCOSInputs.default
                    * LCOSInputs.efficiency_fade_per_cycle LCOSInputs.default)) / 2.
Proof.
  destruct (check_true _ _ default_lcos_metrics) as [r [E H]].
  apply andb_true_iff in H. destruct H as [H _].
  apply andb_true_iff in H. destruct H as [H Havg].
  apply andb_true_iff in H. destruct H as [H Heol].
  apply andb_true_iff in H. destruct H as [_ Hcyc].
  apply negb_true_iff, Qeq_bool_false in Hcyc, Heol, Havg.
  exists r. eexists. split; [exact E|]. split; [vm_compute; reflexivity|].
  split; [reflexivity|].
  repeat split; assumption.
Qed.

(** ** The LCOS calculator: replacement cost *)

(** On a non-negative float, [int()] is the floor. *)
Lemma to_int_floor_nonneg (x : Q) : 0 <= x -> Float.to_int x = Float.floor x.
Proof.
  intros H. unfold Float.to_int, Float.floor, Qfloor. destruct x as [n d].
  unfold Qle in H. simpl in *. apply Z.quot_div_nonneg; lia.
Qed.

Lemma replacement_cost_OK (i : LCOSInputs.t) (v : Q) :
  LCOSCalculator._calculate_replacement_cost i = OK v ->
  ~ LCOSInputs.cycles_per_year i == 0
  /\ let c := pynum_value (LCOSInputs.cycle_life i) / LCOSInputs.cycles_per_year i in
     let d := (1 + FinancingParameters.effective_discount_rate (LCOSInputs.financing i))
              ^ Float.to_int c in
     (c < pynum_value (LCOSInputs.calendar_life_years i) ->
      ~ d == 0
      /\ v = LCOSInputs.capex_per_kwh i * LCOSInputs.system_size_kwh i * (7 # 10) / d)
     /\ (~ c < pynum_value (LCOSInputs.calendar_life_years i) -> v = 0).
Proof.
  unfold LCOSCalculator._calculate_replacement_cost, LCOSCalculator.cycle_limited_years.
  intros H. bind_inv H. apply div_OK in Ha. destruct Ha as [Hnz ->].
  split; [exact Hnz|]. cbv zeta.
  destruct (Qlt_bool _ _) eqn:E.
  - bind_inv H. split.
    + intros _. unfold Float.pow in Ha.
      destruct (_ && _); [discriminate Ha|]. injection Ha as <-.
      apply div_OK in H. exact H.
    + intros Hn. apply Qlt_bool_iff in E. contradiction.
  - injection H as <-. split.
    + intros Hlt. apply Qlt_bool_iff in Hlt. congruence.
    + reflexivity.
Qed.

Lemma Qpower_even_pos (x : Q) (n : Z) : ~ x ^ (n * 2) == 0 -> 0 < x ^ (n * 2).
Proof.
  intros H. rewrite Qpower_mult in *.
  destruct (Qle_lt_or_eq _ _ (Qsqr_nonneg (x ^ n))) as [Hlt | Heq].
  - exact Hlt.
  - exfalso. apply H. symmetry. exact Heq.
Qed.

(** C5, as the code has it. Whenever [_calculate_replacement_cost] returns
    (it raises when [cycles_per_year] is zero): if
    [cycle_life / cycles_per_year < calendar_life_years] the value is
    [capex_per_kwh * system_size_kwh * 0.7] divided by
    [(1 + effective_discount_rate) ** int(cycle_life / cycles_per_year)],
    one replacement, and otherwise it is 0. [int] truncates toward zero and
    is the floor whenever the cycle-limited life is not negative. In
    particular, with [cycle_life = 4000], [cycles_per_year = 365],
    [calendar_life_years = 15], positive [capex_per_kwh] and
    [system_size_kwh] and positive throughput, [replacement_component > 0]. *)
Theorem lcos_replacement_cost :
  (forall (i : LCOSInputs.t) (v : Q),
      LCOSCalculator._calculate_replacement_cost i = OK v ->
      let c := pynum_value (LCOSInputs.cycle_life i) / LCOSInputs.cycles_per_year i in
      (c < pynum_value (LCOSInputs.calendar_life_years i) ->
       v == LCOSInputs.capex_per_kwh i * LCOSInputs.system_size_kwh i * (7 # 10)
            / (1 + FinancingParameters.effective_discount_rate (LCOSInputs.financing i))
              ^ Float.to_int c)
      /\ (~ c < pynum_value (LCOSInputs.calendar_life_years i) -> v == 0)
      /\ (0 <= c -> Float.to_int c = Float.floor c))
  /\ (forall (i : LCOSInputs.t) (r : LCOSResult.t),
      LCOSInputs.cycle_life i = PyInt 4000 ->
      LCOSInputs.cycles_per_year i = 365 ->
      LCOSInputs.calendar_life_years i = PyInt 15 ->
      0 < LCOSInputs.capex_per_kwh i ->
      0 < LCOSInputs.system_size_kwh i ->
      LCOSCalculator.calculate i = OK r ->
      0 < LCOSResult.total_throughput_mwh r ->
      0 < LCOSResult.replacement_component r).
Proof.
  split.
  - intros i v H. destruct (replacement_cost_OK i v H) as [_ [Hlt Hge]]. cbv zeta.
    split; [|split].
    + intros Hc. destruct (Hlt Hc) as [_ ->]. reflexivity.
    + intros Hc. rewrite (Hge Hc). reflexivity.
    + apply to_int_floor_nonneg.
  - intros i r Hlife Hcyc Hcal Hcapex Hsize H Hthr.
    destruct (lcos_calculate_inv i r H)
      as (thr & opex & repl & fin & _ & _ & Hrepl & _ & _ & _ & _
          & He & _ & _ & _ & Hr & _).
    destruct (replacement_cost_OK i repl Hrepl) as [_ [Hlt _]].
    rewrite Hlife, Hcyc, Hcal in Hlt. simpl pynum_value in Hlt.
    destruct Hlt as [Hd Hv]; [reflexivity|].
    change (Float.to_int (inject_Z 4000 / 365)) with (5 * 2)%Z in Hd, Hv.
    apply Qpower_even_pos in Hd.
    rewrite Hr. rewrite He in Hthr. unfold levelized.
    replace (positive thr) with true by (symmetry; apply positive_iff; exact Hthr).
    apply Qlt_shift_div_l; [exact Hthr|]. rewrite Qmult_0_l. rewrite Hv.
    apply Qlt_shift_div_l; [exact Hd|]. rewrite Qmult_0_l.
    apply Qmult_lt_0_compat; [|reflexivity].
    apply Qmult_lt_0_compat; assumption.
Qed.

Lemma replacement_example_returns :
  Examples.check
    (LCOSCalculator._calculate_replacement_cost Examples.lcos_cycle_limited)
    (fun _ => true) = true.
Proof. vm_compute. reflexivity. Qed.

Lemma lcos_replacement_cost_witness :
  (exists v, LCOSCalculator._calculate_replacement_cost Examples.lcos_cycle_limited
             = OK v
     /\ v == 400 * 100 * (7 # 10) / (1 + (7 # 100) * (1 - (21 # 100) * (6 # 10))) ^ 2)
  /\ (exists r, LCOSCalculator.calculate LCOSInputs.default = OK r
        /\ 0 < LCOSResult.replacement_component r).
Proof.
  split.
  - destruct (check_true _ _ replacement_example_returns) as [v [E _]].
    exists v. split; [exact E|].
    apply (proj1 (proj1 lcos_replacement_cost Examples.lcos_cycle_limited v E)).
    reflexivity.
  - destruct (check_true _ _ default_lcos_metrics) as [r [E H]].
    apply andb_true_iff in H. destruct H as [_ H]. apply positive_iff in H.
    exists r. split; [exact E|].
    apply (proj2 lcos_replacement_cost LCOSInputs.default r).
    + reflexivity.
    + reflexivity.
    + reflexivity.
    + reflexivity.
    + reflexivity.
    + exact E.
    + exact H.
Defined.

(** The claim as written fails at two inputs. With [cycles_per_year = 0] no
    value is computed: the division raises. With [cycle_life = -1] and
    [cycles_per_year = 2] the cycle-limited life is [-0.5], [int] gives year
    0 and the cost is not discounted, while the floor is [-1]. *)
Lemma replacement_cost_not_at_floor :
  LCOSCalculator._calculate_replacement_cost Examples.lcos_no_cycles
  = Err ZeroDivisionError
  /\ exists v c,
      LCOSCalculator._calculate_replacement_cost Examples.lcos_negative_cycle_life
      = OK v
      /\ LCOSCalculator.cycle_limited_years Examples.lcos_negative_cycle_life = OK c
      /\ c < pynum_value (LCOSInputs.calendar_life_years
                            Examples.lcos_negative_cycle_life)
      /\ Float.floor c = (-1)%Z
      /\ ~ v == LCOSInputs.capex_per_kwh Examples.lcos_negative_cycle_life
               * LCOSInputs.system_size_kwh Examples.lcos_negative_cycle_life
               * (7 # 10)
               / (1 + FinancingParameters.effective_discount_rate
                        (LCOSInputs.financing Examples.lcos_negative_cycle_life))
                 ^ Float.floor c.
Proof.
  split; [vm_compute; reflexivity|].
  eexists. eexists.
  split; [vm_compute; reflexivity|].
  split; [vm_compute; reflexivity|].
  split; [reflexivity|]. split; [reflexivity|].
  apply Qeq_bool_false. vm_compute. reflexivity.
Qed.

(** ** The frame property of the heap operations *)

Section FrameRules.
Import Heap Frame.
Local Open Scope heap_scope.
Local Open Scope nat_scope.

Variable h0 : heap.
Local Abbreviation n := (length h0).

Lemma shared_old (l : loc) : shared h0 l -> l < n.
Proof. intros (cls & attrs & Hl & _). now apply lookup_lt_Some in Hl. Qed.

Lemma shared_dec (l : loc) : shared h0 l \/ ~ shared h0 l.
Proof.
  unfold shared. destruct (h0 !! l) as [[cls attrs|items|entries]|] eqn:E.
  - destruct (is_enum_class cls) eqn:C.
    + left. now exists cls, attrs.
    + right. intros (c & a & [= <- <-] & H). congruence.
  - right. intros (c & a & H & _). discriminate H.
  - right. intros (c & a & H & _). discriminate H.
  - right. intros (c & a & H & _). discriminate H.
Qed.

Lemma atom_ok (v : val) : atom v -> val_ok h0 v.
Proof. destruct v; simpl; tauto. Qed.

Lemma atomic_ok (attrs : list (string * val)) :
  atomic attrs -> Forall (fun kv => val_ok h0 (snd kv)) attrs.
Proof.
  unfold atomic. intros H. eapply Forall_impl; [exact H|].
  intros kv. apply atom_ok.
Qed.

Lemma inv_initial : members_atomic h0 -> inv h0 h0.
Proof.
  intros Hm. repeat split.
  - lia.
  - auto.
  - intros l cls attrs Hl Hc. exists attrs. split; [exact Hl|].
    exact (Hm l cls attrs Hl Hc).
  - intros l o Hl Hlook. apply lookup_lt_Some in Hlook. lia.
Qed.

Lemma inv_length (h : heap) : inv h0 h -> length h0 <= length h.
Proof. intros [Hlen _]. exact Hlen. Qed.

(** What the invariant says of the caller's objects. *)
Lemma inv_keeps (h : heap) : inv h0 h -> keeps_all_but_members h0 h.
Proof.
  intros (_ & Hold & Hmem & _) l o Hl.
  destruct (shared_dec l) as [(cls & attrs & Hl' & Hc)|Hns].
  - right. rewrite Hl in Hl'. injection Hl' as ->.
    destruct (Hmem l cls attrs Hl Hc) as (attrs' & Hl' & _).
    now exists cls, attrs, attrs'.
  - left. exact (Hold l o Hl Hns).
Qed.

(** An enum member that is found on the heap at a location of [h0] was a
    member in [h0]. *)
Lemma inv_member (h : heap) (l : loc) (cls : string)
    (attrs : list (string * val)) :
  inv h0 h -> h !! l = Some (Instance cls attrs) -> is_enum_class cls = true ->
  val_ok h0 (VRef l).
Proof.
  intros (_ & Hold & _ & _) Hl Hc. simpl.
  destruct (decide (n <= l)) as [Hge|Hlt]; [now left|]. right.
  destruct (shared_dec l) as [Hs|Hns]; [exact Hs|].
  destruct (h0 !! l) as [o|] eqn:E.
  - pose proof (Hold l o E Hns) as Hsame. rewrite Hl in Hsame.
    injection Hsame as <-. now exists cls, attrs.
  - apply lookup_ge_None in E. lia.
Qed.

(** The object behind a reference to write through. *)
Lemma inv_lookup_ok (h : heap) (l : loc) (o : obj) :
  inv h0 h -> val_ok h0 (VRef l) -> h !! l = Some o -> obj_ok h0 o.
Proof.
  intros (_ & _ & Hmem & Hc) [Hfresh|(cls & attrs & Hl0 & Hcls)] Hl.
  - exact (Hc l o Hfresh Hl).
  - destruct (Hmem l cls attrs Hl0 Hcls) as (attrs' & Hl' & Hat).
    rewrite Hl in Hl'. injection Hl' as ->. simpl. now apply atomic_ok.
Qed.

Lemma safe_ret {A : Type} (a : A) (post : A -> Prop) :
  post a -> safe h0 (ret a) post.
Proof. intros Hp h Hi. simpl. split; [exact Hi|]. now intros a' [= <-]. Qed.

Lemma safe_raise {A : Type} (e : exn) (post : A -> Prop) :
  safe h0 (raise e) post.
Proof. intros h Hi. simpl. split; [exact Hi|]. intros a H. discriminate H. Qed.

Lemma safe_lift {A : Type} (r : Result A) (post : A -> Prop) :
  (forall a, r = OK a -> post a) -> safe h0 (lift r) post.
Proof. intros Hp h Hi. simpl. split; [exact Hi | exact Hp]. Qed.

Lemma safe_weaken {A : Type} (m : M A) (P Q : A -> Prop) :
  safe h0 m P -> (forall a, P a -> Q a) -> safe h0 m Q.
Proof.
  intros Hm HPQ h Hi. destruct (Hm h Hi) as [Hi' Hp].
  split; [exact Hi' | auto].
Qed.

Lemma safe_bind {A B : Type} (m : M A) (k : A -> M B)
    (P : A -> Prop) (Q : B -> Prop) :
  safe h0 m P -> (forall a, P a -> safe h0 (k a) Q) -> safe h0 (bindM m k) Q.
Proof.
  intros Hm Hk h Hi. destruct (Hm h Hi) as [Hi' Hp]. unfold bindM.
  destruct (m h) as [[a|e] h']; simpl in *.
  - apply (Hk a (Hp a eq_refl) h' Hi').
  - split; [exact Hi'|]. intros b H. discriminate H.
Qed.

Lemma safe_try_except {A : Type} (m : M A) (handler : exn -> M A)
    (P : A -> Prop) :
  safe h0 m P -> (forall e, safe h0 (handler e) P) ->
  safe h0 (try_except m handler) P.
Proof.
  intros Hm Hh h Hi. destruct (Hm h Hi) as [Hi' Hp]. unfold try_except.
  destruct (m h) as [[a|e] h']; simpl in *.
  - split; [exact Hi' | exact Hp].
  - apply (Hh e h' Hi').
Qed.

Lemma safe_read_only {A : Type} (m : M A) :
  read_only m -> safe h0 m (fun _ => True).
Proof. intros Hr h Hi. rewrite Hr. split; [exact Hi | auto]. Qed.

(** An object that is loaded through a reference to write through refers
    to fresh objects and enum members only; and an enum member that is
    loaded was loaded through such a reference. *)
Lemma safe_load (l : loc) :
  safe h0 (load l)
    (fun o => (val_ok h0 (VRef l) -> obj_ok h0 o)
              /\ forall cls attrs,
                   o = Instance cls attrs -> is_enum_class cls = true ->
                   val_ok h0 (VRef l)).
Proof.
  intros h Hi. unfold load. destruct (h !! l) as [o|] eqn:E; simpl.
  - split; [exact Hi|]. intros a [= <-]. split.
    + intros Hl. exact (inv_lookup_ok h l o Hi Hl E).
    + intros cls attrs -> Hc. exact (inv_member h l cls attrs Hi E Hc).
  - split; [exact Hi|]. intros a H. discriminate H.
Qed.

Lemma safe_alloc (o : obj) :
  obj_ok h0 o -> safe h0 (alloc o) (fun l => n <= l).
Proof.
  intros Ho h Hi. pose proof (inv_length h Hi) as Hlen.
  destruct Hi as (_ & Hold & Hmem & Hc). unfold alloc. cbn [fst snd].
  split; [repeat split|].
  - rewrite length_app. lia.
  - intros l o' Hl Hns. apply lookup_app_l_Some. exact (Hold l o' Hl Hns).
  - intros l cls attrs Hl Hcls.
    destruct (Hmem l cls attrs Hl Hcls) as (attrs' & Hl' & Hat).
    exists attrs'. split; [|exact Hat]. now apply lookup_app_l_Some.
  - intros l o' Hl Hlook.
    destruct (decide (l < length h)) as [Hlt|Hge].
    + rewrite lookup_app_l in Hlook by exact Hlt. exact (Hc l o' Hl Hlook).
    + rewrite lookup_app_r in Hlook by lia.
      destruct (l - length h) as [|k]; simpl in Hlook; [|discriminate Hlook].
      injection Hlook as <-. exact Ho.
  - intros l [= <-]. exact Hlen.
Qed.

(** Writing a closed object to a fresh location. *)
Lemma inv_insert_fresh (h : heap) (l : loc) (o : obj) :
  n <= l -> obj_ok h0 o -> inv h0 h -> inv h0 (<[l := o]> h).
Proof.
  intros Hl Ho (Hlen & Hold & Hmem & Hc). repeat split.
  - rewrite length_insert. exact Hlen.
  - intros l' o' Hl' Hns.
    rewrite list_lookup_insert_ne; [exact (Hold l' o' Hl' Hns)|].
    apply lookup_lt_Some in Hl'. lia.
  - intros l' cls attrs Hl' Hcls.
    destruct (Hmem l' cls attrs Hl' Hcls) as (attrs' & Hl'' & Hat).
    exists attrs'. split; [|exact Hat].
    rewrite list_lookup_insert_ne; [exact Hl''|].
    apply lookup_lt_Some in Hl'. lia.
  - intros l' o' Hl' Hlook.
    destruct (decide (l = l')) as [<-|Hne].
    + destruct (decide (l < length h)) as [Hlt|Hge].
      * rewrite list_lookup_insert_eq in Hlook by exact Hlt.
        injection Hlook as <-. exact Ho.
      * rewrite list_insert_ge in Hlook by lia. exact (Hc l o' Hl' Hlook).
    + rewrite list_lookup_insert_ne in Hlook by exact Hne.
      exact (Hc l' o' Hl' Hlook).
Qed.

(** Writing atoms into an enum member of the caller: the one way in which
    an object of [h0] changes. *)
Lemma inv_insert_member (h : heap) (l : loc) (cls : string)
    (attrs attrs' : list (string * val)) :
  shared h0 l -> h !! l = Some (Instance cls attrs) -> atomic attrs' ->
  inv h0 h -> inv h0 (<[l := Instance cls attrs']> h).
Proof.
  intros Hs Hl Hat (Hlen & Hold & Hmem & Hc).
  pose proof (shared_old l Hs) as Hlt. repeat split.
  - rewrite length_insert. exact Hlen.
  - intros l' o' Hl' Hns.
    rewrite list_lookup_insert_ne; [exact (Hold l' o' Hl' Hns)|].
    intros <-. exact (Hns Hs).
  - intros l' cls0 attrs0 Hl' Hcls.
    destruct (Hmem l' cls0 attrs0 Hl' Hcls) as (attrs1 & Hl1 & Hat1).
    destruct (decide (l = l')) as [<-|Hne].
    + rewrite Hl in Hl1. injection Hl1 as -> ->.
      exists attrs'. split; [|exact Hat].
      apply list_lookup_insert_eq. lia.
    + exists attrs1. split; [|exact Hat1].
      rewrite list_lookup_insert_ne by exact Hne. exact Hl1.
  - intros l' o' Hl' Hlook.
    rewrite list_lookup_insert_ne in Hlook by lia.
    exact (Hc l' o' Hl' Hlook).
Qed.

Lemma safe_store (l : loc) (o : obj) :
  n <= l -> obj_ok h0 o -> safe h0 (store l o) (fun _ => True).
Proof.
  intros Hl Ho h Hi. unfold store. cbn [fst snd].
  split; [now apply inv_insert_fresh | auto].
Qed.

(** *** Attributes *)

Lemma assoc_get_ok (name : string) (attrs : list (string * val)) (x : val) :
  Forall (fun kv => val_ok h0 (snd kv)) attrs ->
  assoc_get name attrs = Some x -> val_ok h0 x.
Proof.
  induction attrs as [|[k v] rest IH]; simpl; intros Hf Hg; [discriminate Hg|].
  apply Forall_cons in Hf. destruct Hf as [Hv Hrest].
  destruct (String.eqb k name).
  - injection Hg as <-. exact Hv.
  - exact (IH Hrest Hg).
Qed.

Lemma assoc_set_ok (name : string) (x : val) (attrs : list (string * val)) :
  val_ok h0 x ->
  Forall (fun kv => val_ok h0 (snd kv)) attrs ->
  Forall (fun kv => val_ok h0 (snd kv)) (assoc_set name x attrs).
Proof.
  intros Hx. induction attrs as [|[k v] rest IH]; simpl; intros Hf.
  - apply Forall_cons. split; [exact Hx | apply Forall_nil; exact I].
  - apply Forall_cons in Hf. destruct Hf as [Hv Hrest].
    destruct (String.eqb k name); apply Forall_cons; split; auto.
Qed.

Lemma assoc_set_atomic (name : string) (x : val) (attrs : list (string * val)) :
  atom x -> atomic attrs -> atomic (assoc_set name x attrs).
Proof.
  unfold atomic. intros Hx. induction attrs as [|[k v] rest IH]; simpl; intros Hf.
  - apply Forall_cons. split; [exact Hx | apply Forall_nil; exact I].
  - apply Forall_cons in Hf. destruct Hf as [Hv Hrest].
    destruct (String.eqb k name); apply Forall_cons; split; auto.
Qed.

Lemma getattr_read_only (o : val) (name : string) : read_only (getattr o name).
Proof.
  intros h. destruct o as [| | | |l]; try reflexivity.
  unfold getattr, bindM, load. destruct (h !! l) as [ob|]; [|reflexivity].
  destruct ob as [cls attrs| |]; try reflexivity.
  destruct (assoc_get name attrs); reflexivity.
Qed.

Lemma safe_getattr (o : val) (name : string) :
  val_ok h0 o -> safe h0 (getattr o name) (val_ok h0).
Proof.
  intros Ho. destruct o as [| | | |l]; try apply safe_raise.
  unfold getattr.
  apply (safe_bind _ _ _ _ (safe_load l)). intros ob [Hob _].
  destruct ob as [cls attrs| |]; try apply safe_raise.
  destruct (assoc_get name attrs) as [x|] eqn:E; [|apply safe_raise].
  apply safe_ret. exact (assoc_get_ok name attrs x (Hob Ho) E).
Qed.

(** [setattr] with an atom, on a fresh object or on an enum member. *)
Lemma safe_setattr (o : val) (name : string) (x : val) :
  val_ok h0 o -> atom x -> safe h0 (setattr o name x) (fun _ => True).
Proof.
  intros Ho Hx. destruct o as [| | | |l]; try apply safe_raise.
  intros h Hi. unfold setattr, bindM, load.
  destruct (h !! l) as [ob|] eqn:E; [|split; [exact Hi | intros a H; discriminate H]].
  destruct ob as [cls attrs|items|entries];
    [|split; [exact Hi | intros a H; discriminate H] ..].
  unfold store. cbn [fst snd]. split; [|auto].
  destruct Ho as [Hfresh|Hs].
  - apply inv_insert_fresh; [exact Hfresh | | exact Hi]. simpl.
    apply assoc_set_ok; [now apply atom_ok|].
    exact (inv_lookup_ok h l _ Hi (or_introl Hfresh) E).
  - apply (inv_insert_member h l cls attrs); [exact Hs | exact E | | exact Hi].
    apply assoc_set_atomic; [exact Hx|].
    destruct Hs as (cls0 & attrs0 & Hl0 & Hcls).
    destruct Hi as (_ & _ & Hmem & _).
    destruct (Hmem l cls0 attrs0 Hl0 Hcls) as (attrs1 & Hl1 & Hat1).
    rewrite E in Hl1. injection Hl1 as -> ->. exact Hat1.
Qed.

End FrameRules.

(** ** The frame property of [copy.deepcopy] *)

Section DeepcopyFrame.
Import Heap Frame.
Local Open Scope heap_scope.
Local Open Scope nat_scope.

Variable h0 : heap.
Local Abbreviation n := (length h0).

Lemma memo_fresh_insert (memo : gmap nat nat) (l l' : nat) :
  memo_fresh n memo -> n <= l' -> memo_fresh n (<[l := l']> memo).
Proof. intros Hm Hl. apply map_Forall_insert_2; assumption. Qed.

Lemma safe_copy_items (copy : val -> gmap nat nat -> M (val * gmap nat nat)) :
  (forall x memo, memo_fresh n memo -> safe h0 (copy x memo) (copied h0)) ->
  forall items memo,
    memo_fresh n memo ->
    safe h0 (copy_items copy items memo)
      (fun r => Forall (val_ok h0) (fst r) /\ memo_fresh n (snd r)).
Proof.
  intros Hcopy. induction items as [|x rest IH]; intros memo Hm; simpl.
  - apply safe_ret. split; [apply Forall_nil; exact I | exact Hm].
  - apply (safe_bind _ _ _ _ _ (Hcopy x memo Hm)). intros r1 [Hy Hm1].
    apply (safe_bind _ _ _ _ _ (IH (snd r1) Hm1)). intros r2 [Hys Hm2].
    apply safe_ret. split; [|exact Hm2].
    apply Forall_cons. split; assumption.
Qed.

Lemma safe_copy_entries (copy : val -> gmap nat nat -> M (val * gmap nat nat)) :
  (forall x memo, memo_fresh n memo -> safe h0 (copy x memo) (copied h0)) ->
  forall entries memo,
    memo_fresh n memo ->
    safe h0 (copy_entries copy entries memo)
      (fun r => Forall (fun kv => val_ok h0 (snd kv)) (fst r)
                /\ memo_fresh n (snd r)).
Proof.
  intros Hcopy. induction entries as [|[k x] rest IH]; intros memo Hm; simpl.
  - apply safe_ret. split; [apply Forall_nil; exact I | exact Hm].
  - apply (safe_bind _ _ _ _ _ (Hcopy x memo Hm)). intros r1 [Hy Hm1].
    apply (safe_bind _ _ _ _ _ (IH (snd r1) Hm1)). intros r2 [Hys Hm2].
    apply safe_ret. split; [|exact Hm2].
    apply Forall_cons. split; assumption.
Qed.

Lemma safe_deepcopy_memo (fuel : nat) :
  forall x memo,
    memo_fresh n memo -> safe h0 (deepcopy_memo fuel x memo) (copied h0).
Proof.
  induction fuel as [|fuel IH]; intros x memo Hm;
    (destruct x as [| | | |l];
     [apply safe_ret; split; [exact I | exact Hm] .. |]);
    simpl; destruct (memo !! l) as [l'|] eqn:E;
    try (apply safe_ret; split; [left; exact (Hm l l' E) | exact Hm]).
  - apply safe_raise.
  - apply (safe_bind _ _ _ _ _ (safe_load h0 l)). intros ob [_ Hmember].
    destruct ob as [cls attrs|items|entries].
    + destruct (is_enum_class cls) eqn:Hcls.
      { apply safe_ret. split; [|exact Hm].
        exact (Hmember cls attrs eq_refl Hcls). }
      apply (safe_bind _ _ _ (fun l' => n <= l')).
      { apply safe_alloc. apply Forall_nil. exact I. }
      intros l' Hl'.
      apply (safe_bind _ _ _ _ _
               (safe_copy_entries _ IH attrs _ (memo_fresh_insert _ l l' Hm Hl'))).
      intros r [Hr Hm'].
      apply (safe_bind _ _ _ (fun _ => True)).
      { apply safe_store; assumption. }
      intros _ _. apply safe_ret. split; [left; exact Hl' | exact Hm'].
    + apply (safe_bind _ _ _ (fun l' => n <= l')).
      { apply safe_alloc. apply Forall_nil. exact I. }
      intros l' Hl'.
      apply (safe_bind _ _ _ _ _
               (safe_copy_items _ IH items _ (memo_fresh_insert _ l l' Hm Hl'))).
      intros r [Hr Hm'].
      apply (safe_bind _ _ _ (fun _ => True)).
      { apply safe_store; assumption. }
      intros _ _. apply safe_ret. split; [left; exact Hl' | exact Hm'].
    + apply (safe_bind _ _ _ (fun l' => n <= l')).
      { apply safe_alloc. apply Forall_nil. exact I. }
      intros l' Hl'.
      apply (safe_bind _ _ _ _ _
               (safe_copy_entries _ IH entries _ (memo_fresh_insert _ l l' Hm Hl'))).
      intros r [Hr Hm'].
      apply (safe_bind _ _ _ (fun _ => True)).
      { apply safe_store; assumption. }
      intros _ _. apply safe_ret. split; [left; exact Hl' | exact Hm'].
Qed.

(** The copy is a fresh object, an enum member or the atom itself. *)
Lemma safe_deepcopy (x : val) : safe h0 (deepcopy x) (val_ok h0).
Proof.
  unfold deepcopy.
  apply (safe_bind _ _ _ (copied h0)).
  - apply safe_deepcopy_memo. apply map_Forall_empty.
  - intros r [Hy _]. apply safe_ret. exact Hy.
Qed.

End DeepcopyFrame.

(** ** The frame property of the analyzers *)

Section ReadOnly.
Import Heap Frame.
Local Open Scope heap_scope.

Lemma read_only_ret {A : Type} (a : A) : read_only (ret a).
Proof. intros h. reflexivity. Qed.

Lemma read_only_raise {A : Type} (e : exn) : read_only (@raise A e).
Proof. intros h. reflexivity. Qed.

Lemma read_only_bind {A B : Type} (m : M A) (k : A -> M B) :
  read_only m -> (forall a, read_only (k a)) -> read_only (bindM m k).
Proof.
  intros Hm Hk h. unfold bindM. specialize (Hm h).
  destruct (m h) as [[a|e] h']; simpl in *; subst h'; [apply Hk | reflexivity].
Qed.

Lemma getattr_path_read_only (attrs : list string) :
  forall o, read_only (SensitivityAnalyzer.getattr_path o attrs).
Proof.
  induction attrs as [|a rest IH]; intros o; simpl.
  - apply read_only_ret.
  - apply read_only_bind; [apply getattr_read_only | exact IH].
Qed.

Lemma lcoe_calculate_read_only (inputs : val) :
  read_only (Instances.lcoe_calculate inputs).
Proof. intros h. reflexivity. Qed.

Lemma lcos_calculate_read_only (inputs : val) :
  read_only (Instances.lcos_calculate inputs).
Proof. intros h. reflexivity. Qed.

Lemma lcoe_usd_per_kwh_of_read_only (inputs : val) :
  read_only (SensitivityAnalyzer.lcoe_usd_per_kwh_of inputs).
Proof.
  apply read_only_bind; [apply lcoe_calculate_read_only|].
  intros r. apply read_only_ret.
Qed.

Lemma lcos_usd_per_kwh_of_read_only (inputs : val) :
  read_only (SensitivityAnalyzer.lcos_usd_per_kwh_of inputs).
Proof.
  apply read_only_bind; [apply lcos_calculate_read_only|].
  intros r. apply read_only_ret.
Qed.
End ReadOnly.

Section AnalyzerFrame.
Import Heap Frame.
Local Open Scope heap_scope.
Local Open Scope nat_scope.

Variable h0 : heap.
Local Abbreviation n := (length h0).

Lemma safe_getattr_path (attrs : list string) :
  forall o, val_ok h0 o ->
    safe h0 (SensitivityAnalyzer.getattr_path o attrs) (val_ok h0).
Proof.
  induction attrs as [|a rest IH]; intros o Ho; simpl.
  - apply safe_ret. exact Ho.
  - apply (safe_bind _ _ _ _ _ (safe_getattr h0 o a Ho)). exact IH.
Qed.

(** The copy that receives the new value is fresh, and the object reached
    in it along the path is fresh or an enum member. *)
Lemma safe_copy_inputs_with_param (inputs : val) (param_path : string) (q : Q) :
  safe h0 (SensitivityAnalyzer._copy_inputs_with_param inputs param_path (VFloat q))
    (val_ok h0).
Proof.
  unfold SensitivityAnalyzer._copy_inputs_with_param.
  apply (safe_bind _ _ _ _ _ (safe_deepcopy h0 inputs)). intros new_inputs Hnew.
  apply (safe_bind _ _ _ _ _ (safe_getattr_path _ new_inputs Hnew)). intros o Ho.
  apply (safe_bind _ _ _ anything).
  - apply safe_setattr; [exact Ho | exact I].
  - intros _ _. apply safe_ret. exact Hnew.
Qed.

Section Sensitivity.
Variable calculate_per_kwh : val -> M Q.
Hypothesis calculate_read_only : forall v, read_only (calculate_per_kwh v).

Lemma safe_analyze_parameter (base_inputs : val) (variation_percent base_lcoe : Q)
    (param : string) :
  safe h0 (SensitivityAnalyzer.analyze_parameter calculate_per_kwh base_inputs
             variation_percent base_lcoe param) anything.
Proof.
  unfold SensitivityAnalyzer.analyze_parameter,
    SensitivityAnalyzer._get_nested_attribute.
  apply (safe_bind _ _ _ anything).
  { apply safe_read_only. apply getattr_path_read_only. }
  intros base_v _.
  apply (safe_bind _ _ _ anything); [apply safe_lift; intros; exact I|].
  intros base_value _.
  apply (safe_bind _ _ _ _ _ (safe_copy_inputs_with_param _ _ _)). intros low _.
  apply (safe_bind _ _ _ anything);
    [apply safe_read_only; apply calculate_read_only|].
  intros low_lcoe _.
  apply (safe_bind _ _ _ _ _ (safe_copy_inputs_with_param _ _ _)). intros high _.
  apply (safe_bind _ _ _ anything);
    [apply safe_read_only; apply calculate_read_only|].
  intros high_lcoe _.
  apply (safe_bind _ _ _ anything); [apply safe_lift; intros; exact I|].
  intros sensitivity _.
  apply (safe_bind _ _ _ anything); [apply safe_lift; intros; exact I|].
  intros elasticity _. apply safe_ret. exact I.
Qed.

Lemma safe_analyze_parameters (base_inputs : val) (variation_percent base_lcoe : Q)
    (parameters : list string) :
  forall results,
    safe h0 (SensitivityAnalyzer.analyze_parameters calculate_per_kwh base_inputs
               variation_percent base_lcoe parameters results) anything.
Proof.
  induction parameters as [|param rest IH]; intros results; simpl.
  - apply safe_ret. exact I.
  - apply (safe_bind _ _ _ anything); [|intros r _; apply IH].
    apply safe_try_except.
    + apply (safe_bind _ _ _ _ _ (safe_analyze_parameter _ _ _ _)).
      intros r _. apply safe_ret. exact I.
    + intros e. apply safe_ret. exact I.
Qed.

Lemma safe_analyze_sensitivity (default_parameters : list string)
    (base_inputs : val) (parameters : option (list string))
    (variation_percent : Q) :
  safe h0 (SensitivityAnalyzer.analyze_sensitivity calculate_per_kwh
             default_parameters base_inputs parameters variation_percent)
    anything.
Proof.
  unfold SensitivityAnalyzer.analyze_sensitivity.
  apply (safe_bind _ _ _ anything);
    [apply safe_read_only; apply calculate_read_only|].
  intros base_lcoe _.
  apply (safe_bind _ _ _ _ _ (safe_analyze_parameters _ _ _ _ _)).
  intros results _. apply safe_ret. exact I.
Qed.
End Sensitivity.

Section MonteCarlo.
Variable rng : Type.
Variable normal uniform : Q -> Q -> nat -> rng -> list Q * rng.
Variable triangular : Q -> Q -> Q -> nat -> rng -> list Q * rng.
Variable n_samples : nat.
Variable calculate_per_kwh : val -> M Q.
Hypothesis calculate_read_only : forall v, read_only (calculate_per_kwh v).

Lemma safe_set_samples (sample_inputs : val)
    (distributions : list ParameterDistribution.t)
    (parameter_samples : gmap string (list Q)) (sample_index : nat) :
  val_ok h0 sample_inputs ->
  safe h0 (MonteCarloAnalyzer.set_samples sample_inputs distributions
             parameter_samples sample_index) anything.
Proof.
  intros Hs. induction distributions as [|dist rest IH]; simpl.
  - apply safe_ret. exact I.
  - apply (safe_bind _ _ _ anything); [apply safe_lift; intros; exact I|].
    intros column _.
    apply (safe_bind _ _ _ anything); [apply safe_lift; intros; exact I|].
    intros sample_value _.
    apply (safe_bind _ _ _ _ _ (safe_getattr_path _ sample_inputs Hs)).
    intros o Ho.
    apply (safe_bind _ _ _ anything).
    + apply safe_setattr; [exact Ho | exact I].
    + intros _ _. exact IH.
Qed.

Lemma safe_create_sample_inputs (base_inputs : val)
    (distributions : list ParameterDistribution.t)
    (parameter_samples : gmap string (list Q)) (sample_index : nat) :
  safe h0 (MonteCarloAnalyzer._create_sample_inputs base_inputs distributions
             parameter_samples sample_index) (val_ok h0).
Proof.
  unfold MonteCarloAnalyzer._create_sample_inputs.
  apply (safe_bind _ _ _ _ _ (safe_deepcopy h0 base_inputs)). intros s Hs.
  apply (safe_bind _ _ _ _ _ (safe_set_samples s _ _ _ Hs)).
  intros _ _. apply safe_ret. exact Hs.
Qed.

Lemma safe_sample_loop (base_inputs : val)
    (distributions : list ParameterDistribution.t)
    (parameter_samples : gmap string (list Q)) (indices : list nat) :
  forall samples,
    safe h0 (MonteCarloAnalyzer.sample_loop calculate_per_kwh base_inputs
               distributions parameter_samples indices samples) anything.
Proof.
  induction indices as [|i rest IH]; intros samples; simpl.
  - apply safe_ret. exact I.
  - apply (safe_bind _ _ _ anything); [|intros r _; apply IH].
    apply safe_try_except.
    + apply (safe_bind _ _ _ _ _ (safe_create_sample_inputs _ _ _ _)).
      intros s _.
      apply (safe_bind _ _ _ anything);
        [apply safe_read_only; apply calculate_read_only|].
      intros result _. apply safe_ret. exact I.
    + intros e. apply safe_ret. exact I.
Qed.

Lemma safe_analyze_uncertainty (base_inputs : val)
    (parameter_distributions : list ParameterDistribution.t) (g : rng) :
  safe h0 (MonteCarloAnalyzer.analyze_uncertainty rng normal uniform triangular
             n_samples calculate_per_kwh base_inputs parameter_distributions g)
    anything.
Proof.
  unfold MonteCarloAnalyzer.analyze_uncertainty.
  destruct (MonteCarloAnalyzer._generate_parameter_samples _ _ _ _ _ _ _ _)
    as [parameter_samples g'].
  apply (safe_bind _ _ _ _ _ (safe_sample_loop _ _ _ _ _)). intros samples _.
  destruct (omap id samples); [apply safe_raise | apply safe_ret; exact I].
Qed.
End MonteCarlo.

(** A computation that keeps the invariant changes nothing of the caller's
    heap but the enum members, when it is run on it. *)
Lemma safe_keeps {A : Type} (m : M A) (post : A -> Prop) :
  members_atomic h0 -> safe h0 m post -> keeps_all_but_members h0 (snd (m h0)).
Proof.
  intros Hat Hm. apply inv_keeps. exact (proj1 (Hm h0 (inv_initial h0 Hat))).
Qed.

End AnalyzerFrame.

Lemma extends_lookup (h h' : list Heap.obj) (l : nat) (o : Heap.obj) :
  Frame.extends h h' -> h !! l = Some o -> h' !! l = Some o.
Proof.
  unfold Frame.extends. intros He Hl. rewrite <- He in Hl.
  apply lookup_take_Some in Hl. exact (proj1 Hl).
Qed.




(** ** C8: the caller's inputs and the enum members they share with the copies *)




(** *** What the calculators read stays the same *)

Section ReadStable.
Import Heap Frame Instances.

Variables h h' : list obj.
Hypothesis Hext : extends h h'.

Lemma instance_attrs_extends (o : val) (a : list (string * val)) :
  instance_attrs h o = OK a -> instance_attrs h' o = OK a.
Proof.
  destruct o as [| | | |l]; simpl; try discriminate.
  destruct (h !! l) as [ob|] eqn:E; [|discriminate].
  rewrite (extends_lookup h h' l ob Hext E). auto.
Qed.

Lemma list_items_extends (o : val) (items : list val) :
  list_items h o = OK items -> list_items h' o = OK items.
Proof.
  destruct o as [| | | |l]; simpl; try discriminate.
  destruct (h !! l) as [ob|] eqn:E; [|discriminate].
  rewrite (extends_lookup h h' l ob Hext E). auto.
Qed.

Lemma read_FinancingParameters_extends (o : val) (f : FinancingParameters.t) :
  read_FinancingParameters h o = OK f -> read_FinancingParameters h' o = OK f.
Proof.
  unfold read_FinancingParameters. intros H.
  apply bind_OK in H. destruct H as [a [Ha H]].
  rewrite (instance_attrs_extends o a Ha). exact H.
Qed.

Lemma read_DegradationModel_extends (o : val) (d : DegradationModel.t) :
  read_DegradationModel h o = OK d -> read_DegradationModel h' o = OK d.
Proof.
  unfold read_DegradationModel. intros H.
  apply bind_OK in H. destruct H as [a [Ha H]].
  rewrite (instance_attrs_extends o a Ha). simpl.
  destruct (attr_float a "annual_degradation_rate"); [simpl in *|exact H].
  destruct (attr a "degradation_type"); [simpl in *|exact H].
  destruct (str_of_val _); [simpl in *|exact H].
  destruct (attr a "step_years"); [simpl in *|exact H].
  match type of H with
  | bind (list_items h ?v) _ = _ =>
      destruct (list_items h v) as [ys|] eqn:Ey;
      [simpl in H | simpl in H; discriminate H]
  end.
  rewrite (list_items_extends _ ys Ey). simpl.
  destruct (decode_all int_of_val ys); [simpl in *|exact H].
  destruct (attr a "step_rates"); [simpl in *|exact H].
  match type of H with
  | bind (list_items h ?v) _ = _ =>
      destruct (list_items h v) as [rs|] eqn:Er;
      [simpl in H | simpl in H; discriminate H]
  end.
  rewrite (list_items_extends _ rs Er). exact H.
Qed.

(** The record behind the caller's reference is the same in [h']: every
    field, with the nested financing and degradation objects. *)
Lemma read_LCOEInputs_extends (o : val) (i : LCOEInputs.t) :
  read_LCOEInputs h o = OK i -> read_LCOEInputs h' o = OK i.
Proof.
  unfold read_LCOEInputs. intros H.
  apply bind_OK in H. destruct H as [a [Ha H]].
  rewrite (instance_attrs_extends o a Ha). simpl.
  repeat (match type of H with
          | bind (attr_float ?x ?y) _ = _ =>
              destruct (attr_float x y); [simpl in *|exact H]
          | bind (attr_num ?x ?y) _ = _ =>
              destruct (attr_num x y); [simpl in *|exact H]
          | bind (attr ?x ?y) _ = _ =>
              destruct (attr x y); [simpl in *|exact H]
          end).
  destruct (read_DegradationModel h _) as [d|] eqn:Ed;
    [simpl in H | simpl in H; discriminate H].
  rewrite (read_DegradationModel_extends _ d Ed). simpl.
  destruct (attr a "financing"); [simpl in *|exact H].
  destruct (read_FinancingParameters h _) as [f|] eqn:Ef;
    [simpl in H | simpl in H; discriminate H].
  rewrite (read_FinancingParameters_extends _ f Ef). exact H.
Qed.

Lemma read_LCOSInputs_extends (o : val) (i : LCOSInputs.t) :
  read_LCOSInputs h o = OK i -> read_LCOSInputs h' o = OK i.
Proof.
  unfold read_LCOSInputs. intros H.
  apply bind_OK in H. destruct H as [a [Ha H]].
  rewrite (instance_attrs_extends o a Ha). simpl.
  repeat (match type of H with
          | bind (attr_float ?x ?y) _ = _ =>
              destruct (attr_float x y); [simpl in *|exact H]
          | bind (attr_num ?x ?y) _ = _ =>
              destruct (attr_num x y); [simpl in *|exact H]
          | bind (attr ?x ?y) _ = _ =>
              destruct (attr x y); [simpl in *|exact H]
          end).
  destruct (read_FinancingParameters h _) as [f|] eqn:Ef;
    [simpl in H | simpl in H; discriminate H].
  rewrite (read_FinancingParameters_extends _ f Ef). exact H.
Qed.
End ReadStable.

(** With [copy.copy] the same variation step would reach the caller's own
    financing object: after setting ["financing.discount_rate"] to 0.5 on a
    shallow copy the caller reads 0.5, after the step of the source the
    caller still reads 0.07. *)
Lemma deep_copy_is_needed :
  Examples.check
    (Examples.discount_rate_after
       (fun base => Examples.shallow_copy_inputs_with_param base
                      "financing.discount_rate" (Heap.VFloat (1 # 2)))
       Examples.lcoe_caller)
    (fun r => Qeq_bool r (1 # 2))
  = true
  /\ Examples.check
       (Examples.discount_rate_after
          (fun base => SensitivityAnalyzer._copy_inputs_with_param base
                         "financing.discount_rate" (Heap.VFloat (1 # 2)))
          Examples.lcoe_caller)
       (fun r => Qeq_bool r (7 # 100))
     = true.
Proof. split; vm_compute; reflexivity. Qed.

(** ** C7: identical low and high values in a sensitivity pass *)

(** Where the guards work: a parameter whose base value is 0
    ([variable_om_per_mwh]) gets its record, with sensitivity 0 and
    elasticity 0. *)
Lemma sensitivity_of_zero_valued_parameter :
  Examples.check
    (Examples.run_sensitivity SensitivityAnalyzer.analyze_lcoe_sensitivity
       Examples.lcoe_caller ["variable_om_per_mwh"] (2 # 10))
    (fun results =>
       match results with
       | [r] => Qeq_bool (SensitivityResult.low_value r) (SensitivityResult.high_value r)
                && Qeq_bool (SensitivityResult.sensitivity r) 0
                && Qeq_bool (SensitivityResult.elasticity r) 0
       | _ => false
       end)
  = true.
Proof. vm_compute. reflexivity. Qed.

(** With a variation of 20% the same call on [capex_per_kw] returns its
    record. *)
Lemma sensitivity_of_capex_at_20_percent :
  Examples.check
    (Examples.run_sensitivity SensitivityAnalyzer.analyze_lcoe_sensitivity
       Examples.lcoe_caller ["capex_per_kw"] (2 # 10))
    (fun results => Nat.eqb (length results) 1)
  = true.
Proof. vm_compute. reflexivity. Qed.

(** C7, the code at the failing inputs. With [variation_percent = 0.0] the
    low and high values of [capex_per_kw] are identical while the base value
    and the base output are not 0: the sensitivity is guarded, but the
    elasticity expression divides by [(high_value - low_value) / base_value],
    which is 0. The [ZeroDivisionError] is caught by the handler of the loop
    and the record of the parameter is missing from the returned list, for
    the LCOE and for the LCOS analysis. A parameter of integer type with base
    value 0 ([system_lifetime_years = 0]) loses its record as well: the copy
    receives the float [0.0] and [range] raises [TypeError]. *)
Theorem sensitivity_identical_bounds_lose_the_record :
  Examples.run_parameter SensitivityAnalyzer.lcoe_usd_per_kwh_of
    Examples.lcoe_caller "capex_per_kw" 0 = Err ZeroDivisionError
  /\ Examples.run_sensitivity SensitivityAnalyzer.analyze_lcoe_sensitivity
       Examples.lcoe_caller ["capex_per_kw"] 0 = OK []
  /\ Examples.run_parameter SensitivityAnalyzer.lcos_usd_per_kwh_of
       Examples.lcos_caller "capex_per_kwh" 0 = Err ZeroDivisionError
  /\ Examples.run_sensitivity SensitivityAnalyzer.analyze_lcos_sensitivity
       Examples.lcos_caller ["capex_per_kwh"] 0 = OK []
  /\ Examples.run_parameter SensitivityAnalyzer.lcoe_usd_per_kwh_of
       Examples.lcoe_zero_years_caller "system_lifetime_years" (2 # 10)
     = Err TypeError
  /\ Examples.run_sensitivity SensitivityAnalyzer.analyze_lcoe_sensitivity
       Examples.lcoe_zero_years_caller ["system_lifetime_years"] (2 # 10) = OK [].
Proof. repeat split; vm_compute; reflexivity. Qed.

(** * Further properties of the calculators *)

(** ** Net capex *)

(** X1. Incentives never make the capital expenditure negative: the total
    capex of either calculator is the net capex (cost minus ITC benefit minus
    rebate) when that is not negative, and 0 otherwise. *)
Theorem total_capex_floored_at_zero :
  (forall i : LCOEInputs.t,
      0 <= LCOECalculator._calculate_total_capex i
      /\ (0 <= lcoe_net_capex i ->
          LCOECalculator._calculate_total_capex i == lcoe_net_capex i)
      /\ (lcoe_net_capex i <= 0 -> LCOECalculator._calculate_total_capex i == 0))
  /\ (forall i : LCOSInputs.t,
      0 <= LCOSCalculator._calculate_total_capex i
      /\ (0 <= lcos_net_capex i ->
          LCOSCalculator._calculate_total_capex i == lcos_net_capex i)
      /\ (lcos_net_capex i <= 0 -> LCOSCalculator._calculate_total_capex i == 0)).
Proof.
  split; intros i.
  - unfold LCOECalculator._calculate_total_capex. fold (lcoe_net_capex i).
    split; [apply Q.le_max_l|]. split; intros H.
    + apply Q.max_r. exact H.
    + apply Q.max_l. exact H.
  - unfold LCOSCalculator._calculate_total_capex. fold (lcos_net_capex i).
    split; [apply Q.le_max_l|]. split; intros H.
    + apply Q.max_r. exact H.
    + apply Q.max_l. exact H.
Qed.

Lemma total_capex_floored_witness :
  LCOECalculator._calculate_total_capex LCOEInputs.default
  == lcoe_net_capex LCOEInputs.default
  /\ LCOSCalculator._calculate_total_capex LCOSInputs.default
     == lcos_net_capex LCOSInputs.default.
Proof.
  split.
  - apply (proj1 total_capex_floored_at_zero LCOEInputs.default).
    vm_compute. discriminate.
  - apply (proj2 total_capex_floored_at_zero LCOSInputs.default).
    vm_compute. discriminate.
Defined.

(** ** Accumulation loops *)

(** Two loops whose terms are in the ratio [c] have results in the ratio [c]. *)
Lemma sum_loop_scaled (term term' : Z -> Result Q) (c : Q) (years : list Z) :
  (forall y t, In y years -> term y = OK t ->
     exists t', term' y = OK t' /\ t' == c * t) ->
  forall total total' v,
    total' == c * total ->
    sum_loop term years total = OK v ->
    exists v', sum_loop term' years total' = OK v' /\ v' == c * v.
Proof.
  induction years as [|y ys IH]; intros Hterm total total' v Htot H; simpl in *.
  - injection H as <-. exists total'. split; [reflexivity | exact Htot].
  - apply bind_OK in H. destruct H as [t [Ht H]].
    destruct (Hterm y t (or_introl eq_refl) Ht) as [t' [Ht' Heq]].
    rewrite Ht'. simpl.
    apply (IH (fun z s Hz => Hterm z s (or_intror Hz)) (total + t) (total' + t') v);
      [|exact H].
    rewrite Htot, Heq. ring.
Qed.

Lemma sum_loop_nonneg (term : Z -> Result Q) (years : list Z) :
  (forall y t, In y years -> term y = OK t -> 0 <= t) ->
  forall total v, 0 <= total -> sum_loop term years total = OK v -> total <= v.
Proof.
  induction years as [|y ys IH]; intros Hterm total v Htot H; simpl in *.
  - injection H as <-. apply Qle_refl.
  - apply bind_OK in H. destruct H as [t [Ht H]].
    pose proof (Hterm y t (or_introl eq_refl) Ht) as Hpos.
    apply Qle_trans with (total + t).
    + rewrite <- (Qplus_0_r total) at 1. apply Qplus_le_r. exact Hpos.
    + apply (IH (fun z s Hz => Hterm z s (or_intror Hz))); [|exact H].
      rewrite <- (Qplus_0_r 0). apply Qplus_le_compat; assumption.
Qed.

Lemma sum_loop_constant (term : Z -> Result Q) (a : Q) (years : list Z) :
  (forall y, In y years -> exists t, term y = OK t /\ t == a) ->
  forall total,
    exists v, sum_loop term years total = OK v
              /\ v == total + inject_Z (Z.of_nat (length years)) * a.
Proof.
  induction years as [|y ys IH]; intros Hterm total.
  - exists total. split; [reflexivity|]. simpl. ring.
  - destruct (Hterm y (or_introl eq_refl)) as [t [Ht Heq]].
    destruct (IH (fun z Hz => Hterm z (or_intror Hz)) (total + t)) as [v [Hv Hsum]].
    exists v. split; [simpl; rewrite Ht; exact Hv|].
    rewrite Hsum, Heq. cbn [length]. rewrite Nat2Z.inj_succ.
    unfold Z.succ. rewrite inject_Z_plus. ring.
Qed.

Lemma range_length (n : Z) : (0 <= n)%Z -> Z.of_nat (length (range n)) = n.
Proof.
  intros H. unfold range. rewrite length_map, length_seq. apply Z2Nat.id. exact H.
Qed.

(** ** The annuity series *)

Lemma npv_term_OK (amount d r : Q) (year : Z) (t : Q) :
  (0 <= year)%Z ->
  (let* infl := Float.pow (1 + r) year in
   let* disc := Float.pow (1 + d) year in
   Float.div (amount * infl) disc) = OK t ->
  ~ (1 + d) ^ year == 0 /\ t = amount * (1 + r) ^ year / (1 + d) ^ year.
Proof.
  intros Hy. rewrite !pow_nonneg by exact Hy. simpl. apply div_OK.
Qed.

(** X2. The NPV of an annual series is proportional to the annual amount:
    whenever the series of [annual_amount] is computed, the series of
    [c * annual_amount] over the same years and rates is computed too and is
    [c] times as large. *)
Theorem npv_series_proportional (c amount : Q) (years : pynum) (d r v : Q) :
  _calculate_npv_series amount years d r = OK v ->
  exists v', _calculate_npv_series (c * amount) years d r = OK v' /\ v' == c * v.
Proof.
  unfold _calculate_npv_series. intros H.
  apply bind_OK in H. destruct H as [ys [Hys H]]. rewrite Hys. simpl.
  assert (Hin : forall y, In y ys -> (0 <= y)%Z).
  { destruct years as [n|q]; [|discriminate Hys]. injection Hys as <-.
    intros y Hy. apply range_nonneg in Hy. lia. }
  eapply sum_loop_scaled; cycle 2; [exact H | | ring].
  intros y t Hy Ht. apply (npv_term_OK amount d r y t (Hin y Hy)) in Ht.
  destruct Ht as [Hnz ->].
  rewrite !pow_nonneg by (apply Hin; exact Hy). simpl.
  rewrite div_nonzero by exact Hnz.
  eexists. split; [reflexivity|]. field. exact Hnz.
Qed.

Lemma npv_series_proportional_witness :
  exists v', _calculate_npv_series (3 * 100) (PyInt 2) (7 # 100) (2 # 100) = OK v'
             /\ v' == 3 * (100 + 100 * (102 # 100) / (107 # 100)).
Proof.
  destruct (npv_series_proportional 3 100 (PyInt 2) (7 # 100) (2 # 100)
              (0 + 100 * (1 + (2 # 100)) ^ 0 / (1 + (7 # 100)) ^ 0
               + 100 * (1 + (2 # 100)) ^ 1 / (1 + (7 # 100)) ^ 1))
    as [v' [Hv' Heq]].
  - vm_compute. reflexivity.
  - exists v'. split; [exact Hv'|]. rewrite Heq. vm_compute. reflexivity.
Defined.

(** X3. When inflation equals the discount rate every year contributes the
    undiscounted amount: over [n >= 0] years the series is [n * amount].
    This is a statement of exact arithmetic, floats being idealised as
    rationals: in binary floating point the sum equals [n * amount] only up
    to rounding (0.1 over 10 years at 7 percent gives 0.9999999999999999),
    and a power [(1 + rate) ** year] that leaves the float range makes the
    call raise ([OverflowError], or [ZeroDivisionError] after an underflow
    to 0.0). *)
Theorem npv_series_equal_rates (amount rate : Q) (n : Z) :
  (0 <= n)%Z ->
  ~ 1 + rate == 0 ->
  exists v, _calculate_npv_series amount (PyInt n) rate rate = OK v
            /\ v == inject_Z n * amount.
Proof.
  intros Hn Hr. unfold _calculate_npv_series. simpl.
  destruct (sum_loop_constant
              (fun year =>
                 let* infl := Float.pow (1 + rate) year in
                 let* disc := Float.pow (1 + rate) year in
                 Float.div (amount * infl) disc)
              amount (range n)) with (total := 0) as [v [Hv Hsum]].
  - intros y Hy. apply range_nonneg in Hy.
    rewrite !pow_nonneg by lia. simpl.
    assert (Hnz : ~ (1 + rate) ^ y == 0) by (apply Qpower_not_0; exact Hr).
    rewrite div_nonzero by exact Hnz.
    eexists. split; [reflexivity|]. field. exact Hnz.
  - exists v. split; [exact Hv|]. rewrite Hsum, range_length by exact Hn. ring.
Qed.

Lemma npv_series_equal_rates_witness :
  exists v, _calculate_npv_series 100 (PyInt 25) (7 # 100) (7 # 100) = OK v
            /\ v == inject_Z 25 * 100.
Proof.
  apply (npv_series_equal_rates 100 (7 # 100) 25).
  - lia.
  - intros H. vm_compute in H. discriminate H.
Defined.

(** X4. A discount factor of zero: with [1 + discount_rate = 0] the series
    is computed for at most one year (year 0 is undiscounted, [0 ** 0 = 1])
    and raises [ZeroDivisionError] for two years or more. *)
Theorem npv_series_zero_discount_factor (amount d r : Q) (n : Z) :
  1 + d == 0 ->
  ((n <= 0)%Z -> _calculate_npv_series amount (PyInt n) d r = OK 0)
  /\ (n = 1%Z -> exists v, _calculate_npv_series amount (PyInt n) d r = OK v
                           /\ v == amount)
  /\ ((2 <= n)%Z ->
      _calculate_npv_series amount (PyInt n) d r = Err ZeroDivisionError).
Proof.
  intros Hd. split; [|split].
  - apply npv_series_nonpos.
  - intros ->. unfold _calculate_npv_series. simpl py_range. cbn [bind].
    change (range 1) with [0%Z]. cbn [sum_loop].
    rewrite !pow_nonneg by lia. simpl.
    eexists. split; [reflexivity|]. field.
  - intros Hn. unfold _calculate_npv_series. simpl py_range. cbn [bind].
    unfold range. destruct (Z.to_nat n) as [|[|k]] eqn:E; [lia | lia |].
    cbn [seq map sum_loop Z.of_nat Pos.of_succ_nat Pos.succ].
    rewrite !pow_nonneg by lia. cbn [bind].
    rewrite div_nonzero by (simpl; discriminate). cbn [bind].
    rewrite div_zero; [reflexivity|].
    simpl. exact Hd.
Qed.

Lemma npv_series_zero_discount_factor_witness :
  _calculate_npv_series 100 (PyInt 0) (-1) (2 # 100) = OK 0
  /\ (exists v, _calculate_npv_series 100 (PyInt 1) (-1) (2 # 100) = OK v
                /\ v == 100)
  /\ _calculate_npv_series 100 (PyInt 3) (-1) (2 # 100) = Err ZeroDivisionError.
Proof.
  assert (H : 1 + -1 == 0) by reflexivity.
  destruct (npv_series_zero_discount_factor 100 (-1) (2 # 100) 0 H) as [H0 _].
  destruct (npv_series_zero_discount_factor 100 (-1) (2 # 100) 1 H) as [_ [H1 _]].
  destruct (npv_series_zero_discount_factor 100 (-1) (2 # 100) 3 H) as [_ [_ H3]].
  split; [apply H0; lia|]. split; [apply H1; reflexivity | apply H3; lia].
Defined.

(** ** The LCOE result *)

Lemma levelized_nonneg (bucket energy : Q) : 0 <= bucket -> 0 <= levelized bucket energy.
Proof.
  intros H. unfold levelized. destruct (positive energy) eqn:E; [|apply Qle_refl].
  apply positive_iff in E. apply Qle_shift_div_l; [exact E|].
  rewrite Qmult_0_l. exact H.
Qed.

Lemma positive_proper (x y : Q) : x == y -> positive x = positive y.
Proof.
  intros H. destruct (positive y) eqn:E.
  - apply positive_iff. apply positive_iff in E. rewrite H. exact E.
  - destruct (positive x) eqn:E'; [|reflexivity].
    apply positive_iff in E'. rewrite H in E'. apply positive_iff in E'. congruence.
Qed.

Lemma levelized_proper (b b' e e' : Q) :
  b == b' -> e == e' -> levelized b e == levelized b' e'.
Proof.
  intros Hb He. unfold levelized. rewrite (positive_proper e e' He).
  destruct (positive e'); [|reflexivity]. rewrite Hb, He. reflexivity.
Qed.

Lemma levelized_scaled (k b e : Q) :
  0 < k -> levelized (k * b) (k * e) == levelized b e.
Proof.
  intros Hk. unfold levelized.
  assert (Hp : positive (k * e) = positive e).
  { destruct (positive e) eqn:E.
    - apply positive_iff. apply positive_iff in E.
      apply Qmult_lt_0_compat; assumption.
    - destruct (positive (k * e)) eqn:E'; [|reflexivity].
      apply positive_iff in E'. exfalso.
      assert (He : 0 < e).
      { destruct (Qlt_le_dec 0 e) as [Hlt|Hle]; [exact Hlt|].
        exfalso. apply (Qlt_not_le _ _ E').
        rewrite <- (Qmult_0_r k). apply Qmult_le_l; assumption. }
      apply positive_iff in He. congruence. }
  rewrite Hp. destruct (positive e) eqn:E; [|reflexivity].
  apply positive_nonzero in E. field. split; [exact E|].
  intros H. rewrite H in Hk. exact (Qlt_irrefl 0 Hk).
Qed.

(** The whole of a computed LCOE result, in terms of the stages. *)
Lemma lcoe_calculate_fields (i : LCOEInputs.t) (r : LCOEResult.t) :
  LCOECalculator.calculate i = OK r ->
  exists energy opex fuel fin,
    LCOECalculator._calculate_lifetime_energy i
      (LCOECalculator._calculate_annual_energy i) = OK energy
    /\ LCOECalculator._calculate_opex_npv i = OK opex
    /\ LCOECalculator._calculate_fuel_npv i
         (LCOECalculator._calculate_annual_energy i) = OK fuel
    /\ LCOECalculator._calculate_financing_cost i
         (LCOECalculator._calculate_total_capex i) = OK fin
    /\ ~ LCOEInputs.system_size_kw i * (876 # 100) == 0
    /\ r = {|
         LCOEResult.lcoe_usd_per_mwh :=
           levelized (LCOECalculator._calculate_total_capex i + opex + fuel + fin)
             energy;
         LCOEResult.lcoe_usd_per_kwh :=
           levelized (LCOECalculator._calculate_total_capex i + opex + fuel + fin)
             energy / 1000;
         LCOEResult.capex_component :=
           levelized (LCOECalculator._calculate_total_capex i) energy;
         LCOEResult.opex_component := levelized opex energy;
         LCOEResult.fuel_component := levelized fuel energy;
         LCOEResult.financing_component := levelized fin energy;
         LCOEResult.total_capex := LCOECalculator._calculate_total_capex i;
         LCOEResult.total_opex_npv := opex;
         LCOEResult.total_energy_mwh := energy;
         LCOEResult.capacity_factor_actual :=
           LCOECalculator._calculate_annual_energy i
           / (LCOEInputs.system_size_kw i * (876 # 100));
         LCOEResult.p10_lcoe := None;
         LCOEResult.p50_lcoe := None;
         LCOEResult.p90_lcoe := None |}.
Proof.
  unfold LCOECalculator.calculate. intros H. bind_inv H.
  apply div_OK in Ha3. destruct Ha3 as [Hnz ->].
  injection H as <-.
  exists a, a0, a1, a2. repeat split; assumption.
Qed.

(** X5. The realized capacity factor that [calculate] reports is the
    capacity factor it was given: first-year energy divided by
    [system_size_kw * 8.76] undoes the product that defined it.  This is a
    statement of exact arithmetic, floats being idealised as rationals: in
    binary floating point the two agree only up to rounding (a capacity
    factor of 0.18 at size 7.0 comes back as 0.18000000000000002). *)
Theorem lcoe_realized_capacity_factor (i : LCOEInputs.t) (r : LCOEResult.t) :
  LCOECalculator.calculate i = OK r ->
  LCOEResult.capacity_factor_actual r == LCOEInputs.capacity_factor i.
Proof.
  intros H.
  destruct (lcoe_calculate_fields i r H) as (e & o & f & fi & _ & _ & _ & _ & Hnz & ->).
  simpl. unfold LCOECalculator._calculate_annual_energy.
  assert (Hs : ~ LCOEInputs.system_size_kw i == 0).
  { intros E. apply Hnz. rewrite E. reflexivity. }
  field. exact Hs.
Qed.

Lemma lcoe_realized_capacity_factor_witness :
  exists r, LCOECalculator.calculate Examples.lcoe_two_years = OK r
            /\ LCOEResult.capacity_factor_actual r == 25 # 100.
Proof.
  destruct (check_true _ _ (proj1 examples_return)) as [r [E _]].
  exists r. split; [exact E|].
  exact (lcoe_realized_capacity_factor _ r E).
Defined.

Lemma npv_series_nonneg (amount : Q) (years : pynum) (d r v : Q) :
  0 <= amount -> 0 < 1 + d -> 0 <= 1 + r ->
  _calculate_npv_series amount years d r = OK v -> 0 <= v.
Proof.
  intros Ha Hd Hr. unfold _calculate_npv_series. intros H.
  apply bind_OK in H. destruct H as [ys [Hys H]].
  destruct years as [n|q]; [|discriminate Hys]. injection Hys as <-.
  apply (sum_loop_nonneg _ (range n)) in H; [exact H | | apply Qle_refl].
  intros y t Hy Ht. apply range_nonneg in Hy.
  apply npv_term_OK in Ht; [|lia]. destruct Ht as [_ ->].
  apply Qle_shift_div_l; [apply Qpower_0_lt; exact Hd|].
  rewrite Qmult_0_l. apply Qmult_le_0_compat; [exact Ha|].
  apply Qpower_0_le. exact Hr.
Qed.

(** X6. With non-negative cost and performance inputs, a positive discount
    factor and a non-negative inflation factor, no part of the result is
    negative: the levelized cost and its four components are all at least 0. *)
Theorem lcoe_result_nonneg (i : LCOEInputs.t) (r : LCOEResult.t) :
  0 <= LCOEInputs.system_size_kw i ->
  0 <= LCOEInputs.capacity_factor i ->
  0 <= LCOEInputs.fixed_om_per_kw_year i ->
  0 <= LCOEInputs.variable_om_per_mwh i ->
  0 <= FinancingParameters.debt_fraction (LCOEInputs.financing i) ->
  0 <= FinancingParameters.debt_interest_rate (LCOEInputs.financing i) ->
  0 < 1 + FinancingParameters.effective_discount_rate (LCOEInputs.financing i) ->
  0 <= 1 + FinancingParameters.inflation_rate (LCOEInputs.financing i) ->
  LCOECalculator.calculate i = OK r ->
  0 <= LCOEResult.lcoe_usd_per_mwh r
  /\ 0 <= LCOEResult.lcoe_usd_per_kwh r
  /\ 0 <= LCOEResult.capex_component r
  /\ 0 <= LCOEResult.opex_component r
  /\ 0 <= LCOEResult.fuel_component r
  /\ 0 <= LCOEResult.financing_component r.
Proof.
  intros Hsize Hcf Hfix Hvar Hdebt Hint Hd Hinfl H.
  destruct (lcoe_calculate_fields i r H)
    as (e & o & f & fi & _ & Ho & Hf & Hfi & _ & ->). simpl.
  assert (Hcapex : 0 <= LCOECalculator._calculate_total_capex i)
    by apply Q.le_max_l.
  assert (Hannual : 0 <= LCOECalculator._calculate_annual_energy i).
  { unfold LCOECalculator._calculate_annual_energy.
    apply Qle_shift_div_l; [reflexivity|]. rewrite Qmult_0_l.
    apply Qmult_le_0_compat; [|discriminate].
    apply Qmult_le_0_compat; assumption. }
  assert (Hopex : 0 <= o).
  { unfold LCOECalculator._calculate_opex_npv in Ho.
    apply npv_series_nonneg in Ho; try assumption.
    rewrite <- (Qplus_0_r 0). apply Qplus_le_compat;
      apply Qmult_le_0_compat; assumption. }
  assert (Hfuel : 0 <= f).
  { unfold LCOECalculator._calculate_fuel_npv in Hf.
    destruct (Qle_bool (LCOEInputs.fuel_cost_per_mwh i) 0) eqn:E.
    - injection Hf as <-. apply Qle_refl.
    - apply npv_series_nonneg in Hf; try assumption.
      apply Qmult_le_0_compat; [|exact Hannual].
      apply Qlt_le_weak. apply Qlt_bool_iff. unfold Qlt_bool. now rewrite E. }
  assert (Hfin : 0 <= fi).
  { unfold LCOECalculator._calculate_financing_cost in Hfi.
    apply npv_series_nonneg in Hfi; try assumption; [|discriminate].
    apply Qmult_le_0_compat; [|exact Hint].
    apply Qmult_le_0_compat; assumption. }
  assert (Htotal :
    0 <= LCOECalculator._calculate_total_capex i + o + f + fi).
  { rewrite <- (Qplus_0_r 0). apply Qplus_le_compat; [|exact Hfin].
    rewrite <- (Qplus_0_r 0). apply Qplus_le_compat; [|exact Hfuel].
    rewrite <- (Qplus_0_r 0). apply Qplus_le_compat; assumption. }
  repeat split; try (apply levelized_nonneg; assumption).
  apply Qle_shift_div_l; [reflexivity|]. rewrite Qmult_0_l.
  apply levelized_nonneg. exact Htotal.
Qed.

Lemma lcoe_result_nonneg_witness :
  exists r, LCOECalculator.calculate Examples.lcoe_two_years = OK r
            /\ 0 <= LCOEResult.lcoe_usd_per_kwh r.
Proof.
  destruct (check_true _ _ (proj1 examples_return)) as [r [E _]].
  exists r. split; [exact E|].
  apply (lcoe_result_nonneg Examples.lcoe_two_years r);
    try (vm_compute; discriminate); try (vm_compute; reflexivity).
  exact E.
Defined.

(** ** The levelized cost does not depend on the size of the system *)

Lemma Qmax_0_scaled (k x x' : Q) :
  0 < k -> x' == k * x -> Qmax 0 x' == k * Qmax 0 x.
Proof.
  intros Hk Hx. destruct (Qlt_le_dec x 0) as [Hneg|Hpos].
  - rewrite (Q.max_l 0 x) by (apply Qlt_le_weak; exact Hneg).
    rewrite Q.max_l; [ring|]. rewrite Hx.
    rewrite <- (Qmult_0_r k). apply Qmult_le_l; [exact Hk|].
    apply Qlt_le_weak. exact Hneg.
  - rewrite (Q.max_r 0 x) by exact Hpos.
    rewrite Q.max_r; [exact Hx|]. rewrite Hx.
    apply Qmult_le_0_compat; [apply Qlt_le_weak; exact Hk | exact Hpos].
Qed.

Lemma npv_series_scaled (c amount amount' : Q) (years : pynum) (d r v : Q) :
  amount' == c * amount ->
  _calculate_npv_series amount years d r = OK v ->
  exists v', _calculate_npv_series amount' years d r = OK v' /\ v' == c * v.
Proof.
  intros Ha. unfold _calculate_npv_series. intros H.
  apply bind_OK in H. destruct H as [ys [Hys H]]. rewrite Hys. simpl.
  assert (Hin : forall y, In y ys -> (0 <= y)%Z).
  { destruct years as [n|q]; [|discriminate Hys]. injection Hys as <-.
    intros y Hy. apply range_nonneg in Hy. lia. }
  eapply sum_loop_scaled; cycle 2; [exact H | | ring].
  intros y t Hy Ht. apply (npv_term_OK amount d r y t (Hin y Hy)) in Ht.
  destruct Ht as [Hnz ->].
  rewrite !pow_nonneg by (apply Hin; exact Hy). simpl.
  rewrite div_nonzero by exact Hnz.
  eexists. split; [reflexivity|]. rewrite Ha. field. exact Hnz.
Qed.

Lemma lcoe_total_capex_scaled (k : Q) (i : LCOEInputs.t) :
  0 < k ->
  LCOECalculator._calculate_total_capex (scale_size k i)
  == k * LCOECalculator._calculate_total_capex i.
Proof.
  intros Hk. unfold LCOECalculator._calculate_total_capex.
  apply Qmax_0_scaled; [exact Hk|]. simpl. ring.
Qed.

Lemma lcoe_annual_energy_scaled (k : Q) (i : LCOEInputs.t) :
  LCOECalculator._calculate_annual_energy (scale_size k i)
  == k * LCOECalculator._calculate_annual_energy i.
Proof. unfold LCOECalculator._calculate_annual_energy. simpl. field. Qed.

Lemma lcoe_lifetime_energy_scaled (k : Q) (i : LCOEInputs.t) (annual annual' e : Q) :
  annual' == k * annual ->
  LCOECalculator._calculate_lifetime_energy i annual = OK e ->
  exists e', LCOECalculator._calculate_lifetime_energy (scale_size k i) annual'
             = OK e'
             /\ e' == k * e.
Proof.
  intros Ha. unfold LCOECalculator._calculate_lifetime_energy. simpl.
  intros H. apply bind_OK in H. destruct H as [ys [Hys H]]. rewrite Hys. simpl.
  eapply sum_loop_scaled; cycle 2; [exact H | | ring].
  intros y t Hy Ht.
  apply bind_OK in Ht. destruct Ht as [pf [Hpf Ht]]. rewrite Hpf. simpl.
  apply bind_OK in Ht. destruct Ht as [disc [Hdisc Ht]]. rewrite Hdisc. simpl.
  apply div_OK in Ht. destruct Ht as [Hnz ->].
  rewrite div_nonzero by exact Hnz.
  eexists. split; [reflexivity|]. rewrite Ha. field. exact Hnz.
Qed.

Lemma lcoe_scale_invariant (k : Q) (i : LCOEInputs.t) (r : LCOEResult.t) :
  0 < k ->
  LCOECalculator.calculate i = OK r ->
  exists r',
    LCOECalculator.calculate (scale_size k i) = OK r'
    /\ LCOEResult.lcoe_usd_per_mwh r' == LCOEResult.lcoe_usd_per_mwh r
    /\ LCOEResult.lcoe_usd_per_kwh r' == LCOEResult.lcoe_usd_per_kwh r
    /\ LCOEResult.capex_component r' == LCOEResult.capex_component r
    /\ LCOEResult.opex_component r' == LCOEResult.opex_component r
    /\ LCOEResult.fuel_component r' == LCOEResult.fuel_component r
    /\ LCOEResult.financing_component r' == LCOEResult.financing_component r
    /\ LCOEResult.total_capex r' == k * LCOEResult.total_capex r
    /\ LCOEResult.total_energy_mwh r' == k * LCOEResult.total_energy_mwh r.
Proof.
  intros Hk H.
  destruct (lcoe_calculate_fields i r H)
    as (e & o & f & fi & He & Ho & Hf & Hfi & Hnz & ->).
  pose proof (lcoe_total_capex_scaled k i Hk) as Hcapex.
  pose proof (lcoe_annual_energy_scaled k i) as Hannual.
  destruct (lcoe_lifetime_energy_scaled k i _ _ e Hannual He) as [e' [He' Ee]].
  assert (Hopex : exists o', LCOECalculator._calculate_opex_npv (scale_size k i)
                             = OK o' /\ o' == k * o).
  { unfold LCOECalculator._calculate_opex_npv in *.
    eapply npv_series_scaled; [|exact Ho].
    rewrite Hannual. simpl. ring. }
  destruct Hopex as [o' [Ho' Eo]].
  assert (Hfuel : exists f',
    LCOECalculator._calculate_fuel_npv (scale_size k i)
      (LCOECalculator._calculate_annual_energy (scale_size k i)) = OK f'
    /\ f' == k * f).
  { unfold LCOECalculator._calculate_fuel_npv in *. simpl LCOEInputs.fuel_cost_per_mwh.
    destruct (Qle_bool (LCOEInputs.fuel_cost_per_mwh i) 0).
    - injection Hf as <-. exists 0. split; [reflexivity | ring].
    - eapply npv_series_scaled; [|exact Hf]. rewrite Hannual. ring. }
  destruct Hfuel as [f' [Hf' Ef]].
  assert (Hfin : exists fi',
    LCOECalculator._calculate_financing_cost (scale_size k i)
      (LCOECalculator._calculate_total_capex (scale_size k i)) = OK fi'
    /\ fi' == k * fi).
  { unfold LCOECalculator._calculate_financing_cost in *.
    eapply npv_series_scaled; [|exact Hfi]. rewrite Hcapex. simpl. ring. }
  destruct Hfin as [fi' [Hfi' Efi]].
  assert (Hnz' : ~ LCOEInputs.system_size_kw (scale_size k i) * (876 # 100) == 0).
  { simpl. intros E. apply Hnz.
    assert (Hk0 : ~ k == 0).
    { intros E0. rewrite E0 in Hk. exact (Qlt_irrefl 0 Hk). }
    apply (Qmult_inj_l _ _ k Hk0). rewrite Qmult_0_r, <- E. ring. }
  unfold LCOECalculator.calculate. rewrite He', Ho', Hf', Hfi'. cbn [bind].
  rewrite (div_nonzero _ _ Hnz'). cbn [bind].
  eexists. split; [reflexivity|]. simpl.
  fold (levelized
          (LCOECalculator._calculate_total_capex (scale_size k i) + o' + f' + fi') e').
  fold (levelized (LCOECalculator._calculate_total_capex (scale_size k i)) e').
  fold (levelized o' e'). fold (levelized f' e'). fold (levelized fi' e').
  assert (Htot : LCOECalculator._calculate_total_capex (scale_size k i) + o' + f' + fi'
                 == k * (LCOECalculator._calculate_total_capex i + o + f + fi)).
  { rewrite Hcapex, Eo, Ef, Efi. ring. }
  assert (L : forall b b', b' == k * b -> levelized b' e' == levelized b e).
  { intros b b' Hb. rewrite (levelized_proper b' (k * b) e' (k * e) Hb Ee).
    apply levelized_scaled. exact Hk. }
  repeat split.
  - apply L. exact Htot.
  - rewrite (L _ _ Htot). reflexivity.
  - apply L. exact Hcapex.
  - apply L. exact Eo.
  - apply L. exact Ef.
  - apply L. exact Efi.
  - exact Hcapex.
  - exact Ee.
Qed.

(** X7. The levelized cost is independent of the size of the system: if
    [calculate] returns on [inputs], it returns on the same inputs with
    [system_size_kw] multiplied by any [k > 0], with the same levelized cost
    per MWh and per kWh and the same four components, while total capex and
    lifetime energy are multiplied by [k].  This is a statement of exact
    arithmetic, floats being idealised as rationals: in binary floating
    point the costs of the two sizes agree only up to rounding (the default
    inputs give 61.58620017063406 at size 100 and 61.58620017063407 at size
    300). *)
Theorem lcoe_independent_of_size (k : Q) (i : LCOEInputs.t) (r : LCOEResult.t) :
  0 < k ->
  LCOECalculator.calculate i = OK r ->
  exists r',
    LCOECalculator.calculate (scale_size k i) = OK r'
    /\ LCOEResult.lcoe_usd_per_mwh r' == LCOEResult.lcoe_usd_per_mwh r
    /\ LCOEResult.lcoe_usd_per_kwh r' == LCOEResult.lcoe_usd_per_kwh r
    /\ LCOEResult.capex_component r' == LCOEResult.capex_component r
    /\ LCOEResult.opex_component r' == LCOEResult.opex_component r
    /\ LCOEResult.fuel_component r' == LCOEResult.fuel_component r
    /\ LCOEResult.financing_component r' == LCOEResult.financing_component r
    /\ LCOEResult.total_capex r' == k * LCOEResult.total_capex r
    /\ LCOEResult.total_energy_mwh r' == k * LCOEResult.total_energy_mwh r.
Proof. exact (lcoe_scale_invariant k i r). Qed.

Lemma lcoe_independent_of_size_witness :
  exists r r',
    LCOECalculator.calculate Examples.lcoe_two_years = OK r
    /\ LCOECalculator.calculate (scale_size 3 Examples.lcoe_two_years) = OK r'
    /\ LCOEResult.lcoe_usd_per_kwh r' == LCOEResult.lcoe_usd_per_kwh r.
Proof.
  destruct (check_true _ _ (proj1 examples_return)) as [r [E _]].
  destruct (lcoe_independent_of_size 3 Examples.lcoe_two_years r) as [r' [E' H]];
    [reflexivity | exact E |].
  exists r, r'. split; [exact E|]. split; [exact E'|].
  exact (proj1 (proj2 H)).
Defined.

(** ** The range of the performance factor *)

Lemma Qpower_unit_interval (b : Q) (n : Z) :
  0 <= b -> b <= 1 -> (0 <= n)%Z -> 0 <= b ^ n /\ b ^ n <= 1.
Proof.
  intros Hb0 Hb1 Hn. split; [apply Qpower_0_le; exact Hb0|].
  revert n Hn. apply natlike_ind.
  - simpl. apply Qle_refl.
  - intros n Hn IH. unfold Z.succ. rewrite Qpower_plus' by lia. simpl (b ^ 1).
    rewrite <- (Qmult_1_r 1). apply Qmult_le_compat_nonneg.
    + split; [apply Qpower_0_le; exact Hb0 | exact IH].
    + split; assumption.
Qed.

(** X8. A linear model with a non-negative rate, and an exponential model
    with a rate between 0 and 1, give a performance factor between 0 and 1
    at every year [>= 0], and exactly 1 at year 0. *)
Theorem performance_factor_in_unit_interval (m : DegradationModel.t) (year : Z) :
  (0 <= year)%Z ->
  0 <= DegradationModel.annual_degradation_rate m ->
  DegradationModel.degradation_type m = "linear"
  \/ (DegradationModel.degradation_type m = "exponential"
      /\ DegradationModel.annual_degradation_rate m <= 1) ->
  exists f,
    DegradationModel.performance_factor m year = OK f
    /\ 0 <= f /\ f <= 1
    /\ (year = 0%Z -> f == 1).
Proof.
  intros Hy Hrate [Hlin | [Hexp Hle]].
  - rewrite linear_performance_factor by exact Hlin.
    eexists. split; [reflexivity|]. split; [apply Q.le_max_l|]. split.
    + apply Q.max_lub; [discriminate|].
      apply Qle_minus_iff. ring_simplify.
      apply Qmult_le_0_compat; [|exact Hrate].
      change 0 with (inject_Z 0). rewrite <- Zle_Qle. exact Hy.
    + intros ->. simpl inject_Z. rewrite Q.max_r; [ring|].
      ring_simplify. discriminate.
  - rewrite exponential_performance_factor by assumption.
    eexists. split; [reflexivity|].
    assert (Hb0 : 0 <= 1 - DegradationModel.annual_degradation_rate m).
    { apply Qle_minus_iff in Hle. exact Hle. }
    assert (Hb1 : 1 - DegradationModel.annual_degradation_rate m <= 1).
    { apply Qle_minus_iff. ring_simplify. exact Hrate. }
    destruct (Qpower_unit_interval _ year Hb0 Hb1 Hy) as [H0 H1].
    split; [exact H0|]. split; [exact H1|].
    intros ->. reflexivity.
Qed.

Lemma performance_factor_in_unit_interval_witness :
  exists f,
    DegradationModel.performance_factor DegradationModel.default 30 = OK f
    /\ 0 <= f /\ f <= 1.
Proof.
  destruct (performance_factor_in_unit_interval DegradationModel.default 30)
    as [f [Hf [H0 [H1 _]]]].
  - lia.
  - vm_compute. discriminate.
  - left. reflexivity.
  - exists f. split; [exact Hf|]. split; assumption.
Defined.

(** ** The step variant as a product *)

Lemma skipn_at (rates : list Q) (i : nat) (rate : Q) :
  nth_error rates i = Some rate -> skipn i rates = rate :: skipn (S i) rates.
Proof.
  revert i. induction rates as [|r rs IH]; intros i H.
  - destruct i; discriminate H.
  - destruct i as [|i]; simpl in *.
    + injection H as ->. reflexivity.
    + apply IH. exact H.
Qed.

Lemma skipn_beyond (rates : list Q) (i : nat) :
  nth_error rates i = None -> skipn i rates = [] /\ skipn (S i) rates = [].
Proof.
  intros H. apply nth_error_None in H.
  split; apply skipn_all2; lia.
Qed.

Lemma step_loop_value (year : Z) (rates : list Q) (years : list Z) :
  forall (i : nat) (factor v : Q),
    DegradationModel.step_loop year rates i years factor = OK v ->
    v == factor * step_product year (combine years (skipn i rates)).
Proof.
  induction years as [|y ys IH]; intros i factor v H; simpl in H.
  - injection H as <-. simpl. ring.
  - destruct (year >=? y)%Z eqn:E.
    + destruct (nth_error rates i) as [rate|] eqn:En; [|discriminate H].
      rewrite (skipn_at rates i rate En). simpl. rewrite E.
      rewrite (IH (S i) _ v H). ring.
    + rewrite (IH (S i) _ v H).
      destruct (nth_error rates i) as [rate|] eqn:En.
      * rewrite (skipn_at rates i rate En). simpl. rewrite E. ring.
      * destruct (skipn_beyond rates i En) as [-> ->].
        destruct ys; simpl; ring.
Qed.

Lemma step_product_unit_interval (year : Z) (pairs : list (Z * Q)) :
  Forall (fun p => 0 <= snd p /\ snd p <= 1) pairs ->
  0 <= step_product year pairs /\ step_product year pairs <= 1.
Proof.
  induction pairs as [|[sy rate] rest IH]; intros H; simpl.
  - split; discriminate.
  - apply Forall_cons in H. destruct H as [[H0 H1] Hrest].
    destruct (IH Hrest) as [P0 P1]. simpl in H0, H1.
    assert (F : 0 <= (if (year >=? sy)%Z then 1 - rate else 1)
                /\ (if (year >=? sy)%Z then 1 - rate else 1) <= 1).
    { destruct (year >=? sy)%Z; [|split; discriminate]. split.
      - apply Qle_minus_iff in H1. exact H1.
      - apply Qle_minus_iff. ring_simplify. exact H0. }
    destruct F as [F0 F1]. split.
    + apply Qmult_le_0_compat; assumption.
    + apply Qle_trans with (1 * 1); [|discriminate].
      apply Qmult_le_compat_nonneg; split; assumption.
Qed.

Lemma step_product_antitone (year year' : Z) (pairs : list (Z * Q)) :
  (year <= year')%Z ->
  Forall (fun p => 0 <= snd p /\ snd p <= 1) pairs ->
  step_product year' pairs <= step_product year pairs.
Proof.
  intros Hy. induction pairs as [|[sy rate] rest IH]; intros H; simpl.
  - apply Qle_refl.
  - apply Forall_cons in H. destruct H as [[H0 H1] Hrest]. simpl in H0, H1.
    destruct (step_product_unit_interval year' rest Hrest) as [P0 _].
    assert (Hb0 : 0 <= 1 - rate) by (apply Qle_minus_iff in H1; exact H1).
    assert (Hb1 : 1 - rate <= 1)
      by (apply Qle_minus_iff; ring_simplify; exact H0).
    destruct (year >=? sy)%Z eqn:E.
    + replace (year' >=? sy)%Z with true
        by (symmetry; apply Z.geb_le; apply Z.geb_le in E; lia).
      apply Qmult_le_compat_nonneg.
      * split; [exact Hb0 | apply Qle_refl].
      * split; [exact P0 | exact (IH Hrest)].
    + apply Qmult_le_compat_nonneg.
      * split; [destruct (year' >=? sy)%Z; [exact Hb0 | discriminate]|].
        destruct (year' >=? sy)%Z; [exact Hb1 | apply Qle_refl].
      * split; [exact P0 | exact (IH Hrest)].
Qed.

Lemma Forall_combine_snd (years : list Z) (rates : list Q) (P : Q -> Prop) :
  Forall P rates -> Forall (fun p => P (snd p)) (combine years rates).
Proof.
  revert rates. induction years as [|y ys IH]; intros rates H; simpl.
  - apply Forall_nil. exact I.
  - destruct rates as [|r rs]; [apply Forall_nil; exact I|].
    apply Forall_cons in H. destruct H as [Hr Hrs].
    apply Forall_cons. split; [exact Hr | exact (IH rs Hrs)].
Qed.

Lemma step_performance_factor (m : DegradationModel.t) (year : Z) :
  DegradationModel.degradation_type m = "step" ->
  DegradationModel.performance_factor m year
  = DegradationModel.step_loop year (DegradationModel.step_rates m) 0
      (DegradationModel.step_years m) 1.
Proof.
  intros H. unfold DegradationModel.performance_factor. rewrite H. reflexivity.
Qed.

Lemma step_factor_value (m : DegradationModel.t) (year : Z) (f : Q) :
  DegradationModel.degradation_type m = "step" ->
  DegradationModel.performance_factor m year = OK f ->
  f == step_product year
         (combine (DegradationModel.step_years m) (DegradationModel.step_rates m)).
Proof.
  intros Hstep H. rewrite (step_performance_factor m year Hstep) in H.
  apply step_loop_value in H. simpl skipn in H. rewrite Qmult_1_l in H.
  exact H.
Qed.

(** X9. Whenever the step variant returns a factor, the factor is the product
    of [1 - rate] over the (trigger year, rate) pairs whose trigger year has
    been reached; a pair whose trigger year is not reached has no effect.
    With every rate between 0 and 1 the factor lies between 0 and 1. *)
Theorem step_factor_is_product (m : DegradationModel.t) (year : Z) (f : Q) :
  DegradationModel.degradation_type m = "step" ->
  DegradationModel.performance_factor m year = OK f ->
  f == step_product year
         (combine (DegradationModel.step_years m) (DegradationModel.step_rates m))
  /\ (Forall (fun rate => 0 <= rate /\ rate <= 1) (DegradationModel.step_rates m) ->
      0 <= f /\ f <= 1).
Proof.
  intros Hstep H. pose proof (step_factor_value m year f Hstep H) as Hv.
  split; [exact Hv|]. intros Hr. rewrite Hv.
  apply step_product_unit_interval.
  apply (Forall_combine_snd _ _ (fun rate => 0 <= rate /\ rate <= 1)). exact Hr.
Qed.

Lemma step_factor_is_product_witness :
  exists f,
    DegradationModel.performance_factor two_steps 7 = OK f
    /\ f == 9 # 10.
Proof.
  exists (1 * (1 - (1 # 10))). split; [reflexivity|].
  destruct (step_factor_is_product two_steps 7 (1 * (1 - (1 # 10))))
    as [H _]; [reflexivity | reflexivity |].
  rewrite H. reflexivity.
Defined.

(** Before its first trigger year a step model returns exactly 1, even
    when rates are missing: the rate list is only indexed once a trigger year
    has been reached. *)
Lemma step_factor_before_first_trigger (m : DegradationModel.t) (year : Z) :
  DegradationModel.degradation_type m = "step" ->
  Forall (fun step_year => (year < step_year)%Z) (DegradationModel.step_years m) ->
  DegradationModel.performance_factor m year = OK 1.
Proof.
  intros Hstep H. rewrite (step_performance_factor m year Hstep).
  generalize 0%nat as i. generalize 1 as factor.
  induction (DegradationModel.step_years m) as [|y ys IH]; intros factor i; simpl.
  - reflexivity.
  - apply Forall_cons in H. destruct H as [Hy Hys].
    replace (year >=? y)%Z with false
      by (symmetry; rewrite Z.geb_leb; apply Z.leb_gt; lia).
    apply IH. exact Hys.
Qed.


(** X10. A step model whose rates all lie between 0 and 1 never lets the
    performance factor increase: when it returns a factor at two years
    [year <= later], the later factor is at most the earlier one. *)
Theorem step_factor_monotone (m : DegradationModel.t) (year later : Z) (f g : Q) :
  DegradationModel.degradation_type m = "step" ->
  Forall (fun rate => 0 <= rate /\ rate <= 1) (DegradationModel.step_rates m) ->
  (year <= later)%Z ->
  DegradationModel.performance_factor m year = OK f ->
  DegradationModel.performance_factor m later = OK g ->
  g <= f.
Proof.
  intros Hstep Hr Hy Hf Hg.
  rewrite (step_factor_value m year f Hstep Hf).
  rewrite (step_factor_value m later g Hstep Hg).
  apply step_product_antitone; [exact Hy|].
  apply (Forall_combine_snd _ _ (fun rate => 0 <= rate /\ rate <= 1)). exact Hr.
Qed.

Lemma step_factor_monotone_witness :
  exists f g,
    DegradationModel.performance_factor two_steps 7 = OK f
    /\ DegradationModel.performance_factor two_steps 12 = OK g
    /\ g <= f.
Proof.
  exists (1 * (1 - (1 # 10))), (1 * (1 - (1 # 10)) * (1 - (2 # 10))).
  split; [reflexivity|]. split; [reflexivity|].
  apply (step_factor_monotone two_steps 7 12).
  - reflexivity.
  - repeat (apply Forall_cons; split; [split; discriminate|]).
    apply Forall_nil. exact I.
  - lia.
  - reflexivity.
  - reflexivity.
Defined.

(** ** The LCOS calculator: bounds, short lifetimes, divisions *)

Lemma lcos_metrics_OK (i : LCOSInputs.t) (r : LCOSResult.t) :
  LCOSCalculator.calculate i = OK r ->
  ~ LCOSInputs.cycles_per_year i == 0
  /\ LCOSResult.effective_cycles r
     = effective_lifetime i * LCOSInputs.cycles_per_year i
  /\ LCOSResult.end_of_life_capacity r
     = Qmax (5 # 10) (1 - effective_lifetime i * LCOSInputs.capacity_fade_per_year i)
  /\ LCOSResult.average_efficiency r
     = (LCOSInputs.round_trip_efficiency i
        + Qmax (7 # 10)
            (LCOSInputs.round_trip_efficiency i
             - effective_lifetime i * LCOSInputs.cycles_per_year i
               * LCOSInputs.efficiency_fade_per_cycle i)) / 2.
Proof.
  intros H.
  destruct (lcos_calculate_inv i r H)
    as (thr & opex & repl & fin & _ & _ & _ & _ & Hc & He & Ha & _).
  unfold LCOSCalculator._calculate_effective_cycles in Hc.
  unfold LCOSCalculator._calculate_end_of_life_capacity in He.
  unfold LCOSCalculator._calculate_average_efficiency in Ha.
  bind_inv Hc. bind_inv He. bind_inv Ha.
  apply actual_lifetime_OK in Ha0, Ha1, Ha2.
  destruct Ha0 as [Hnz ->], Ha1 as [_ ->], Ha2 as [_ ->].
  injection Hc as <-. injection He as <-. injection Ha as <-.
  split; [exact Hnz|]. repeat split; reflexivity.
Qed.

(** X11. Bounds of the reported LCOS metrics. The end-of-life capacity is
    never below 0.5 and the average efficiency never below the mean of the
    round-trip efficiency and 0.7. With [cycles_per_year > 0] the effective
    cycles exceed neither [cycle_life] nor [calendar_life_years *
    cycles_per_year]; with, in addition, non-negative fade and lifetimes the
    end-of-life capacity is at most 1.  These are statements of exact
    arithmetic, floats being idealised as rationals: in binary floating
    point the bound by [cycle_life] holds only up to rounding (with a cycle
    life of 21 and 300 cycles a year, [min(21 / 300.0, 15) * 300.0] is
    21.000000000000004). *)
Theorem lcos_metric_bounds (i : LCOSInputs.t) (r : LCOSResult.t) :
  LCOSCalculator.calculate i = OK r ->
  5 # 10 <= LCOSResult.end_of_life_capacity r
  /\ (LCOSInputs.round_trip_efficiency i + (7 # 10)) / 2
     <= LCOSResult.average_efficiency r
  /\ (0 < LCOSInputs.cycles_per_year i ->
      LCOSResult.effective_cycles r <= pynum_value (LCOSInputs.cycle_life i)
      /\ LCOSResult.effective_cycles r
         <= pynum_value (LCOSInputs.calendar_life_years i)
            * LCOSInputs.cycles_per_year i
      /\ (0 <= LCOSInputs.capacity_fade_per_year i ->
          0 <= pynum_value (LCOSInputs.cycle_life i) ->
          0 <= pynum_value (LCOSInputs.calendar_life_years i) ->
          LCOSResult.end_of_life_capacity r <= 1)).
Proof.
  intros H. destruct (lcos_metrics_OK i r H) as (Hnz & -> & -> & ->).
  split; [apply Q.le_max_l|]. split.
  - apply Qmult_le_compat_r; [|discriminate].
    apply Qplus_le_r. apply Q.le_max_l.
  - intros Hc. unfold effective_lifetime.
    set (cl := pynum_value (LCOSInputs.cycle_life i)).
    set (cal := pynum_value (LCOSInputs.calendar_life_years i)).
    set (cpy := LCOSInputs.cycles_per_year i) in *.
    split; [|split].
    + apply Qle_trans with (cl / cpy * cpy).
      * apply Qmult_le_compat_r; [apply Q.le_min_l | apply Qlt_le_weak; exact Hc].
      * assert (E : cl / cpy * cpy == cl) by (field; exact Hnz).
        rewrite E. apply Qle_refl.
    + apply Qmult_le_compat_r; [apply Q.le_min_r | apply Qlt_le_weak; exact Hc].
    + intros Hfade Hcl Hcal. apply Q.max_lub; [discriminate|].
      apply Qle_minus_iff. ring_simplify.
      apply Qmult_le_0_compat; [|exact Hfade].
      apply Q.min_glb; [|exact Hcal].
      apply Qle_shift_div_l; [exact Hc|]. rewrite Qmult_0_l. exact Hcl.
Qed.

Lemma lcos_metric_bounds_witness :
  exists r, LCOSCalculator.calculate Examples.lcos_cycle_limited = OK r
    /\ 5 # 10 <= LCOSResult.end_of_life_capacity r
    /\ LCOSResult.end_of_life_capacity r <= 1
    /\ LCOSResult.effective_cycles r <= 1000.
Proof.
  destruct (check_true _ _ (proj2 examples_return)) as [r [E _]].
  exists r. split; [exact E|].
  destruct (lcos_metric_bounds _ r E) as [H5 [_ H]].
  destruct H as [Hc [_ H1]]; [reflexivity|].
  split; [exact H5|]. split; [|exact Hc].
  apply H1; discriminate.
Defined.

(** *** Lifetimes under one year *)

Lemma to_int_below_one (x : Q) : x < 1 -> (Float.to_int x <= 0)%Z.
Proof.
  intros H. destruct (Qlt_le_dec x 0) as [Hneg|Hpos].
  - unfold Float.to_int. destruct x as [n d]. unfold Qlt in Hneg. simpl in *.
    assert (Hn : (n <= 0)%Z) by lia.
    replace 0%Z with (Z.quot 0 (Z.pos d)) by (apply Z.quot_0_l; lia).
    apply Z.quot_le_mono; lia.
  - rewrite (to_int_floor_nonneg x Hpos). unfold Float.floor.
    assert (Hf : inject_Z (Qfloor x) < inject_Z 1).
    { apply Qle_lt_trans with x; [apply Qfloor_le | exact H]. }
    rewrite <- Zlt_Qlt in Hf. lia.
Qed.

Lemma to_int_from_one (x : Q) : 1 <= x -> (1 <= Float.to_int x)%Z.
Proof.
  intros H.
  rewrite (to_int_floor_nonneg x) by (apply Qle_trans with 1; [discriminate | exact H]).
  unfold Float.floor. change 1%Z with (Qfloor 1). apply Qfloor_resp_le. exact H.
Qed.

Lemma lcos_throughput_OK (i : LCOSInputs.t) (thr : Q) :
  LCOSCalculator._calculate_lifetime_throughput i = OK thr ->
  ~ LCOSInputs.cycles_per_year i == 0
  /\ sum_loop (fun year =>
        let capacity_factor :=
          Qmax (5 # 10) (1 - inject_Z year * LCOSInputs.capacity_fade_per_year i) in
        let total_cycles := inject_Z year * LCOSInputs.cycles_per_year i in
        let efficiency_factor :=
          Qmax (7 # 10)
            (LCOSInputs.round_trip_efficiency i
             - total_cycles * LCOSInputs.efficiency_fade_per_cycle i) in
        let* ratio := Float.div efficiency_factor (LCOSInputs.round_trip_efficiency i) in
        let year_throughput :=
          LCOSInputs.system_size_kwh i * LCOSInputs.depth_of_discharge i
          * LCOSInputs.cycles_per_year i * LCOSInputs.round_trip_efficiency i / 1000
          * capacity_factor * ratio in
        let* disc :=
          Float.pow (1 + FinancingParameters.effective_discount_rate
                           (LCOSInputs.financing i)) year in
        Float.div year_throughput disc)
       (range (Float.to_int (effective_lifetime i))) 0 = OK thr.
Proof.
  unfold LCOSCalculator._calculate_lifetime_throughput. intros H.
  apply bind_OK in H. destruct H as [L [HL H]].
  apply actual_lifetime_OK in HL. destruct HL as [Hnz ->].
  split; [exact Hnz | exact H].
Qed.

(** X12. A storage system whose effective lifetime is under one year has
    no whole year of throughput: if [calculate] returns, the lifetime
    throughput is 0 and the levelized cost and its four components are 0,
    whatever the costs. *)
Theorem lcos_zero_below_one_year (i : LCOSInputs.t) (r : LCOSResult.t) :
  LCOSCalculator.calculate i = OK r ->
  effective_lifetime i < 1 ->
  LCOSResult.total_throughput_mwh r == 0
  /\ LCOSResult.lcos_usd_per_mwh r == 0
  /\ LCOSResult.lcos_usd_per_kwh r == 0
  /\ LCOSResult.capex_component r == 0
  /\ LCOSResult.opex_component r == 0
  /\ LCOSResult.replacement_component r == 0
  /\ LCOSResult.financing_component r == 0.
Proof.
  intros H HL.
  assert (Hk : LCOSResult.lcos_usd_per_kwh r = LCOSResult.lcos_usd_per_mwh r / 1000).
  { unfold LCOSCalculator.calculate in H. bind_inv H. injection H as <-. reflexivity. }
  destruct (lcos_calculate_inv i r H)
    as (thr & opex & repl & fin & Ht & _ & _ & _ & _ & _ & _
        & He & Hm & Hc & Ho & Hr & Hf).
  apply lcos_throughput_OK in Ht. destruct Ht as [_ Ht].
  rewrite range_nonpos in Ht by (apply to_int_below_one; exact HL).
  simpl in Ht. injection Ht as <-.
  rewrite Hk, Hm, Hc, Ho, Hr, Hf, He.
  repeat split; reflexivity.
Qed.

Lemma lcos_under_one_year_returns :
  Examples.check (LCOSCalculator.calculate lcos_under_one_year) (fun _ => true) = true.
Proof. vm_compute. reflexivity. Qed.

Lemma lcos_zero_below_one_year_witness :
  exists r, LCOSCalculator.calculate lcos_under_one_year = OK r
            /\ LCOSResult.lcos_usd_per_kwh r == 0.
Proof.
  destruct (check_true _ _ lcos_under_one_year_returns) as [r [E _]].
  exists r. split; [exact E|].
  destruct (lcos_zero_below_one_year _ r E) as (_ & _ & H & _); [reflexivity|].
  exact H.
Defined.

(** *** Unguarded divisions *)

Lemma range_from_one (n : Z) : (1 <= n)%Z -> exists rest, range n = 0%Z :: rest.
Proof.
  intros H. unfold range. destruct (Z.to_nat n) as [|k] eqn:E; [lia|].
  simpl. eexists. reflexivity.
Qed.

(** X13. Two divisions of the LCOS calculator are unguarded. With
    [cycles_per_year = 0], [calculate] raises [ZeroDivisionError] on every
    input. With [round_trip_efficiency = 0] (and [cycles_per_year] not 0) it
    raises [ZeroDivisionError] as soon as the effective lifetime reaches one
    year. *)
Theorem lcos_unguarded_divisions (i : LCOSInputs.t) :
  (LCOSInputs.cycles_per_year i == 0 ->
   LCOSCalculator.calculate i = Err ZeroDivisionError)
  /\ (~ LCOSInputs.cycles_per_year i == 0 ->
      LCOSInputs.round_trip_efficiency i == 0 ->
      1 <= effective_lifetime i ->
      LCOSCalculator.calculate i = Err ZeroDivisionError).
Proof.
  split.
  - intros Hc. unfold LCOSCalculator.calculate,
      LCOSCalculator._calculate_lifetime_throughput,
      LCOSCalculator.actual_lifetime, LCOSCalculator.cycle_limited_years.
    rewrite (div_zero _ _ Hc). reflexivity.
  - intros Hc Hrte HL. unfold LCOSCalculator.calculate,
      LCOSCalculator._calculate_lifetime_throughput,
      LCOSCalculator.actual_lifetime, LCOSCalculator.cycle_limited_years.
    rewrite (div_nonzero _ _ Hc). cbn [bind].
    fold (effective_lifetime i).
    destruct (range_from_one _ (to_int_from_one _ HL)) as [rest ->].
    cbn [sum_loop]. rewrite (div_zero _ _ Hrte). reflexivity.
Qed.

Lemma lcos_unguarded_divisions_witness :
  LCOSCalculator.calculate Examples.lcos_no_cycles = Err ZeroDivisionError
  /\ LCOSCalculator.calculate
       (with_round_trip_efficiency 0 Examples.lcos_cycle_limited)
     = Err ZeroDivisionError.
Proof.
  split.
  - apply (proj1 (lcos_unguarded_divisions Examples.lcos_no_cycles)). reflexivity.
  - apply (proj2 (lcos_unguarded_divisions
                    (with_round_trip_efficiency 0 Examples.lcos_cycle_limited))).
    + intros H. vm_compute in H. discriminate H.
    + reflexivity.
    + vm_compute. discriminate.
Defined.

(** ** The order of the sensitivity records *)

Lemma insert_by_elasticity_perm (r : SensitivityResult.t)
    (l : list SensitivityResult.t) :
  Permutation (r :: l) (SensitivityAnalyzer.insert_by_elasticity r l).
Proof.
  induction l as [|x rest IH]; simpl.
  - apply Permutation_refl.
  - destruct (Qle_bool _ _).
    + apply Permutation_refl.
    + apply perm_trans with (x :: r :: rest); [apply perm_swap|].
      apply perm_skip. exact IH.
Qed.

Lemma sort_by_elasticity_perm (l : list SensitivityResult.t) :
  Permutation l (SensitivityAnalyzer.sort_by_elasticity l).
Proof.
  unfold SensitivityAnalyzer.sort_by_elasticity.
  induction l as [|r rest IH]; simpl.
  - apply Permutation_refl.
  - apply perm_trans with (r :: fold_right SensitivityAnalyzer.insert_by_elasticity [] rest).
    + apply perm_skip. exact IH.
    + apply insert_by_elasticity_perm.
Qed.

Lemma elasticity_ge_trans (x y z : SensitivityResult.t) :
  elasticity_ge x y -> elasticity_ge y z -> elasticity_ge x z.
Proof. unfold elasticity_ge. intros H1 H2. exact (Qle_trans _ _ _ H2 H1). Qed.

Lemma insert_by_elasticity_sorted (r : SensitivityResult.t)
    (l : list SensitivityResult.t) :
  StronglySorted elasticity_ge l ->
  StronglySorted elasticity_ge (SensitivityAnalyzer.insert_by_elasticity r l).
Proof.
  induction l as [|x rest IH]; intros Hs; simpl.
  - apply SSorted_cons; [apply SSorted_nil | apply List.Forall_nil].
  - apply StronglySorted_inv in Hs. destruct Hs as [Hrest Hx].
    destruct (Qle_bool _ _) eqn:E.
    + apply Qle_bool_iff in E.
      apply SSorted_cons; [apply SSorted_cons; assumption|].
      apply List.Forall_cons; [exact E|].
      apply (List.Forall_impl _ (fun y Hy => elasticity_ge_trans r x y E Hy) Hx).
    + assert (Hxr : elasticity_ge x r).
      { unfold elasticity_ge. apply Qlt_le_weak. apply Qlt_bool_iff.
        unfold Qlt_bool. now rewrite E. }
      apply SSorted_cons; [exact (IH Hrest)|].
      apply (Permutation_Forall (insert_by_elasticity_perm r rest)).
      apply List.Forall_cons; assumption.
Qed.

Lemma sort_by_elasticity_sorted (l : list SensitivityResult.t) :
  StronglySorted elasticity_ge (SensitivityAnalyzer.sort_by_elasticity l).
Proof.
  unfold SensitivityAnalyzer.sort_by_elasticity.
  induction l as [|r rest IH]; simpl.
  - apply SSorted_nil.
  - apply insert_by_elasticity_sorted. exact IH.
Qed.

(** X14. The sort of the sensitivity records keeps exactly the records it
    was given (a permutation) and puts them in order of decreasing absolute
    elasticity. *)
Theorem sort_by_elasticity_sorts (l : list SensitivityResult.t) :
  Permutation l (SensitivityAnalyzer.sort_by_elasticity l)
  /\ StronglySorted elasticity_ge (SensitivityAnalyzer.sort_by_elasticity l).
Proof.
  split; [apply sort_by_elasticity_perm | apply sort_by_elasticity_sorted].
Qed.

(** ** One parameter of a sensitivity pass *)

Section ParameterRecord.
Import Heap.
Local Open Scope heap_scope.

Variable calculate_per_kwh : val -> M Q.

Lemma bindM_OK {A B : Type} (m : M A) (k : A -> M B) (h : list obj) (b : B) :
  fst (bindM m k h) = OK b ->
  exists a, fst (m h) = OK a /\ fst (k a (snd (m h))) = OK b.
Proof.
  unfold bindM. destruct (m h) as [[a|e] h']; simpl; intros H;
    [eauto | discriminate H].
Qed.

Lemma analyze_parameter_OK (base_inputs : val) (variation_percent base_lcoe : Q)
    (param : string) (h : list obj) (r : SensitivityResult.t) :
  fst (SensitivityAnalyzer.analyze_parameter calculate_per_kwh base_inputs
         variation_percent base_lcoe param h) = OK r ->
  let bv := pynum_value (SensitivityResult.base_value r) in
  let low := bv * (1 - variation_percent) in
  let high := bv * (1 + variation_percent) in
  SensitivityResult.parameter_name r = param
  /\ SensitivityResult.base_result r = base_lcoe
  /\ SensitivityResult.low_value r = low
  /\ SensitivityResult.high_value r = high
  /\ (if negb (Qeq_bool high low)
      then Float.div (SensitivityResult.high_result r - SensitivityResult.low_result r)
             (high - low)
      else OK 0) = OK (SensitivityResult.sensitivity r)
  /\ (if negb (Qeq_bool bv 0) && negb (Qeq_bool base_lcoe 0)
      then
        let* num :=
          Float.div (SensitivityResult.high_result r - SensitivityResult.low_result r)
            base_lcoe in
        let* den := Float.div (high - low) bv in
        Float.div num den
      else OK 0) = OK (SensitivityResult.elasticity r).
Proof.
  unfold SensitivityAnalyzer.analyze_parameter. intros H.
  repeat (apply bindM_OK in H; destruct H as [? [? H]]).
  unfold lift in *. simpl in *.
  injection H as <-. simpl. repeat split; assumption.
Qed.
End ParameterRecord.

Lemma Qeq_bool_true_iff (x y : Q) : Qeq_bool x y = true <-> x == y.
Proof. apply Qeq_bool_iff. Qed.

(** X15. What a sensitivity record holds. The low and high values are the
    base value times [1 - v] and [1 + v]. The sensitivity is the slope
    [(high_result - low_result) / (high_value - low_value)], or 0 when the
    two values coincide. When base value and base output are both non-zero
    the two values differ and the elasticity is the sensitivity times
    [base_value / base_result]; when one of them is zero the elasticity is 0.
    The relation between elasticity and sensitivity is one of exact
    arithmetic, floats being idealised as rationals: the code computes the
    elasticity as [((high_result - low_result) / base_result) /
    ((high_value - low_value) / base_value)], which in binary floating point
    equals the product only up to rounding. *)
Theorem sensitivity_record_relations
    (calculate_per_kwh : Heap.val -> Heap.M Q) (base_inputs : Heap.val)
    (variation_percent base_lcoe : Q) (param : string) (h : list Heap.obj)
    (r : SensitivityResult.t) :
  fst (SensitivityAnalyzer.analyze_parameter calculate_per_kwh base_inputs
         variation_percent base_lcoe param h) = OK r ->
  let bv := pynum_value (SensitivityResult.base_value r) in
  let slope := SensitivityResult.sensitivity r in
  SensitivityResult.parameter_name r = param
  /\ SensitivityResult.base_result r = base_lcoe
  /\ SensitivityResult.low_value r == bv * (1 - variation_percent)
  /\ SensitivityResult.high_value r == bv * (1 + variation_percent)
  /\ (~ SensitivityResult.high_value r == SensitivityResult.low_value r ->
      slope == (SensitivityResult.high_result r - SensitivityResult.low_result r)
               / (SensitivityResult.high_value r - SensitivityResult.low_value r))
  /\ (SensitivityResult.high_value r == SensitivityResult.low_value r -> slope == 0)
  /\ (~ bv == 0 -> ~ base_lcoe == 0 ->
      ~ SensitivityResult.high_value r == SensitivityResult.low_value r
      /\ SensitivityResult.elasticity r == slope * bv / base_lcoe)
  /\ (bv == 0 \/ base_lcoe == 0 -> SensitivityResult.elasticity r == 0).
Proof.
  intros H. apply analyze_parameter_OK in H. cbv zeta in H.
  destruct H as (Hname & Hbase & Hlow & Hhigh & Hs & He). cbv zeta.
  rewrite Hlow, Hhigh.
  set (bv := pynum_value (SensitivityResult.base_value r)) in *.
  set (low := bv * (1 - variation_percent)) in *.
  set (high := bv * (1 + variation_percent)) in *.
  split; [exact Hname|]. split; [exact Hbase|].
  split; [reflexivity|]. split; [reflexivity|].
  assert (Hslope_ne : ~ high == low ->
    SensitivityResult.sensitivity r
    = (SensitivityResult.high_result r - SensitivityResult.low_result r)
      / (high - low)).
  { intros Hne. destruct (Qeq_bool high low) eqn:E.
    - apply Qeq_bool_iff in E. contradiction.
    - simpl in Hs. apply div_OK in Hs. exact (proj2 Hs). }
  split; [intros Hne; rewrite (Hslope_ne Hne); reflexivity|].
  split.
  { intros Heq. apply Qeq_bool_iff in Heq. rewrite Heq in Hs. simpl in Hs.
    injection Hs as <-. reflexivity. }
  split.
  - intros Hbv Hbl.
    destruct (Qeq_bool bv 0) eqn:E1; [apply Qeq_bool_iff in E1; contradiction|].
    destruct (Qeq_bool base_lcoe 0) eqn:E2; [apply Qeq_bool_iff in E2; contradiction|].
    simpl in He. bind_inv He.
    apply div_OK in Ha, Ha0, He.
    destruct Ha as [_ ->], Ha0 as [_ ->], He as [Hden He].
    assert (Hne : ~ high == low).
    { intros Heq. apply Hden. rewrite Heq. field. exact Hbv. }
    split; [exact Hne|]. rewrite He, (Hslope_ne Hne). field.
    repeat split; try assumption.
    intros Hz. apply Hne. rewrite <- (Qplus_0_l low), <- Hz. ring.
  - intros Hz.
    assert (E : negb (Qeq_bool bv 0) && negb (Qeq_bool base_lcoe 0) = false).
    { destruct Hz as [Hz|Hz]; apply Qeq_bool_iff in Hz; rewrite Hz; simpl;
        [reflexivity | apply andb_false_r]. }
    rewrite E in He. injection He as <-. reflexivity.
Qed.

Lemma capex_record_at_20_percent :
  Examples.check
    (Examples.run_parameter SensitivityAnalyzer.lcoe_usd_per_kwh_of
       Examples.lcoe_caller "capex_per_kw" (2 # 10))
    (fun r => Qeq_bool (SensitivityResult.low_value r) 1200
              && Qeq_bool (SensitivityResult.high_value r) 1800)
  = true.
Proof. vm_compute. reflexivity. Qed.

Lemma run_parameter_OK (calculate_per_kwh : Heap.val -> Heap.M Q)
    (caller : Result Heap.val * list Heap.obj) (param : string)
    (variation_percent : Q) (r : SensitivityResult.t) :
  Examples.run_parameter calculate_per_kwh caller param variation_percent = OK r ->
  exists base_inputs h base_lcoe,
    fst (SensitivityAnalyzer.analyze_parameter calculate_per_kwh base_inputs
           variation_percent base_lcoe param h) = OK r.
Proof.
  unfold Examples.run_parameter. destruct caller as [[base|e] h]; [|discriminate].
  intros E. apply bind_OK in E. destruct E as [base_lcoe [_ E]].
  now exists base, h, base_lcoe.
Qed.

Lemma sensitivity_record_relations_witness :
  exists r,
    Examples.run_parameter SensitivityAnalyzer.lcoe_usd_per_kwh_of
      Examples.lcoe_caller "capex_per_kw" (2 # 10) = OK r
    /\ SensitivityResult.parameter_name r = "capex_per_kw"
    /\ SensitivityResult.low_value r
       == pynum_value (SensitivityResult.base_value r) * (1 - (2 # 10)).
Proof.
  destruct (check_true _ _ capex_record_at_20_percent) as [r [E _]].
  exists r. split; [exact E|].
  destruct (run_parameter_OK _ _ _ _ _ E) as (base & h & base_lcoe & E').
  destruct (sensitivity_record_relations _ _ _ _ _ _ r E') as (Hn & _ & Hl & _).
  split; [exact Hn | exact Hl].
Defined.

(** ** A sensitivity pass as a whole *)

Section Batch.
Import Heap.
Local Open Scope heap_scope.

Variable calculate_per_kwh : val -> M Q.

Lemma analyze_parameters_returns (base_inputs : val)
    (variation_percent base_lcoe : Q) (parameters : list string) :
  forall (results : list SensitivityResult.t) (h : list obj),
  exists added,
    fst (SensitivityAnalyzer.analyze_parameters calculate_per_kwh base_inputs
           variation_percent base_lcoe parameters results h)
    = OK (results ++ added)
    /\ (length added <= length parameters)%nat
    /\ Forall (fun r => In (SensitivityResult.parameter_name r) parameters) added.
Proof.
  induction parameters as [|param rest IH]; intros results h.
  - exists []. simpl. rewrite app_nil_r. repeat split; [lia | apply Forall_nil; exact I].
  - cbn [SensitivityAnalyzer.analyze_parameters]. unfold bindM at 1, try_except.
    destruct (bindM _ _ h) as [[rs|e] h1] eqn:E.
    + assert (Hrs : exists r, rs = results ++ [r]
                              /\ SensitivityResult.parameter_name r = param).
      { pose proof (f_equal fst E) as E1. simpl in E1.
        apply bindM_OK in E1. destruct E1 as [r [Hr Hret]].
        simpl in Hret. injection Hret as <-.
        exists r. split; [reflexivity|].
        exact (proj1 (analyze_parameter_OK _ _ _ _ _ _ r Hr)). }
      destruct Hrs as [r [-> Hname]].
      destruct (IH (results ++ [r]) h1) as [added [Hrun [Hlen Hall]]].
      exists (r :: added). rewrite Hrun, <- app_assoc. simpl.
      split; [reflexivity|]. split; [lia|].
      apply Forall_cons. split; [left; symmetry; exact Hname|].
      apply (Forall_impl _ _ _ Hall). intros x Hx. right. exact Hx.
    + simpl. destruct (IH results h1) as [added [Hrun [Hlen Hall]]].
      exists added. rewrite Hrun. split; [reflexivity|]. split; [lia|].
      apply (Forall_impl _ _ _ Hall). intros x Hx. right. exact Hx.
Qed.

Lemma analyze_sensitivity_outcome (default_parameters : list string)
    (base_inputs : val) (parameters : option (list string))
    (variation_percent : Q) (h : list obj) :
  let chosen := match parameters with
                | None => default_parameters
                | Some ps => ps
                end in
  match fst (calculate_per_kwh base_inputs h) with
  | OK _ =>
      exists results,
        fst (SensitivityAnalyzer.analyze_sensitivity calculate_per_kwh
               default_parameters base_inputs parameters variation_percent h)
        = OK results
        /\ (length results <= length chosen)%nat
        /\ Forall (fun r => In (SensitivityResult.parameter_name r) chosen) results
        /\ StronglySorted elasticity_ge results
  | Err e =>
      fst (SensitivityAnalyzer.analyze_sensitivity calculate_per_kwh
             default_parameters base_inputs parameters variation_percent h)
      = Err e
  end.
Proof.
  cbv zeta. unfold SensitivityAnalyzer.analyze_sensitivity, bindM.
  destruct (calculate_per_kwh base_inputs h) as [[base_lcoe|e] h1]; simpl;
    [|reflexivity].
  destruct (analyze_parameters_returns base_inputs variation_percent base_lcoe
              (match parameters with
               | None => default_parameters
               | Some ps => ps
               end) [] h1) as [added [Hrun [Hlen Hall]]].
  simpl in Hrun.
  destruct (SensitivityAnalyzer.analyze_parameters _ _ _ _ _ _ h1)
    as [[rs|e] h2]; simpl in *; [|discriminate Hrun].
  injection Hrun as ->.
  pose proof (sort_by_elasticity_perm added) as Hperm.
  pose proof (sort_by_elasticity_sorted added) as Hsorted.
  eexists. split; [reflexivity|]. split; [|split].
  - rewrite <- (Permutation_length Hperm). exact Hlen.
  - apply (Permutation_Forall Hperm).
    apply Forall_forall. rewrite Forall_forall in Hall. exact Hall.
  - exact Hsorted.
Qed.
End Batch.

(** X16. A sensitivity pass fails only with its base case. If the base
    calculation raises, the analysis raises the same exception. If it
    returns, the analysis returns a list, whatever happens to the individual
    parameters: at most one record per requested parameter, each bearing the
    name of a requested parameter, in order of decreasing absolute
    elasticity. A parameter that cannot be analysed is left out. *)
Theorem sensitivity_pass_outcome (base_inputs : Heap.val)
    (parameters : option (list string)) (variation_percent : Q)
    (h : list Heap.obj) :
  match fst (SensitivityAnalyzer.lcoe_usd_per_kwh_of base_inputs h) with
  | OK _ =>
      exists results,
        fst (SensitivityAnalyzer.analyze_lcoe_sensitivity base_inputs parameters
               variation_percent h) = OK results
        /\ (length results
            <= length (default ["capex_per_kw"; "capacity_factor";
                                "system_lifetime_years"; "fixed_om_per_kw_year";
                                "financing.discount_rate"] parameters))%nat
        /\ Forall (fun r =>
             In (SensitivityResult.parameter_name r)
                (default ["capex_per_kw"; "capacity_factor";
                          "system_lifetime_years"; "fixed_om_per_kw_year";
                          "financing.discount_rate"] parameters)) results
        /\ StronglySorted elasticity_ge results
  | Err e =>
      fst (SensitivityAnalyzer.analyze_lcoe_sensitivity base_inputs parameters
             variation_percent h) = Err e
  end
  /\ match fst (SensitivityAnalyzer.lcos_usd_per_kwh_of base_inputs h) with
     | OK _ =>
         exists results,
           fst (SensitivityAnalyzer.analyze_lcos_sensitivity base_inputs parameters
                  variation_percent h) = OK results
           /\ (length results
               <= length (default ["capex_per_kwh"; "round_trip_efficiency";
                                   "cycle_life"; "cycles_per_year";
                                   "capacity_fade_per_year";
                                   "financing.discount_rate"] parameters))%nat
           /\ Forall (fun r =>
                In (SensitivityResult.parameter_name r)
                   (default ["capex_per_kwh"; "round_trip_efficiency";
                             "cycle_life"; "cycles_per_year";
                             "capacity_fade_per_year";
                             "financing.discount_rate"] parameters)) results
           /\ StronglySorted elasticity_ge results
     | Err e =>
         fst (SensitivityAnalyzer.analyze_lcos_sensitivity base_inputs parameters
                variation_percent h) = Err e
     end.
Proof.
  split.
  - pose proof (analyze_sensitivity_outcome SensitivityAnalyzer.lcoe_usd_per_kwh_of
                  ["capex_per_kw"; "capacity_factor"; "system_lifetime_years";
                   "fixed_om_per_kw_year"; "financing.discount_rate"]
                  base_inputs parameters variation_percent h) as H.
    cbv zeta in H. destruct parameters; exact H.
  - pose proof (analyze_sensitivity_outcome SensitivityAnalyzer.lcos_usd_per_kwh_of
                  ["capex_per_kwh"; "round_trip_efficiency"; "cycle_life";
                   "cycles_per_year"; "capacity_fade_per_year";
                   "financing.discount_rate"]
                  base_inputs parameters variation_percent h) as H.
    cbv zeta in H. destruct parameters; exact H.
Qed.

(** ** Dotted parameter paths *)

Lemma split_dot_nonempty (s : string) : split_dot s <> [].
Proof.
  induction s as [|c rest IH]; simpl; [discriminate|].
  destruct (split_dot rest) as [|w ws]; [discriminate|].
  destruct (Ascii.eqb c "."); discriminate.
Qed.

(** X17. Splitting a parameter path at its dots loses nothing: the pieces
    are never an empty list, none of them contains a dot, and joining them
    with dots gives the path back. A path without a dot is its own single
    piece. *)
Theorem split_dot_round_trip (s : string) :
  split_dot s <> []
  /\ Forall (fun piece => has_dot piece = false) (split_dot s)
  /\ String.concat "." (split_dot s) = s
  /\ (has_dot s = false -> split_dot s = [s]).
Proof.
  split; [apply split_dot_nonempty|].
  induction s as [|c rest IH]; simpl.
  - split; [apply Forall_cons; split; [reflexivity | apply Forall_nil; exact I]|].
    split; reflexivity.
  - destruct IH as [Hall [Hcat Hone]].
    pose proof (split_dot_nonempty rest) as Hne.
    destruct (split_dot rest) as [|w ws]; [contradiction|].
    apply Forall_cons in Hall. destruct Hall as [Hw Hws].
    destruct (Ascii.eqb c ".") eqn:E.
    + apply Ascii.eqb_eq in E. subst c. split; [|split].
      * apply Forall_cons. split; [reflexivity|].
        apply Forall_cons. split; assumption.
      * simpl in *. rewrite Hcat. reflexivity.
      * simpl. discriminate.
    + split; [|split].
      * apply Forall_cons. split; [simpl; rewrite E; exact Hw | exact Hws].
      * simpl in *. destruct ws; rewrite <- Hcat; reflexivity.
      * simpl. intros Hd. specialize (Hone Hd). injection Hone as -> ->. reflexivity.
Qed.

Lemma split_dot_round_trip_witness :
  split_dot "capex_per_kw" = ["capex_per_kw"]
  /\ String.concat "." (split_dot "financing.discount_rate")
     = "financing.discount_rate".
Proof.
  split.
  - apply (proj2 (proj2 (proj2 (split_dot_round_trip "capex_per_kw")))).
    reflexivity.
  - exact (proj1 (proj2 (proj2 (split_dot_round_trip "financing.discount_rate")))).
Defined.

(** ** Monte Carlo: the sample columns and the outcome of a run *)

Section MonteCarloColumns.
Import ParameterDistribution.

Variable rng : Type.
Variable normal uniform : Q -> Q -> nat -> rng -> list Q * rng.
Variable triangular : Q -> Q -> Q -> nat -> rng -> list Q * rng.
Variable n_samples : nat.

Hypothesis normal_length :
  forall a b n g, length (fst (normal a b n g)) = n.
Hypothesis uniform_length :
  forall a b n g, length (fst (uniform a b n g)) = n.
Hypothesis triangular_length :
  forall a b c n g, length (fst (triangular a b c n g)) = n.

Lemma generate_parameter_samples_columns
    (distributions : list ParameterDistribution.t) :
  forall (samples : gmap string (list Q)) (g : rng),
    (forall k col, samples !! k = Some col -> length col = n_samples) ->
    let m := fst (MonteCarloAnalyzer._generate_parameter_samples rng normal
                    uniform triangular n_samples distributions samples g) in
    (forall k col, m !! k = Some col -> length col = n_samples)
    /\ (forall k, is_Some (samples !! k) -> is_Some (m !! k))
    /\ (forall d, In d distributions -> is_Some (m !! name d)).
Proof.
  induction distributions as [|dist rest IH]; intros samples g Hlen; cbv zeta.
  - simpl. split; [exact Hlen|]. split; [auto|]. intros d [].
  - cbn [MonteCarloAnalyzer._generate_parameter_samples].
    set (drawn :=
      if String.eqb (distribution_type dist) "normal" then _
      else if String.eqb (distribution_type dist) "uniform" then _
      else if String.eqb (distribution_type dist) "triangular" then _
      else _).
    assert (Hdrawn : length (fst drawn) = n_samples).
    { unfold drawn.
      destruct (String.eqb _ "normal"); [apply normal_length|].
      destruct (String.eqb _ "uniform"); [apply uniform_length|].
      destruct (String.eqb _ "triangular"); [apply triangular_length|].
      simpl. apply repeat_length. }
    destruct drawn as [col g']. simpl in Hdrawn.
    specialize (IH (<[name dist := col]> samples) g').
    cbv zeta in IH. destruct IH as [H1 [H2 H3]].
    { intros k c. rewrite lookup_insert.
      destruct (decide (name dist = k)); [intros [= <-]; exact Hdrawn | apply Hlen]. }
    split; [exact H1|]. split.
    + intros k Hk. apply H2. rewrite lookup_insert.
      destruct (decide (name dist = k)); [eexists; reflexivity | exact Hk].
    + intros d [<- | Hd]; [|exact (H3 d Hd)].
      apply H2. rewrite lookup_insert_eq. eexists. reflexivity.
Qed.
End MonteCarloColumns.

(** X18. Whatever the generator, as long as each draw returns the requested
    number of values: after [_generate_parameter_samples] every declared
    distribution has a column of samples under its name, of length
    [n_samples]. (An unknown distribution type gets the base value repeated.)
    So the lookups of [_create_sample_inputs] never miss. *)
Theorem every_distribution_has_a_column (rng : Type)
    (normal uniform : Q -> Q -> nat -> rng -> list Q * rng)
    (triangular : Q -> Q -> Q -> nat -> rng -> list Q * rng)
    (n_samples : nat) (distributions : list ParameterDistribution.t) (g : rng)
    (d : ParameterDistribution.t) :
  (forall a b n g, length (fst (normal a b n g)) = n) ->
  (forall a b n g, length (fst (uniform a b n g)) = n) ->
  (forall a b c n g, length (fst (triangular a b c n g)) = n) ->
  In d distributions ->
  exists column,
    fst (MonteCarloAnalyzer._generate_parameter_samples rng normal uniform
           triangular n_samples distributions ∅ g)
      !! ParameterDistribution.name d = Some column
    /\ length column = n_samples.
Proof.
  intros Hn Hu Ht Hd.
  destruct (generate_parameter_samples_columns rng normal uniform triangular
              n_samples Hn Hu Ht distributions ∅ g) as [H1 [_ H3]].
  { intros k col H. rewrite lookup_empty in H. discriminate H. }
  destruct (H3 d Hd) as [column Hc].
  exists column. split; [exact Hc | exact (H1 _ _ Hc)].
Qed.

Lemma every_distribution_has_a_column_witness :
  exists column,
    fst (MonteCarloAnalyzer._generate_parameter_samples unit constant_draw
           constant_draw constant_draw3 3 [capex_distribution] ∅ tt)
      !! "capex_per_kw" = Some column
    /\ length column = 3%nat.
Proof.
  apply (every_distribution_has_a_column unit constant_draw constant_draw
           constant_draw3 3 [capex_distribution] tt capex_distribution).
  - intros a b n g. apply repeat_length.
  - intros a b n g. apply repeat_length.
  - intros a b c n g. apply repeat_length.
  - left. reflexivity.
Defined.

Section MonteCarloOutcome.
Import Heap.
Local Open Scope heap_scope.

Variable rng : Type.
Variable normal uniform : Q -> Q -> nat -> rng -> list Q * rng.
Variable triangular : Q -> Q -> Q -> nat -> rng -> list Q * rng.
Variable n_samples : nat.
Variable calculate_per_kwh : val -> M Q.

Lemma sample_loop_returns (base_inputs : val)
    (distributions : list ParameterDistribution.t)
    (parameter_samples : gmap string (list Q)) (indices : list nat) :
  forall (samples : list (option Q)) (h : list obj),
  exists added,
    fst (MonteCarloAnalyzer.sample_loop calculate_per_kwh base_inputs
           distributions parameter_samples indices samples h)
    = OK (samples ++ added)
    /\ length added = length indices.
Proof.
  induction indices as [|i rest IH]; intros samples h.
  - exists []. simpl. rewrite app_nil_r. split; reflexivity.
  - cbn [MonteCarloAnalyzer.sample_loop]. unfold bindM at 1, try_except.
    destruct (bindM _ _ h) as [[rs|e] h1] eqn:E.
    + assert (Hrs : exists x, rs = samples ++ [Some x]).
      { pose proof (f_equal fst E) as E1. simpl in E1.
        apply bindM_OK in E1. destruct E1 as [s [_ E1]].
        apply bindM_OK in E1. destruct E1 as [x [_ E1]].
        simpl in E1. injection E1 as <-. eexists. reflexivity. }
      destruct Hrs as [x ->].
      destruct (IH (samples ++ [Some x]) h1) as [added [Hrun Hlen]].
      exists (Some x :: added). rewrite Hrun, <- app_assoc. simpl.
      split; [reflexivity | lia].
    + simpl. destruct (IH (samples ++ [None]) h1) as [added [Hrun Hlen]].
      exists (None :: added). rewrite Hrun, <- app_assoc. simpl.
      split; [reflexivity | lia].
Qed.

Lemma omap_id_length (l : list (option Q)) : (length (omap id l) <= length l)%nat.
Proof.
  induction l as [|[x|] rest IH]; csimpl; lia.
Qed.

Lemma analyze_uncertainty_outcome (base_inputs : val)
    (distributions : list ParameterDistribution.t) (g : rng) (h : list obj) :
  (exists valid,
      fst (MonteCarloAnalyzer.analyze_uncertainty rng normal uniform triangular
             n_samples calculate_per_kwh base_inputs distributions g h) = OK valid
      /\ valid <> []
      /\ (length valid <= n_samples)%nat)
  \/ fst (MonteCarloAnalyzer.analyze_uncertainty rng normal uniform triangular
            n_samples calculate_per_kwh base_inputs distributions g h)
     = Err ValueError.
Proof.
  unfold MonteCarloAnalyzer.analyze_uncertainty.
  destruct (MonteCarloAnalyzer._generate_parameter_samples _ _ _ _ _ _ _ _)
    as [parameter_samples g'].
  destruct (sample_loop_returns base_inputs distributions parameter_samples
              (seq 0 n_samples) [] h) as [added [Hrun Hlen]].
  simpl in Hrun. rewrite length_seq in Hlen.
  unfold bindM.
  destruct (MonteCarloAnalyzer.sample_loop _ _ _ _ _ _ h) as [[rs|e] h1];
    simpl in Hrun; [|discriminate Hrun].
  injection Hrun as ->.
  pose proof (omap_id_length added) as Hle.
  destruct (omap id added) as [|x valid] eqn:E.
  - right. reflexivity.
  - left. exists (x :: valid). split; [reflexivity|].
    split; [discriminate | lia].
Qed.
End MonteCarloOutcome.

(** X19. Once the samples have been drawn, a Monte Carlo run fails in one
    way only. For every generator that returns its draws, whatever the
    distributions and the inputs, [analyze_lcoe_uncertainty] and
    [analyze_lcos_uncertainty] either return a non-empty array of at most
    [n_samples] valid samples or raise [ValueError] (no valid sample); the
    failure of single samples never aborts the run.  The draws themselves
    come before the loop and outside of its [try]: an exception of numpy on
    drawing ([ValueError] for a negative standard deviation or for a
    triangular distribution whose bounds coincide or are out of order,
    [OverflowError] for a range that is not finite) ends the run before any
    sample is evaluated.  That exit is not covered: the generator is a
    total function here. *)
Theorem monte_carlo_outcome (rng : Type)
    (normal uniform : Q -> Q -> nat -> rng -> list Q * rng)
    (triangular : Q -> Q -> Q -> nat -> rng -> list Q * rng)
    (n_samples : nat) (base_inputs : Heap.val)
    (distributions : list ParameterDistribution.t) (g : rng)
    (h : list Heap.obj) :
  ((exists valid,
       fst (MonteCarloAnalyzer.analyze_lcoe_uncertainty rng normal uniform
              triangular n_samples base_inputs distributions g h) = OK valid
       /\ valid <> [] /\ (length valid <= n_samples)%nat)
   \/ fst (MonteCarloAnalyzer.analyze_lcoe_uncertainty rng normal uniform
             triangular n_samples base_inputs distributions g h) = Err ValueError)
  /\ ((exists valid,
          fst (MonteCarloAnalyzer.analyze_lcos_uncertainty rng normal uniform
                 triangular n_samples base_inputs distributions g h) = OK valid
          /\ valid <> [] /\ (length valid <= n_samples)%nat)
      \/ fst (MonteCarloAnalyzer.analyze_lcos_uncertainty rng normal uniform
                triangular n_samples base_inputs distributions g h)
         = Err ValueError).
Proof.
  split; apply analyze_uncertainty_outcome.
Qed.

(** ** Instances on the heap: construction, reading and overrides *)

Section HeapRuns.
Import Heap Instances Overrides.
Local Open Scope heap_scope.
Local Open Scope nat_scope.

(** An object allocated after [h] is found behind its offset. *)
Lemma lookup_beyond (h tail : list obj) (k : nat) :
  (h ++ tail) !! (length h + k) = tail !! k.
Proof.
  rewrite lookup_app_r by lia. f_equal. lia.
Qed.

Lemma lookup_first_new (h tail : list obj) :
  (h ++ tail) !! length h = tail !! 0.
Proof.
  rewrite lookup_app_r by lia. f_equal. lia.
Qed.

Lemma decode_all_ints (l : list Z) : decode_all int_of_val (map VInt l) = OK l.
Proof. induction l as [|z l IH]; simpl; [reflexivity | now rewrite IH]. Qed.

Lemma decode_all_floats (l : list Q) :
  decode_all float_of_val (map VFloat l) = OK l.
Proof. induction l as [|q l IH]; simpl; [reflexivity | now rewrite IH]. Qed.

Lemma pynum_round_trip (n : pynum) : pynum_of_val (val_of_pynum n) = OK n.
Proof. destruct n; reflexivity. Qed.

Lemma new_LCOEInputs_run (i : LCOEInputs.t) (h : list obj) :
  new_LCOEInputs i h = (OK (VRef (length h + 5)), lcoe_heap h i).
Proof.
  unfold new_LCOEInputs, new_DegradationModel, new_FinancingParameters, new_list,
    bindM, alloc, ret, lcoe_heap, lcoe_parts, degradation_objects,
    financing_objects, lcoe_attrs. simpl.
  rewrite !length_app. simpl.
  repeat rewrite <- app_assoc. simpl.
  replace (length h + 1 + 1) with (length h + 2) by lia.
  replace (length h + 2 + 1) with (length h + 3) by lia.
  replace (length h + 3 + 1) with (length h + 4) by lia.
  replace (length h + 4 + 1) with (length h + 5) by lia.
  reflexivity.
Qed.

Lemma new_LCOSInputs_run (i : LCOSInputs.t) (h : list obj) :
  new_LCOSInputs i h = (OK (VRef (length h + 4)), lcos_heap h i).
Proof.
  unfold new_LCOSInputs, new_LoadProfile, new_FinancingParameters, new_list,
    bindM, alloc, ret, lcos_heap, lcos_parts, load_profile_objects,
    financing_objects, lcos_attrs. simpl.
  rewrite !length_app. simpl.
  repeat rewrite <- app_assoc. simpl.
  replace (length h + 1 + 1) with (length h + 2) by lia.
  replace (length h + 2 + 1) with (length h + 3) by lia.
  replace (length h + 3 + 1) with (length h + 4) by lia.
  reflexivity.
Qed.

Lemma read_LCOEInputs_run (i : LCOEInputs.t) (h : list obj) :
  read_LCOEInputs (lcoe_heap h i) (VRef (length h + 5)) = OK (lcoe_view i).
Proof.
  destruct i as [c s fo vo fu cf life [rate type years rates] [] tech uc].
  unfold lcoe_heap, lcoe_parts, degradation_objects, financing_objects, lcoe_attrs.
  unfold read_LCOEInputs, instance_attrs.
  rewrite lookup_beyond. cbn.
  rewrite pynum_round_trip. cbn.
  unfold read_DegradationModel, read_FinancingParameters, instance_attrs,
    list_items.
  rewrite !lookup_beyond. cbn.
  rewrite lookup_first_new, lookup_beyond. cbn.
  rewrite decode_all_ints, decode_all_floats. reflexivity.
Qed.

Lemma read_LCOSInputs_run (i : LCOSInputs.t) (h : list obj) :
  read_LCOSInputs (lcos_heap h i) (VRef (length h + 4)) = OK (lcos_view i).
Proof.
  destruct i as [c s p fo vo rte cyc life cal dod cfade efade [] [] tech uc].
  unfold lcos_heap, lcos_parts, load_profile_objects, financing_objects, lcos_attrs.
  unfold read_LCOSInputs, instance_attrs.
  rewrite lookup_beyond. cbn.
  rewrite !pynum_round_trip. cbn.
  unfold read_FinancingParameters, instance_attrs.
  rewrite !lookup_beyond. cbn. reflexivity.
Qed.

Lemma lcoe_calculate_view (i : LCOEInputs.t) :
  LCOECalculator.calculate (lcoe_view i) = LCOECalculator.calculate i.
Proof. destruct i as [c s fo vo fu cf life d [] tech uc]. reflexivity. Qed.

Lemma lcos_calculate_view (i : LCOSInputs.t) :
  LCOSCalculator.calculate (lcos_view i) = LCOSCalculator.calculate i.
Proof.
  destruct i as [c s p fo vo rte cyc life cal dod cfade efade [] lp tech uc].
  reflexivity.
Qed.

Lemma lcoe_calculate_run (i : LCOEInputs.t) (h : list obj) :
  lcoe_calculate (VRef (length h + 5)) (lcoe_heap h i)
  = (LCOECalculator.calculate i, lcoe_heap h i).
Proof.
  unfold lcoe_calculate. rewrite read_LCOEInputs_run. cbn [bind].
  now rewrite lcoe_calculate_view.
Qed.

Lemma lcos_calculate_run (i : LCOSInputs.t) (h : list obj) :
  lcos_calculate (VRef (length h + 4)) (lcos_heap h i)
  = (LCOSCalculator.calculate i, lcos_heap h i).
Proof.
  unfold lcos_calculate. rewrite read_LCOSInputs_run. cbn [bind].
  now rewrite lcos_calculate_view.
Qed.
End HeapRuns.

(** ** What the calculators read of an instance *)

Section Views.
Import Heap Instances.
Local Open Scope heap_scope.

Lemma lcoe_constructed_run (i : LCOEInputs.t) (h : list obj) :
  bindM (new_LCOEInputs i) lcoe_calculate h
  = (LCOECalculator.calculate i, lcoe_heap h i).
Proof.
  unfold bindM. rewrite new_LCOEInputs_run. apply lcoe_calculate_run.
Qed.

Lemma lcos_constructed_run (i : LCOSInputs.t) (h : list obj) :
  bindM (new_LCOSInputs i) lcos_calculate h
  = (LCOSCalculator.calculate i, lcos_heap h i).
Proof.
  unfold bindM. rewrite new_LCOSInputs_run. apply lcos_calculate_run.
Qed.

(** X20. The calculators read an instance field by field and never look
    at [technology_type], [use_case] or [financing.depreciation_schedule],
    nor, for storage, at [power_rating_kw] or [load_profile]: calling
    [calculate] on a freshly constructed instance gives the outcome that
    the other fields determine, so two inputs that agree on those give the
    same outcome (the same result or the same exception), whatever else is
    on the heap. *)
Theorem calculators_ignore_unread_fields (i j : LCOEInputs.t)
    (a b : LCOSInputs.t) (h1 h2 : list obj) :
  lcoe_view i = lcoe_view j ->
  lcos_view a = lcos_view b ->
  fst (bindM (new_LCOEInputs i) lcoe_calculate h1) = LCOECalculator.calculate i
  /\ fst (bindM (new_LCOEInputs i) lcoe_calculate h1)
     = fst (bindM (new_LCOEInputs j) lcoe_calculate h2)
  /\ fst (bindM (new_LCOSInputs a) lcos_calculate h1) = LCOSCalculator.calculate a
  /\ fst (bindM (new_LCOSInputs a) lcos_calculate h1)
     = fst (bindM (new_LCOSInputs b) lcos_calculate h2).
Proof.
  intros E F. rewrite !lcoe_constructed_run, !lcos_constructed_run. cbn [fst].
  split; [reflexivity|]. split; [|split; [reflexivity|]].
  - rewrite <- (lcoe_calculate_view i), <- (lcoe_calculate_view j). now rewrite E.
  - rewrite <- (lcos_calculate_view a), <- (lcos_calculate_view b). now rewrite F.
Qed.
End Views.

Lemma calculators_ignore_unread_fields_witness :
  fst (Heap.bindM (Instances.new_LCOEInputs LCOEInputs.default)
         Instances.lcoe_calculate Instances.enum_members)
  = fst (Heap.bindM (Instances.new_LCOEInputs wind_without_schedule)
           Instances.lcoe_calculate (Instances.enum_members ++ [Heap.PyList []]))
  /\ fst (Heap.bindM (Instances.new_LCOSInputs LCOSInputs.default)
            Instances.lcos_calculate Instances.enum_members)
     = fst (Heap.bindM (Instances.new_LCOSInputs no_power_rating)
              Instances.lcos_calculate (Instances.enum_members ++ [Heap.PyList []])).
Proof.
  destruct (calculators_ignore_unread_fields LCOEInputs.default wind_without_schedule
              LCOSInputs.default no_power_rating Instances.enum_members
              (Instances.enum_members ++ [Heap.PyList []]))
    as (_ & H1 & _ & H2); [reflexivity | reflexivity |].
  split; [exact H1 | exact H2].
Defined.

(** ** Overrides ([custom_params]) *)

Section CustomParams.
Import Heap Instances Overrides.
Local Open Scope heap_scope.

Lemma getattr_instance (h : list obj) (l : nat) (cls : string)
    (attrs : list (string * val)) (name : string) :
  h !! l = Some (Instance cls attrs) ->
  getattr (VRef l) name h
  = (match assoc_get name attrs with
     | Some x => OK x
     | None => Err AttributeError
     end, h).
Proof.
  intros Hl. unfold getattr, bindM, load. rewrite Hl.
  destruct (assoc_get name attrs); reflexivity.
Qed.

Lemma setattr_instance (h : list obj) (l : nat) (cls : string)
    (attrs : list (string * val)) (name : string) (x : val) :
  h !! l = Some (Instance cls attrs) ->
  setattr (VRef l) name x h
  = (OK tt, <[l := Instance cls (assoc_set name x attrs)]> h).
Proof.
  intros Hl. unfold setattr, bindM, load. rewrite Hl. reflexivity.
Qed.

Lemma hasattr_instance (h : list obj) (l : nat) (cls : string)
    (attrs : list (string * val)) (name : string) :
  h !! l = Some (Instance cls attrs) ->
  hasattr (VRef l) name h
  = (OK (match assoc_get name attrs with Some _ => true | None => false end), h).
Proof.
  intros Hl. unfold hasattr, try_except, bindM.
  rewrite (getattr_instance h l cls attrs name Hl).
  destruct (assoc_get name attrs); reflexivity.
Qed.

Lemma assoc_get_None (name : string) (attrs : list (string * val)) :
  assoc_get name attrs = None <-> ~ In name (map fst attrs).
Proof.
  induction attrs as [|[k v] rest IH]; simpl.
  - tauto.
  - destruct (String.eqb_spec k name) as [->|Hne].
    + split; [discriminate | intros H; exfalso; apply H; now left].
    + rewrite IH. split; [intros H [E|Hin]; [exact (Hne E) | exact (H Hin)] | tauto].
Qed.

Lemma overridden_nil (attrs : list (string * val)) : overridden [] attrs = attrs.
Proof.
  unfold overridden. rewrite <- (map_id attrs) at 2.
  apply map_ext. intros [k v]. reflexivity.
Qed.

(** An override for a name that is not an attribute changes nothing. *)
Lemma overridden_unknown (key : string) (value : val)
    (rest attrs : list (string * val)) :
  ~ In key (map fst attrs) ->
  overridden ((key, value) :: rest) attrs = overridden rest attrs.
Proof.
  intros Hnot. unfold overridden. apply map_ext_in. intros [k v] Hin. simpl.
  destruct (last_override k rest); [reflexivity|].
  destruct (String.eqb_spec key k) as [->|Hne]; [|reflexivity].
  exfalso. apply Hnot. apply in_map_iff. exists (k, v). now split.
Qed.

(** An override for an attribute is the assignment followed by the other
    overrides. *)
Lemma overridden_known (key : string) (value old : val)
    (rest attrs : list (string * val)) :
  NoDup (map fst attrs) ->
  assoc_get key attrs = Some old ->
  overridden rest (assoc_set key value attrs)
  = overridden ((key, value) :: rest) attrs.
Proof.
  unfold overridden.
  induction attrs as [|[k v0] tail IH]; simpl; intros Hnd Hget; [discriminate|].
  apply NoDup_cons in Hnd. destruct Hnd as [Hk Hnd].
  rewrite list_elem_of_In in Hk.
  destruct (String.eqb_spec k key) as [->|Hne].
  - simpl. rewrite String.eqb_refl. f_equal.
    + destruct (last_override key rest); reflexivity.
    + apply map_ext_in. intros [k' v'] Hin. simpl.
      destruct (last_override k' rest); [reflexivity|].
      destruct (String.eqb_spec key k') as [->|_]; [|reflexivity].
      exfalso. apply Hk. apply in_map_iff. exists (k', v'). now split.
  - simpl. rewrite (IH Hnd Hget). f_equal.
    destruct (last_override k rest); [reflexivity|].
    destruct (String.eqb_spec key k) as [E|_]; [|reflexivity].
    exfalso. apply Hne. now symmetry.
Qed.

Lemma assoc_set_names (key : string) (value : val) (attrs : list (string * val)) :
  assoc_get key attrs <> None ->
  map fst (assoc_set key value attrs) = map fst attrs.
Proof.
  induction attrs as [|[k v] rest IH]; simpl; [congruence|].
  destruct (String.eqb_spec k key) as [->|Hne]; simpl; [reflexivity|].
  intros H. now rewrite IH.
Qed.

Lemma apply_custom_params_run (custom_params : list (string * val)) :
  forall (h : list obj) (l : nat) (cls : string) (attrs : list (string * val)),
    h !! l = Some (Instance cls attrs) ->
    NoDup (map fst attrs) ->
    apply_custom_params (VRef l) custom_params h
    = (OK tt, <[l := Instance cls (overridden custom_params attrs)]> h).
Proof.
  induction custom_params as [|[key value] rest IH]; intros h l cls attrs Hl Hnd.
  - simpl. rewrite overridden_nil. unfold ret.
    now rewrite (list_insert_id h l _ Hl).
  - cbn [apply_custom_params]. unfold bindM at 1.
    rewrite (hasattr_instance h l cls attrs key Hl).
    destruct (assoc_get key attrs) as [old|] eqn:Hget.
    + unfold bindM at 1. rewrite (setattr_instance h l cls attrs key value Hl).
      assert (Hl' : <[l := Instance cls (assoc_set key value attrs)]> h !! l
                    = Some (Instance cls (assoc_set key value attrs))).
      { apply list_lookup_insert_eq. now apply lookup_lt_Some in Hl. }
      rewrite (IH _ l cls _ Hl').
      * rewrite list_insert_insert_eq.
        now rewrite (overridden_known key value old rest attrs Hnd Hget).
      * rewrite assoc_set_names; [exact Hnd | congruence].
    + unfold bindM at 1. unfold ret at 1.
      rewrite (IH h l cls attrs Hl Hnd).
      rewrite overridden_unknown; [reflexivity|].
      now apply assoc_get_None.
Qed.

(** X21. The override loop
    [for key, value in custom_params.items():
       if hasattr(inputs, key): setattr(inputs, key, value)]
    on an instance never raises and changes one object only, the
    instance itself: it keeps its class and its attribute names in their
    order, and each attribute holds the last value that [custom_params]
    gives for its name, or its old value if there is none.  Keys that are
    not attribute names (also dotted paths such as
    [financing.discount_rate]) are dropped, no attribute is added, values
    are stored unchecked, and nested objects are left alone. *)
Theorem custom_params_override_known_attributes
    (custom_params : list (string * val)) (h : list obj) (l : nat)
    (cls : string) (attrs : list (string * val)) :
  h !! l = Some (Instance cls attrs) ->
  NoDup (map fst attrs) ->
  apply_custom_params (VRef l) custom_params h
  = (OK tt, <[l := Instance cls (overridden custom_params attrs)]> h)
  /\ map fst (overridden custom_params attrs) = map fst attrs
  /\ (forall key old,
        assoc_get key attrs = Some old ->
        assoc_get key (overridden custom_params attrs)
        = Some (default old (last_override key custom_params)))
  /\ (forall l', l' <> l ->
        snd (apply_custom_params (VRef l) custom_params h) !! l' = h !! l').
Proof.
  intros Hl Hnd.
  pose proof (apply_custom_params_run custom_params h l cls attrs Hl Hnd) as Hrun.
  split; [exact Hrun|]. split; [|split].
  - unfold overridden. rewrite map_map. simpl. reflexivity.
  - intros key old. unfold overridden. clear.
    induction attrs as [|[k v] rest IH]; simpl; [discriminate|].
    destruct (String.eqb_spec k key) as [->|Hne].
    + intros H. injection H as <-. reflexivity.
    + exact IH.
  - intros l' Hne. rewrite Hrun. cbn [snd].
    apply list_lookup_insert_ne. congruence.
Qed.
End CustomParams.

Lemma custom_params_witness :
  Overrides.apply_custom_params (Heap.VRef 13)
    [("capex_per_kw", Heap.VFloat 1800); ("financing.discount_rate", Heap.VFloat 1);
     ("colour", Heap.VStr "red"); ("capex_per_kw", Heap.VFloat 2000)]
    (lcoe_heap Instances.enum_members LCOEInputs.default)
  = (OK tt, lcoe_heap Instances.enum_members (with_capex 2000 LCOEInputs.default)).
Proof.
  refine (eq_trans
    (proj1 (custom_params_override_known_attributes _
              (lcoe_heap Instances.enum_members LCOEInputs.default)
              13 "LCOEInputs" (lcoe_attrs 8 LCOEInputs.default) eq_refl _)) _).
  - apply (bool_decide_unpack _). vm_compute. exact I.
  - reflexivity.
Defined.

(** ** When the storage calculator returns *)

Lemma lcos_stages_succeed (i : LCOSInputs.t) :
  well_formed_lcos i ->
  exists cycle throughput opex repl,
    LCOSCalculator.cycle_limited_years i = OK cycle
    /\ cycle = pynum_value (LCOSInputs.cycle_life i) / LCOSInputs.cycles_per_year i
    /\ LCOSCalculator._calculate_lifetime_throughput i = OK throughput
    /\ LCOSCalculator._calculate_opex_npv i = OK opex
    /\ LCOSCalculator._calculate_replacement_cost i = OK repl
    /\ (Qlt_bool cycle (pynum_value (LCOSInputs.calendar_life_years i)) = false ->
        repl = 0)
    /\ (Qlt_bool cycle (pynum_value (LCOSInputs.calendar_life_years i)) = true ->
        repl = LCOSInputs.capex_per_kwh i * LCOSInputs.system_size_kwh i * (7 # 10)
               / (1 + FinancingParameters.effective_discount_rate
                        (LCOSInputs.financing i)) ^ Float.to_int cycle)
    /\ forall capex, succeeds (LCOSCalculator._calculate_financing_cost i capex).
Proof.
  intros ([n Hn] & Hcyc & Hrte & Hd).
  assert (Hcycle : LCOSCalculator.cycle_limited_years i
                   = OK (pynum_value (LCOSInputs.cycle_life i)
                         / LCOSInputs.cycles_per_year i)).
  { unfold LCOSCalculator.cycle_limited_years. now apply div_nonzero. }
  assert (Hthr : succeeds (LCOSCalculator._calculate_lifetime_throughput i)).
  { unfold LCOSCalculator._calculate_lifetime_throughput,
      LCOSCalculator.actual_lifetime.
    rewrite Hcycle. cbn [bind].
    apply sum_loop_succeeds. intros y Hy. apply range_nonneg in Hy.
    rewrite (div_nonzero _ _ Hrte). cbn [bind].
    rewrite pow_nonneg by lia. cbn [bind].
    rewrite div_nonzero; [eexists; reflexivity|].
    now apply Qpower_not_0. }
  assert (Hopex : succeeds (LCOSCalculator._calculate_opex_npv i)).
  { unfold LCOSCalculator._calculate_opex_npv. rewrite Hn.
    now apply npv_series_succeeds. }
  assert (Hrepl : exists repl,
             LCOSCalculator._calculate_replacement_cost i = OK repl
             /\ (Qlt_bool (pynum_value (LCOSInputs.cycle_life i)
                           / LCOSInputs.cycles_per_year i)
                   (pynum_value (LCOSInputs.calendar_life_years i)) = false ->
                 repl = 0)
             /\ (Qlt_bool (pynum_value (LCOSInputs.cycle_life i)
                           / LCOSInputs.cycles_per_year i)
                   (pynum_value (LCOSInputs.calendar_life_years i)) = true ->
                 repl = LCOSInputs.capex_per_kwh i * LCOSInputs.system_size_kwh i
                        * (7 # 10)
                        / (1 + FinancingParameters.effective_discount_rate
                                 (LCOSInputs.financing i))
                          ^ Float.to_int (pynum_value (LCOSInputs.cycle_life i)
                                          / LCOSInputs.cycles_per_year i))).
  { unfold LCOSCalculator._calculate_replacement_cost. rewrite Hcycle. cbn [bind].
    destruct (Qlt_bool _ _).
    - rewrite (pow_nonzero _ _ Hd). cbn [bind].
      rewrite div_nonzero by (now apply Qpower_not_0).
      eexists. split; [reflexivity|]. split; [discriminate | reflexivity].
    - exists 0. split; [reflexivity|]. split; [reflexivity | discriminate]. }
  destruct Hthr as [thr Hthr]. destruct Hopex as [opex Hopex].
  destruct Hrepl as [repl [Hrepl [Hzero Hvalue]]].
  exists (pynum_value (LCOSInputs.cycle_life i) / LCOSInputs.cycles_per_year i),
    thr, opex, repl. repeat split; try assumption.
  intros capex. unfold LCOSCalculator._calculate_financing_cost. rewrite Hn.
  now apply npv_series_succeeds.
Qed.

Lemma lcos_calculate_succeeds (i : LCOSInputs.t) :
  well_formed_lcos i ->
  exists r, LCOSCalculator.calculate i = OK r
            /\ (Qlt_bool (pynum_value (LCOSInputs.cycle_life i)
                          / LCOSInputs.cycles_per_year i)
                  (pynum_value (LCOSInputs.calendar_life_years i)) = false ->
                LCOSResult.replacement_cost_npv r = 0
                /\ LCOSResult.replacement_component r == 0)
            /\ (Qlt_bool (pynum_value (LCOSInputs.cycle_life i)
                          / LCOSInputs.cycles_per_year i)
                  (pynum_value (LCOSInputs.calendar_life_years i)) = true ->
                LCOSResult.replacement_cost_npv r
                = LCOSInputs.capex_per_kwh i * LCOSInputs.system_size_kwh i * (7 # 10)
                  / (1 + FinancingParameters.effective_discount_rate
                           (LCOSInputs.financing i))
                    ^ Float.to_int (pynum_value (LCOSInputs.cycle_life i)
                                    / LCOSInputs.cycles_per_year i))
            /\ LCOSResult.total_capex r = LCOSCalculator._calculate_total_capex i
            /\ (LCOSCalculator._calculate_total_capex i == 0 ->
                LCOSResult.capex_component r == 0).
Proof.
  intros W.
  destruct (lcos_stages_succeed i W)
    as (cycle & thr & opex & repl & Hc & -> & Ht & Ho & Hr & Hzero & Hvalue & Hfin).
  destruct (Hfin (LCOSCalculator._calculate_total_capex i)) as [fin Hf].
  unfold LCOSCalculator.calculate. rewrite Ht, Ho, Hr, Hf. cbn [bind].
  unfold LCOSCalculator._calculate_effective_cycles,
    LCOSCalculator._calculate_end_of_life_capacity,
    LCOSCalculator._calculate_average_efficiency, LCOSCalculator.actual_lifetime.
  rewrite Hc. cbn [bind].
  eexists. split; [reflexivity|]. split.
  - intros Hlt. cbn.
    rewrite (Hzero Hlt). split; [reflexivity|].
    destruct (positive thr); [|reflexivity]. unfold Qdiv. ring.
  - split; [intros Hlt; cbn; exact (Hvalue Hlt)|].
    split; [reflexivity|]. intros Hcapex. cbn.
    destruct (positive thr); [|reflexivity]. rewrite Hcapex. reflexivity.
Qed.

(** X22. [LCOSCalculator.calculate] returns a result on every input with an
    integer [calendar_life_years], a non-zero [cycles_per_year], a non-zero
    [round_trip_efficiency] and [1 + effective_discount_rate] other than
    zero: these are the only things it can trip over. *)
Theorem lcos_calculate_returns (i : LCOSInputs.t) :
  well_formed_lcos i -> succeeds (LCOSCalculator.calculate i).
Proof.
  intros W. destruct (lcos_calculate_succeeds i W) as [r [Hr _]]. now exists r.
Qed.

Lemma default_lcos_well_formed : well_formed_lcos LCOSInputs.default.
Proof.
  unfold well_formed_lcos. simpl. repeat split.
  - now exists 15%Z.
  - discriminate.
  - discriminate.
  - discriminate.
Qed.

Lemma lcos_calculate_returns_witness : succeeds (LCOSCalculator.calculate LCOSInputs.default).
Proof. apply (lcos_calculate_returns LCOSInputs.default). apply default_lcos_well_formed. Defined.

(** ** Tesla solar products *)

Section TopObject.
Import Heap Instances Overrides.
Local Open Scope heap_scope.

(** The instance at the top of the heap, above [k] objects of its own. *)
Lemma top_lookup (h parts : list obj) (o : obj) (k : nat) :
  length parts = k -> (h ++ parts ++ [o]) !! (length h + k)%nat = Some o.
Proof.
  intros <-. rewrite lookup_beyond. apply list_lookup_middle. reflexivity.
Qed.

Lemma top_insert (h parts : list obj) (o o' : obj) (k : nat) :
  length parts = k ->
  <[(length h + k)%nat := o']> (h ++ parts ++ [o]) = h ++ parts ++ [o'].
Proof.
  intros <-. rewrite insert_app_r. f_equal.
  rewrite <- (Nat.add_0_r (length parts)), insert_app_r. reflexivity.
Qed.

Lemma getattr_top (h parts : list obj) (cls : string)
    (attrs : list (string * val)) (k : nat) (name : string) :
  length parts = k ->
  getattr (VRef (length h + k)) name (h ++ parts ++ [Instance cls attrs])
  = (match assoc_get name attrs with
     | Some x => OK x
     | None => Err AttributeError
     end, h ++ parts ++ [Instance cls attrs]).
Proof. intros Hk. apply (getattr_instance _ _ cls). now apply top_lookup. Qed.

Lemma setattr_top (h parts : list obj) (cls : string)
    (attrs : list (string * val)) (k : nat) (name : string) (x : val) :
  length parts = k ->
  setattr (VRef (length h + k)) name x (h ++ parts ++ [Instance cls attrs])
  = (OK tt, h ++ parts ++ [Instance cls (assoc_set name x attrs)]).
Proof.
  intros Hk.
  rewrite (setattr_instance _ _ cls attrs name x (top_lookup h parts _ k Hk)).
  now rewrite top_insert.
Qed.

Lemma custom_params_top (h parts : list obj) (cls : string)
    (attrs : list (string * val)) (k : nat)
    (custom_params : list (string * val)) :
  length parts = k ->
  NoDup (map fst attrs) ->
  apply_custom_params (VRef (length h + k)) custom_params
    (h ++ parts ++ [Instance cls attrs])
  = (OK tt, h ++ parts ++ [Instance cls (overridden custom_params attrs)]).
Proof.
  intros Hk Hnd.
  rewrite (apply_custom_params_run custom_params _ _ cls attrs
             (top_lookup h parts _ k Hk) Hnd).
  now rewrite top_insert.
Qed.

Lemma lcoe_attrs_NoDup (n : nat) (i : LCOEInputs.t) :
  NoDup (map fst (lcoe_attrs n i)).
Proof. apply (bool_decide_unpack _). vm_compute. exact I. Qed.

Lemma lcos_attrs_NoDup (n : nat) (i : LCOSInputs.t) :
  NoDup (map fst (lcos_attrs n i)).
Proof. apply (bool_decide_unpack _). vm_compute. exact I. Qed.
End TopObject.

Section TeslaSolar.
Import Heap Instances Overrides TeslaLCOECalculator.
Local Open Scope heap_scope.

Lemma regional_adjustments_run (region : string) (i : LCOEInputs.t)
    (h : list obj) :
  _apply_regional_adjustments (VRef (length h + 5)) region (lcoe_heap h i)
  = (OK (VRef (length h + 5)),
     lcoe_heap h match dict_get region regional_factors with
                 | Some factors => with_regional_factors factors i
                 | None => i
                 end).
Proof.
  unfold _apply_regional_adjustments.
  destruct (dict_get region regional_factors) as [[m1 m2]|]; [|reflexivity].
  unfold imul_attr, bindM, lcoe_heap.
  rewrite getattr_top by reflexivity.
  cbn [lcoe_attrs assoc_get String.eqb Ascii.eqb Bool.eqb lift mul_float fst snd].
  rewrite setattr_top by reflexivity.
  rewrite getattr_top by reflexivity.
  cbn [lcoe_attrs assoc_get assoc_set String.eqb Ascii.eqb Bool.eqb lift
         mul_float fst snd].
  rewrite setattr_top by reflexivity.
  reflexivity.
Qed.

(** What [calculate_tesla_solar_panels] comes to without overrides. *)
Lemma tesla_solar_panels_run (system_size_kw : Q) (use_case : UseCase)
    (region : string) (h : list obj) :
  calculate_tesla_solar_panels system_size_kw use_case region [] h
  = (LCOECalculator.calculate (tesla_solar_inputs system_size_kw use_case region),
     lcoe_heap h (tesla_solar_inputs system_size_kw use_case region)).
Proof.
  unfold calculate_tesla_solar_panels, bindM.
  rewrite new_LCOEInputs_run, regional_adjustments_run.
  cbn [apply_custom_params ret].
  apply lcoe_calculate_run.
Qed.

(** ... and with overrides, up to the call of [calculate]. *)
Lemma tesla_solar_panels_overridden (system_size_kw : Q) (use_case : UseCase)
    (region : string) (custom_params : list (string * val)) (h : list obj) :
  let i := tesla_solar_inputs system_size_kw use_case region in
  calculate_tesla_solar_panels system_size_kw use_case region custom_params h
  = lcoe_calculate (VRef (length h + 5))
      (h ++ lcoe_parts (length h) i
         ++ [Instance "LCOEInputs" (overridden custom_params (lcoe_attrs (length h) i))]).
Proof.
  intros i. unfold calculate_tesla_solar_panels, bindM.
  rewrite new_LCOEInputs_run, regional_adjustments_run.
  fold (tesla_solar_inputs system_size_kw use_case region). fold i.
  unfold lcoe_heap.
  rewrite custom_params_top; [reflexivity | reflexivity | apply lcoe_attrs_NoDup].
Qed.
End TeslaSolar.

Section TeslaSolarProperties.
Import Heap Instances Overrides TeslaLCOECalculator.
Local Open Scope heap_scope.

Lemma tesla_solar_inputs_fields (size : Q) (use_case : UseCase) (region : string) :
  let i := tesla_solar_inputs size use_case region in
  LCOEInputs.system_lifetime_years i = PyInt 25
  /\ LCOEInputs.system_size_kw i = size
  /\ LCOEInputs.financing i = FinancingParameters.default
  /\ LCOEInputs.degradation i = linear_degradation (4 # 1000).
Proof.
  unfold tesla_solar_inputs.
  destruct (dict_get region regional_factors); repeat split.
Qed.

Lemma default_discount_factor :
  ~ 1 + FinancingParameters.effective_discount_rate FinancingParameters.default == 0.
Proof. discriminate. Qed.

Lemma lcoe_stages_before_division (i : LCOEInputs.t) :
  (exists n, LCOEInputs.system_lifetime_years i = PyInt n) ->
  ~ 1 + FinancingParameters.effective_discount_rate (LCOEInputs.financing i) == 0 ->
  (DegradationModel.degradation_type (LCOEInputs.degradation i) = "step" ->
   (length (DegradationModel.step_years (LCOEInputs.degradation i))
    <= length (DegradationModel.step_rates (LCOEInputs.degradation i)))%nat) ->
  LCOEInputs.system_size_kw i == 0 ->
  LCOECalculator.calculate i = Err ZeroDivisionError.
Proof.
  intros Hn Hd Hstep Hsize.
  assert (He : succeeds (LCOECalculator._calculate_lifetime_energy i
                           (LCOECalculator._calculate_annual_energy i))).
  { destruct Hn as [n Hn].
    unfold LCOECalculator._calculate_lifetime_energy. rewrite Hn. simpl.
    apply sum_loop_succeeds. intros y Hy. apply range_nonneg in Hy.
    destruct (performance_factor_succeeds (LCOEInputs.degradation i) y) as [f Hf];
      [lia | exact Hstep |].
    rewrite Hf. simpl. rewrite pow_nonneg by lia. simpl.
    rewrite div_nonzero; [eexists; reflexivity|]. now apply Qpower_not_0. }
  destruct He as [e He].
  destruct (lcoe_stages_succeed i Hn Hd) as ([opex Ho] & Hf & Hfi).
  destruct (Hf (LCOECalculator._calculate_annual_energy i)) as [fuel Hfuel].
  destruct (Hfi (LCOECalculator._calculate_total_capex i)) as [fin Hfin].
  unfold LCOECalculator.calculate. rewrite He, Ho, Hfuel, Hfin. simpl.
  now rewrite (lcoe_size_zero_divisor i Hsize).
Qed.

Lemma tesla_solar_well_formed (size : Q) (use_case : UseCase) (region : string) :
  ~ size == 0 -> well_formed_lcoe (tesla_solar_inputs size use_case region).
Proof.
  intros Hsize.
  destruct (tesla_solar_inputs_fields size use_case region) as (Hl & Hs & Hf & Hd).
  unfold well_formed_lcoe. rewrite Hl, Hs, Hf, Hd. repeat split.
  - now exists 25%Z.
  - exact Hsize.
  - exact default_discount_factor.
  - discriminate.
Qed.

(** X23. [calculate_tesla_solar_panels] without overrides returns a result
    for every system size other than zero, in every use case and every
    region (known or not); for a size of zero it raises
    [ZeroDivisionError].  The caller's objects are still on the heap. *)
Theorem tesla_solar_panels_returns (system_size_kw : Q) (use_case : UseCase)
    (region : string) (h : list obj) :
  let run := calculate_tesla_solar_panels system_size_kw use_case region [] h in
  Frame.extends h (snd run)
  /\ ((system_size_kw == 0 /\ fst run = Err ZeroDivisionError)
      \/ (~ system_size_kw == 0 /\ succeeds (fst run))).
Proof.
  cbv zeta. rewrite tesla_solar_panels_run. cbn [fst snd]. split.
  - unfold Frame.extends, lcoe_heap. now rewrite take_app_length.
  - destruct (Qeq_dec system_size_kw 0) as [Hz|Hnz].
    + left. split; [exact Hz|].
      destruct (tesla_solar_inputs_fields system_size_kw use_case region)
        as (Hl & Hs & Hf & Hd).
      apply lcoe_stages_before_division.
      * rewrite Hl. now exists 25%Z.
      * rewrite Hf. exact default_discount_factor.
      * rewrite Hd. discriminate.
      * now rewrite Hs.
    + right. split; [exact Hnz|].
      apply lcoe_calculate_succeeds. now apply tesla_solar_well_formed.
Qed.

(** X24. A region that is not in the table of regional factors is left
    without adjustment, which is what the baseline region ["FL"] gets (its
    two factors are 1), and not what the default region ["CA"] gets: with
    the same size, use case and overrides, the outcome and the final heap
    are those of region ["FL"]. *)
Theorem tesla_solar_unknown_region_is_baseline (system_size_kw : Q)
    (use_case : UseCase) (region : string)
    (custom_params : list (string * val)) (h : list obj) :
  dict_get region regional_factors = None ->
  calculate_tesla_solar_panels system_size_kw use_case region custom_params h
  = calculate_tesla_solar_panels system_size_kw use_case "FL" custom_params h.
Proof.
  intros Hnone. rewrite !tesla_solar_panels_overridden. cbv zeta.
  unfold tesla_solar_inputs. rewrite Hnone.
  destruct use_case; reflexivity.
Qed.

(** X25. The levelized cost of Tesla solar panels does not depend on the
    size of the system: for a size other than zero and any [k > 0], the
    calls with sizes [system_size_kw] and [k * system_size_kw] both return,
    with the same cost per MWh and per kWh, while total capex and lifetime
    energy are multiplied by [k].  This is a statement of exact
    arithmetic, floats being idealised as rationals: in binary floating
    point the costs of the two sizes agree only up to rounding
    (133.02477595190035 at 7 kW and 133.02477595190038 at 21 kW). *)
Theorem tesla_solar_cost_independent_of_size (k system_size_kw : Q)
    (use_case : UseCase) (region : string) (h h' : list obj) :
  0 < k ->
  ~ system_size_kw == 0 ->
  exists r r',
    fst (calculate_tesla_solar_panels system_size_kw use_case region [] h) = OK r
    /\ fst (calculate_tesla_solar_panels (k * system_size_kw) use_case region [] h')
       = OK r'
    /\ LCOEResult.lcoe_usd_per_mwh r' == LCOEResult.lcoe_usd_per_mwh r
    /\ LCOEResult.lcoe_usd_per_kwh r' == LCOEResult.lcoe_usd_per_kwh r
    /\ LCOEResult.total_capex r' == k * LCOEResult.total_capex r
    /\ LCOEResult.total_energy_mwh r' == k * LCOEResult.total_energy_mwh r.
Proof.
  intros Hk Hsize. rewrite !tesla_solar_panels_run. cbn [fst].
  destruct (lcoe_calculate_succeeds _
              (tesla_solar_well_formed system_size_kw use_case region Hsize))
    as [r Hr].
  destruct (lcoe_scale_invariant k _ r Hk Hr) as (r' & Hr' & H).
  exists r, r'. split; [exact Hr|]. split.
  - rewrite <- Hr'. f_equal. unfold tesla_solar_inputs.
    destruct (dict_get region regional_factors); reflexivity.
  - decompose [and] H. repeat split; assumption.
Qed.
End TeslaSolarProperties.

Lemma tesla_solar_unknown_region_witness :
  TeslaLCOECalculator.calculate_tesla_solar_panels 7 RESIDENTIAL "WA"
    [("capex_per_kw", Heap.VFloat 2000)] Instances.enum_members
  = TeslaLCOECalculator.calculate_tesla_solar_panels 7 RESIDENTIAL "FL"
      [("capex_per_kw", Heap.VFloat 2000)] Instances.enum_members.
Proof.
  apply (tesla_solar_unknown_region_is_baseline 7 RESIDENTIAL "WA").
  reflexivity.
Defined.

Lemma tesla_solar_cost_independent_of_size_witness :
  exists r r',
    fst (TeslaLCOECalculator.calculate_tesla_solar_panels 7 COMMERCIAL "TX" []
           Instances.enum_members)
    = OK r
    /\ fst (TeslaLCOECalculator.calculate_tesla_solar_panels (3 * 7) COMMERCIAL "TX"
              [] Instances.enum_members) = OK r'
    /\ LCOEResult.lcoe_usd_per_mwh r' == LCOEResult.lcoe_usd_per_mwh r
    /\ LCOEResult.lcoe_usd_per_kwh r' == LCOEResult.lcoe_usd_per_kwh r
    /\ LCOEResult.total_capex r' == 3 * LCOEResult.total_capex r
    /\ LCOEResult.total_energy_mwh r' == 3 * LCOEResult.total_energy_mwh r.
Proof.
  apply (tesla_solar_cost_independent_of_size 3 7 COMMERCIAL "TX" []
           Instances.enum_members).
  - reflexivity.
  - discriminate.
Defined.

(** ** The Tesla solar roof *)

Section SolarRoof.
Import Heap Instances Overrides TeslaLCOECalculator.
Local Open Scope heap_scope.

Lemma complexity_multiplier_value (size roof : Q) :
  ~ roof == 0 ->
  complexity_multiplier size roof
  = OK (1 + Qmax 0 ((1 - size * 1000 / (roof * 15)) * (5 # 10))).
Proof.
  intros Hroof. unfold complexity_multiplier.
  rewrite div_nonzero; [reflexivity|].
  intros H. apply Qmult_integral in H. destruct H as [H|H]; [auto | discriminate H].
Qed.

(** X26. The Solar Roof multiplies the cost per kW by
    [1 + max(0, (1 - coverage) * 0.5)], where
    [coverage = system_size_kw * 1000 / (roof_area_sqft * 15)].  A roof
    area of zero makes the call raise [ZeroDivisionError] before any object
    is created.  Otherwise the multiplier is at least 1, so the cost per kW
    is never below the list price; it is exactly 1 when (and only when) the
    coverage is 1 or more; and without overrides the outcome is that of
    [calculate] on the Solar Roof inputs with that multiplier, adjusted for
    the region.  The multiplier is described in exact arithmetic, floats
    being idealised as rationals: in binary floating point a coverage just
    below 1 (0.9999999999999999) gives a multiplier of exactly 1.0 as
    well, the surcharge being rounded away. *)
Theorem solar_roof_complexity (system_size_kw roof_area_sqft : Q)
    (region : string) (h : list obj) :
  let run := calculate_tesla_solar_roof system_size_kw roof_area_sqft region [] h in
  (roof_area_sqft == 0 /\ run = (Err ZeroDivisionError, h))
  \/ (~ roof_area_sqft == 0
      /\ exists m,
           complexity_multiplier system_size_kw roof_area_sqft = OK m
           /\ 1 <= m
           /\ (m == 1 <-> 1 <= system_size_kw * 1000 / (roof_area_sqft * 15))
           /\ fst run
              = LCOECalculator.calculate
                  match dict_get region regional_factors with
                  | Some factors =>
                      with_regional_factors factors
                        (solar_roof_inputs system_size_kw m (18 # 100))
                  | None => solar_roof_inputs system_size_kw m (18 # 100)
                  end).
Proof.
  cbv zeta. destruct (Qeq_dec roof_area_sqft 0) as [Hz|Hnz].
  - left. split; [exact Hz|].
    unfold calculate_tesla_solar_roof, bindM, lift, complexity_multiplier.
    rewrite div_zero; [reflexivity|]. rewrite Hz. reflexivity.
  - right. split; [exact Hnz|].
    rewrite (complexity_multiplier_value _ _ Hnz).
    set (coverage := system_size_kw * 1000 / (roof_area_sqft * 15)).
    eexists. split; [reflexivity|]. split; [|split].
    + rewrite <- (Qplus_0_r 1) at 1. apply Qplus_le_r. apply Q.le_max_l.
    + split.
      * intros Hm.
        assert (Hmax : Qmax 0 ((1 - coverage) * (5 # 10)) == 0).
        { rewrite <- (Qplus_inj_l _ _ 1), Hm. reflexivity. }
        pose proof (Q.le_max_r 0 ((1 - coverage) * (5 # 10))) as Hle.
        rewrite Hmax in Hle.
        apply Qnot_lt_le. intros Hlt.
        apply (Qlt_not_le 0 ((1 - coverage) * (5 # 10))); [|exact Hle].
        apply Qmult_lt_0_compat; [|reflexivity].
        rewrite <- (Qplus_opp_r coverage). unfold Qminus.
        apply Qplus_lt_l. exact Hlt.
      * intros Hcov. rewrite Q.max_l; [reflexivity|].
        rewrite <- (Qmult_0_l (5 # 10)). apply Qmult_le_compat_r; [|discriminate].
        rewrite <- (Qplus_opp_r coverage). unfold Qminus.
        apply Qplus_le_l. exact Hcov.
    + unfold calculate_tesla_solar_roof, bindM, lift.
      rewrite (complexity_multiplier_value _ _ Hnz). cbn [dict_item dict_get
        capacity_factor solar_roof String.eqb Ascii.eqb Bool.eqb].
      rewrite new_LCOEInputs_run, regional_adjustments_run.
      cbn [apply_custom_params ret].
      rewrite lcoe_calculate_run. reflexivity.
Qed.
End SolarRoof.

(** ** Tesla storage products *)

Section TeslaStorage.
Import Heap Instances Overrides TeslaLCOSCalculator.
Local Open Scope heap_scope.

Lemma new_LCOSInputs_then_calculate (i : LCOSInputs.t) (h : list obj) :
  bindM (new_LCOSInputs i)
    (fun inputs => _ <- apply_custom_params inputs [] ;; lcos_calculate inputs) h
  = (LCOSCalculator.calculate i, lcos_heap h i).
Proof.
  unfold bindM. rewrite new_LCOSInputs_run. cbn [apply_custom_params ret].
  apply lcos_calculate_run.
Qed.

Lemma battery_inputs_well_formed (specs : battery_specs) (num_units : Z)
    (cycles_per_year : Q) (load_profile : LoadProfile.t) (use_case : UseCase) :
  ~ cycles_per_year == 0 ->
  ~ round_trip_efficiency specs == 0 ->
  well_formed_lcos
    (battery_inputs specs num_units cycles_per_year load_profile use_case).
Proof.
  intros Hc Hr. unfold well_formed_lcos. cbn. repeat split.
  - now eexists.
  - exact Hc.
  - exact Hr.
  - exact default_discount_factor.
Qed.

Lemma powerwall_never_replaced (specs : battery_specs) (num_units : Z)
    (use_case : UseCase) (load_profile : option LoadProfile.t) (h : list obj) :
  ~ round_trip_efficiency specs == 0 ->
  Qlt_bool (inject_Z (cycle_life specs) / 365)
    (inject_Z (calendar_life_years specs)) = false ->
  exists r,
    fst (calculate_powerwall specs num_units use_case load_profile [] h) = OK r
    /\ LCOSResult.replacement_cost_npv r = 0
    /\ LCOSResult.replacement_component r == 0.
Proof.
  intros Hr Hlt. unfold calculate_powerwall. cbv zeta.
  rewrite new_LCOSInputs_then_calculate. cbn [fst].
  destruct (lcos_calculate_succeeds
              (battery_inputs specs num_units 365
                 (load_profile_or_default specs num_units load_profile) use_case))
    as [r [Hret [Hzero _]]].
  { apply battery_inputs_well_formed; [discriminate | exact Hr]. }
  exists r. split; [exact Hret|]. apply Hzero. exact Hlt.
Qed.

Lemma megapack_run (num_units : Z) (cycles_per_year : Q) (h : list obj) :
  fst (calculate_megapack num_units cycles_per_year [] h)
  = LCOSCalculator.calculate
      (battery_inputs megapack num_units cycles_per_year
         (megapack_load_profile num_units cycles_per_year) UTILITY).
Proof.
  unfold calculate_megapack. cbv zeta.
  now rewrite new_LCOSInputs_then_calculate.
Qed.

Lemma megapack_cycle_limit (cycles_per_year : Q) :
  0 < cycles_per_year ->
  4000 / cycles_per_year < 20 <-> 200 < cycles_per_year.
Proof.
  intros Hpos.
  assert (Hnz : ~ cycles_per_year == 0).
  { intros E. rewrite E in Hpos. exact (Qlt_irrefl 0 Hpos). }
  split; intros H.
  - apply (Qmult_lt_l _ _ 20); [reflexivity|].
    apply (Qmult_lt_r _ _ cycles_per_year Hpos) in H.
    assert (E : 4000 / cycles_per_year * cycles_per_year == 20 * 200).
    { field. exact Hnz. }
    rewrite E in H. exact H.
  - apply Qlt_shift_div_r; [exact Hpos|].
    apply (Qmult_lt_l _ _ 20) in H; [|reflexivity]. exact H.
Qed.

Lemma megapack_replaced_above_200_cycles (num_units : Z) (cycles_per_year : Q)
    (h : list obj) :
  0 < cycles_per_year ->
  exists r,
    fst (calculate_megapack num_units cycles_per_year [] h) = OK r
    /\ ((cycles_per_year <= 200 /\ LCOSResult.replacement_cost_npv r = 0)
        \/ (200 < cycles_per_year
            /\ LCOSResult.replacement_cost_npv r
               = 300 * (3900 * inject_Z num_units) * (7 # 10)
                 / (1 + FinancingParameters.effective_discount_rate
                          FinancingParameters.default)
                   ^ Float.to_int (4000 / cycles_per_year))).
Proof.
  intros Hpos. rewrite megapack_run.
  destruct (lcos_calculate_succeeds
              (battery_inputs megapack num_units cycles_per_year
                 (megapack_load_profile num_units cycles_per_year) UTILITY))
    as [r [Hret [Hzero [Hvalue _]]]].
  { apply battery_inputs_well_formed; [|discriminate].
    intros E. rewrite E in Hpos. exact (Qlt_irrefl 0 Hpos). }
  exists r. split; [exact Hret|].
  cbn [battery_inputs LCOSInputs.cycle_life LCOSInputs.cycles_per_year
         LCOSInputs.calendar_life_years LCOSInputs.capex_per_kwh
         LCOSInputs.system_size_kwh LCOSInputs.financing pynum_value
         cycle_life calendar_life_years capex_per_kwh usable_capacity_kwh megapack]
    in Hzero, Hvalue.
  destruct (Qlt_bool (inject_Z 4000 / cycles_per_year) (inject_Z 20)) eqn:Hlt.
  - right. apply Qlt_bool_iff in Hlt.
    split; [apply megapack_cycle_limit; assumption|].
    exact (Hvalue eq_refl).
  - left. split; [|exact (proj1 (Hzero eq_refl))].
    apply Qnot_lt_le. intros H200.
    apply (megapack_cycle_limit _ Hpos) in H200.
    apply Qlt_bool_iff in H200.
    change (Qlt_bool (inject_Z 4000 / cycles_per_year) (inject_Z 20) = true) in H200.
    congruence.
Qed.

(** X27. Which Tesla batteries are costed with a replacement.  Neither
    Powerwall ever is: with daily cycling the cycle life of the
    Powerwall 3 (4000 cycles, 10.96 years) and of the Powerwall 2 (3650
    cycles, exactly 10 years) is not below the calendar life of 10 years,
    so for every number of units, use case and load profile the call
    without overrides returns a result whose replacement cost and
    replacement component are zero.  A Megapack (4000 cycles against a
    calendar life of 20 years) is replaced once if and only if it is cycled
    more than 200 times a year: for every number of units and positive
    [cycles_per_year] the call returns; up to 200 cycles a year the
    replacement cost is zero, above it is 70% of the undiscounted purchase
    price, discounted from the year [int(4000 / cycles_per_year)]. *)
Theorem tesla_storage_replacement (num_units : Z) (use_case : UseCase)
    (load_profile : option LoadProfile.t) (cycles_per_year : Q) (h : list obj) :
  0 < cycles_per_year ->
  (exists r,
     fst (calculate_powerwall_3 num_units use_case load_profile [] h) = OK r
     /\ LCOSResult.replacement_cost_npv r = 0
     /\ LCOSResult.replacement_component r == 0)
  /\ (exists r,
        fst (calculate_powerwall_2 num_units use_case load_profile [] h) = OK r
        /\ LCOSResult.replacement_cost_npv r = 0
        /\ LCOSResult.replacement_component r == 0)
  /\ (exists r,
        fst (calculate_megapack num_units cycles_per_year [] h) = OK r
        /\ ((cycles_per_year <= 200 /\ LCOSResult.replacement_cost_npv r = 0)
            \/ (200 < cycles_per_year
                /\ LCOSResult.replacement_cost_npv r
                   = 300 * (3900 * inject_Z num_units) * (7 # 10)
                     / (1 + FinancingParameters.effective_discount_rate
                              FinancingParameters.default)
                       ^ Float.to_int (4000 / cycles_per_year)))).
Proof.
  intros Hpos. split; [|split].
  - apply powerwall_never_replaced; [discriminate | reflexivity].
  - apply powerwall_never_replaced; [discriminate | reflexivity].
  - now apply megapack_replaced_above_200_cycles.
Qed.
End TeslaStorage.

Lemma tesla_storage_replacement_witness :
  (exists r,
     fst (TeslaLCOSCalculator.calculate_powerwall_3 2 RESIDENTIAL None []
            Instances.enum_members) = OK r
     /\ LCOSResult.replacement_cost_npv r = 0
     /\ LCOSResult.replacement_component r == 0)
  /\ (exists r,
        fst (TeslaLCOSCalculator.calculate_powerwall_2 2 RESIDENTIAL None []
               Instances.enum_members) = OK r
        /\ LCOSResult.replacement_cost_npv r = 0
        /\ LCOSResult.replacement_component r == 0)
  /\ (exists r,
        fst (TeslaLCOSCalculator.calculate_megapack 2 365 [] Instances.enum_members) = OK r
        /\ ((365 <= 200 /\ LCOSResult.replacement_cost_npv r = 0)
            \/ (200 < 365
                /\ LCOSResult.replacement_cost_npv r
                   = 300 * (3900 * inject_Z 2) * (7 # 10)
                     / (1 + FinancingParameters.effective_discount_rate
                              FinancingParameters.default)
                       ^ Float.to_int (4000 / 365)))).
Proof.
  apply (tesla_storage_replacement 2 RESIDENTIAL None 365 Instances.enum_members). reflexivity.
Defined.

(** ** Solar plus storage *)

Section SolarPlusStorage.
Import Heap Instances Overrides TeslaLCOSCalculator.
Local Open Scope heap_scope.

Lemma to_int_below_two (x : Q) : x < 2 -> (Float.to_int x <= 1)%Z.
Proof.
  intros H. destruct (Qlt_le_dec x 0) as [Hneg|Hpos].
  - assert (H1 : x < 1) by (apply Qlt_trans with 0; [exact Hneg | reflexivity]).
    pose proof (to_int_below_one x H1). lia.
  - rewrite (to_int_floor_nonneg x Hpos). unfold Float.floor.
    assert (Hf : inject_Z (Qfloor x) < inject_Z 2).
    { apply Qle_lt_trans with x; [apply Qfloor_le | exact H]. }
    rewrite <- Zlt_Qlt in Hf. lia.
Qed.

(** Below two Powerwalls' worth of capacity, one Powerwall is costed. *)
Lemma one_powerwall_below_27_kwh (battery_kwh : Q) :
  battery_kwh < 27 -> Z.max 1 (Float.to_int (battery_kwh / (135 # 10))) = 1%Z.
Proof.
  intros H. apply Z.max_l. apply to_int_below_two.
  apply Qlt_shift_div_r; [reflexivity|].
  apply Qlt_le_trans with 27; [exact H | discriminate].
Qed.

(** The backup time never divides by zero. *)
Lemma calculate_backup_hours_returns (battery_kwh load_kw efficiency : Q) :
  calculate_backup_hours battery_kwh load_kw efficiency
  = OK (if Qlt_bool 0 load_kw then battery_kwh * efficiency / load_kw else 0).
Proof.
  unfold calculate_backup_hours. destruct (Qlt_bool 0 load_kw) eqn:E; [|reflexivity].
  apply div_nonzero. apply Qlt_bool_iff in E. intros Z. rewrite Z in E.
  exact (Qlt_irrefl 0 E).
Qed.

Lemma powerwall_3_run (num_units : Z) (use_case : UseCase) (h : list obj) :
  calculate_powerwall_3 num_units use_case None [] h
  = (LCOSCalculator.calculate
       (battery_inputs powerwall_3 num_units 365
          (load_profile_or_default powerwall_3 num_units None) use_case),
     lcos_heap h
       (battery_inputs powerwall_3 num_units 365
          (load_profile_or_default powerwall_3 num_units None) use_case)).
Proof.
  unfold calculate_powerwall_3, calculate_powerwall. cbv zeta.
  apply new_LCOSInputs_then_calculate.
Qed.

(** X28. [calculate_solar_plus_storage] returns for every solar size other
    than zero, whatever the battery size, use case and region.  The
    storage is costed in whole Powerwall 3 units,
    [max(1, int(battery_kwh / 13.5))] of them: at least one, also for a
    battery of zero or negative size, and exactly one for every request
    below 27 kWh.  The backup time, however, is taken from the requested
    [battery_kwh], not from the capacity of the units that are costed: it
    is [battery_kwh * 0.95 / 5].  The combined cost is the plain mean of the
    two levelized costs, and the total capex is the sum of the two. *)
Theorem solar_plus_storage_sizing (solar_kw battery_kwh : Q) (region : string)
    (use_case : UseCase) (h : list obj) :
  ~ solar_kw == 0 ->
  exists r units,
    fst (calculate_solar_plus_storage solar_kw battery_kwh region use_case h) = OK r
    /\ units = Z.max 1 (Float.to_int (battery_kwh / (135 # 10)))
    /\ (1 <= units)%Z
    /\ (battery_kwh < 27 -> units = 1%Z)
    /\ LCOSCalculator.calculate
         (battery_inputs powerwall_3 units 365
            (load_profile_or_default powerwall_3 units None) use_case)
       = OK (storage_lcos r)
    /\ LCOECalculator.calculate (tesla_solar_inputs solar_kw use_case region)
       = OK (solar_lcoe r)
    /\ backup_hours r = battery_kwh * (95 # 100) / 5
    /\ combined_lcoe_kwh r
       = (LCOEResult.lcoe_usd_per_kwh (solar_lcoe r)
          + LCOSResult.lcos_usd_per_kwh (storage_lcos r)) / 2
    /\ total_capex r
       = LCOEResult.total_capex (solar_lcoe r)
         + LCOSResult.total_capex (storage_lcos r).
Proof.
  intros Hsolar.
  destruct (lcoe_calculate_succeeds _
              (tesla_solar_well_formed solar_kw use_case region Hsolar))
    as [solar Hs].
  set (units := Z.max 1 (Float.to_int (battery_kwh / (135 # 10)))).
  destruct (lcos_calculate_succeeds
              (battery_inputs powerwall_3 units 365
                 (load_profile_or_default powerwall_3 units None) use_case))
    as [storage [Hst _]].
  { apply battery_inputs_well_formed; discriminate. }
  exists {| solar_lcoe := solar;
            storage_lcos := storage;
            total_capex := LCOEResult.total_capex solar + LCOSResult.total_capex storage;
            combined_lcoe_kwh :=
              (LCOEResult.lcoe_usd_per_kwh solar
               + LCOSResult.lcos_usd_per_kwh storage) / 2;
            backup_hours := battery_kwh * (95 # 100) / 5;
            solar_kw := solar_kw;
            battery_kwh := battery_kwh |}, units.
  split.
  - unfold calculate_solar_plus_storage, bindM.
    rewrite tesla_solar_panels_run, Hs. fold units.
    rewrite powerwall_3_run.
    rewrite Hst. unfold lift. rewrite calculate_backup_hours_returns.
    reflexivity.
  - split; [reflexivity|]. split; [apply Z.le_max_l|].
    split; [apply one_powerwall_below_27_kwh|].
    cbn. repeat split; assumption.
Qed.
End SolarPlusStorage.

Lemma solar_plus_storage_sizing_witness :
  exists r,
    fst (TeslaLCOSCalculator.calculate_solar_plus_storage 7 20 "CA" RESIDENTIAL
           Instances.enum_members) = OK r
    /\ LCOSCalculator.calculate
         (TeslaLCOSCalculator.battery_inputs TeslaLCOSCalculator.powerwall_3 1 365
            (TeslaLCOSCalculator.load_profile_or_default
               TeslaLCOSCalculator.powerwall_3 1 None) RESIDENTIAL)
       = OK (TeslaLCOSCalculator.storage_lcos r)
    /\ TeslaLCOSCalculator.backup_hours r = 20 * (95 # 100) / 5.
Proof.
  destruct (solar_plus_storage_sizing 7 20 "CA" RESIDENTIAL Instances.enum_members)
    as (r & units & Hr & Hu & _ & Hone & Hst & _ & Hb & _); [discriminate|].
  exists r. split; [exact Hr|]. split; [|exact Hb].
  rewrite <- Hst. now rewrite (Hone eq_refl).
Defined.

(** ** Scenarios *)

Section Scenarios.
Import Heap Instances Overrides ScenarioBuilder.
Local Open Scope heap_scope.

(** The two dictionary lookups of the builders never raise [KeyError]. *)
Lemma use_case_profile_found (use_case : UseCase) :
  exists u, dict_item use_case_profiles (use_case_value use_case) = OK u
            /\ ~ typical_size_kw u == 0
            /\ forall r,
                 ~ 1 + FinancingParameters.effective_discount_rate
                         (new_financing u r) == 0.
Proof.
  destruct use_case; eexists; (split; [reflexivity|]);
    (split; [discriminate | intros r H; vm_compute in H; discriminate H]).
Qed.

Lemma region_row_found (region : string) :
  exists r, region_or_california region = OK r
            /\ region_or_california (effective_region region) = OK r.
Proof.
  unfold region_or_california, effective_region.
  change (dict_item regional_data "CA") with (OK (default
    {| solar_irradiance_factor := 0; cost_multiplier := 0;
       incentives := {| federal_itc := 0; state_rebate := 0;
                        net_metering := false |};
       electricity_rate := 0; peak_demand_charge := 0 |}
    (dict_get "CA" regional_data))).
  cbn [bind].
  destruct (dict_get region regional_data) as [r|] eqn:E.
  - rewrite E. eexists. split; reflexivity.
  - eexists. split; reflexivity.
Qed.

Lemma build_lcoe_scenario_run (use_case : UseCase) (region : string)
    (technology : TechnologyType) (u : use_case_data) (r : region_data)
    (h : list obj) :
  dict_item use_case_profiles (use_case_value use_case) = OK u ->
  region_or_california region = OK r ->
  build_lcoe_scenario use_case region technology [] h
  = (OK (VRef (length h + 5)),
     lcoe_heap h (lcoe_scenario_inputs u r technology use_case)).
Proof.
  intros Hu Hr. unfold build_lcoe_scenario, bindM, lift. rewrite Hu, Hr.
  rewrite new_LCOEInputs_run. reflexivity.
Qed.

Lemma build_lcos_scenario_run (use_case : UseCase) (region : string)
    (technology : TechnologyType) (u : use_case_data) (r : region_data)
    (h : list obj) :
  dict_item use_case_profiles (use_case_value use_case) = OK u ->
  region_or_california region = OK r ->
  build_lcos_scenario use_case region technology [] h
  = (OK (VRef (length h + 4)),
     lcos_heap h (lcos_scenario_inputs u r technology use_case)).
Proof.
  intros Hu Hr. unfold build_lcos_scenario, bindM, lift. rewrite Hu, Hr.
  rewrite new_LCOSInputs_run. reflexivity.
Qed.

Lemma lcoe_scenario_well_formed (u : use_case_data) (r : region_data)
    (technology : TechnologyType) (use_case : UseCase) :
  ~ typical_size_kw u == 0 ->
  ~ 1 + FinancingParameters.effective_discount_rate (new_financing u r) == 0 ->
  well_formed_lcoe (lcoe_scenario_inputs u r technology use_case).
Proof.
  intros Hsize Hd. unfold well_formed_lcoe. repeat split.
  - cbn. now eexists.
  - exact Hsize.
  - exact Hd.
  - destruct technology; discriminate.
Qed.

Lemma lcoe_scenario_view (u : use_case_data) (r : region_data)
    (technology : TechnologyType) (use_case : UseCase) :
  lcoe_view (lcoe_scenario_inputs u r technology use_case)
  = lcoe_view (lcoe_scenario_inputs u r (effective_technology technology) use_case).
Proof. destruct technology; reflexivity. Qed.

(** X29. Every scenario that [build_lcoe_scenario] builds without
    overrides is accepted by the calculator: for every use case, region
    and technology the build raises no [KeyError] and [calculate] returns
    a result.  The outcome depends on the technology only through its
    being wind or not (battery, hydro and thermal scenarios are costed as
    PV) and on the region only through its row of the regional table, an
    unknown region being costed as California. *)
Theorem lcoe_scenarios_are_accepted (use_case : UseCase) (region : string)
    (technology : TechnologyType) (h h' : list obj) :
  succeeds (fst (lcoe_of_scenario use_case region technology h))
  /\ fst (lcoe_of_scenario use_case region technology h)
     = fst (lcoe_of_scenario use_case (effective_region region)
              (effective_technology technology) h').
Proof.
  destruct (use_case_profile_found use_case) as (u & Hu & Hsize & Hd).
  destruct (region_row_found region) as (r & Hr & Hr').
  unfold lcoe_of_scenario, bindM.
  rewrite (build_lcoe_scenario_run use_case region technology u r h Hu Hr).
  rewrite (build_lcoe_scenario_run use_case _ _ u r h' Hu Hr').
  rewrite !lcoe_calculate_run. cbn [fst]. split.
  - apply lcoe_calculate_succeeds. apply lcoe_scenario_well_formed; auto.
  - rewrite <- lcoe_calculate_view, lcoe_scenario_view.
    apply lcoe_calculate_view.
Qed.

Lemma lcos_scenario_well_formed (u : use_case_data) (r : region_data)
    (technology : TechnologyType) (use_case : UseCase) :
  ~ 1 + FinancingParameters.effective_discount_rate (new_financing u r) == 0 ->
  well_formed_lcos (lcos_scenario_inputs u r technology use_case).
Proof.
  intros Hd. unfold well_formed_lcos. repeat split.
  - cbn. now eexists.
  - destruct use_case; discriminate.
  - discriminate.
  - exact Hd.
Qed.

(** In which rows the rebate swallows the purchase price of storage. *)
Lemma lcos_scenario_capex (use_case : UseCase) (region : string)
    (technology : TechnologyType) (u : use_case_data) (r : region_data) :
  region_or_california region = OK r ->
  let capex :=
    LCOSCalculator._calculate_total_capex
      (lcos_scenario_inputs u r technology use_case) in
  (In region regions_without_rebate /\ 0 < capex)
  \/ (~ In region regions_without_rebate /\ capex == 0).
Proof.
  unfold region_or_california, dict_item, regions_without_rebate.
  cbn [dict_get regional_data bind default].
  destruct (String.eqb_spec "CA" region) as [<-|Hca].
  { intros [= <-]. right. split; [|destruct use_case; reflexivity].
    cbn. intros [H|[H|[H|[]]]]; discriminate H. }
  destruct (String.eqb_spec "TX" region) as [<-|Htx].
  { intros [= <-]. left. split; [|destruct use_case; reflexivity].
    cbn. auto. }
  destruct (String.eqb_spec "FL" region) as [<-|Hfl].
  { intros [= <-]. left. split; [|destruct use_case; reflexivity].
    cbn. auto. }
  destruct (String.eqb_spec "NY" region) as [<-|Hny].
  { intros [= <-]. right. split; [|destruct use_case; reflexivity].
    cbn. intros [H|[H|[H|[]]]]; discriminate H. }
  destruct (String.eqb_spec "AZ" region) as [<-|Haz].
  { intros [= <-]. left. split; [|destruct use_case; reflexivity].
    cbn. auto. }
  intros [= <-]. right. split; [|destruct use_case; reflexivity].
  cbn. intros [H|[H|[H|[]]]]; congruence.
Qed.

(** X30. Every scenario that [build_lcos_scenario] builds without
    overrides is accepted by the calculator, for every use case, region
    and technology.  The state rebate of the regional table, a figure per
    kW, is subtracted per kWh of storage: in the regions that have one
    (California, New York, and every unknown region, which gets the row
    of California) it exceeds the price net of the tax credit, so the
    total capex and the capex component of every such scenario are zero;
    in Texas, Florida and Arizona the total capex is positive. *)
Theorem lcos_scenarios_and_the_rebate (use_case : UseCase) (region : string)
    (technology : TechnologyType) (h : list obj) :
  exists r,
    fst (lcos_of_scenario use_case region technology h) = OK r
    /\ ((In region regions_without_rebate /\ 0 < LCOSResult.total_capex r)
        \/ (~ In region regions_without_rebate
            /\ LCOSResult.total_capex r == 0
            /\ LCOSResult.capex_component r == 0)).
Proof.
  destruct (use_case_profile_found use_case) as (u & Hu & _ & Hd).
  destruct (region_row_found region) as (r & Hr & _).
  unfold lcos_of_scenario, bindM.
  rewrite (build_lcos_scenario_run use_case region technology u r h Hu Hr).
  rewrite lcos_calculate_run. cbn [fst].
  destruct (lcos_calculate_succeeds _
              (lcos_scenario_well_formed u r technology use_case (Hd r)))
    as (res & Hres & _ & _ & Hcapex & Hcomponent).
  exists res. split; [exact Hres|]. rewrite Hcapex.
  destruct (lcos_scenario_capex use_case region technology u r Hr)
    as [[Hin Hpos]|[Hout Hzero]].
  - left. split; assumption.
  - right. split; [exact Hout|]. split; [exact Hzero|].
    apply Hcomponent. exact Hzero.
Qed.
End Scenarios.

(** ** What the calculators read from the caller's input after an analysis *)

Section ReadingsKept.
Import Heap Frame Instances.
Local Open Scope heap_scope.
Local Open Scope nat_scope.

(** The record behind a reference is determined by the objects of the
    constructor, wherever else the heap has changed. *)
Lemma read_LCOEInputs_at (i : LCOEInputs.t) (n : nat) (h2 : list obj) :
  (forall k o,
      (lcoe_parts n i ++ [Instance "LCOEInputs" (lcoe_attrs n i)]) !! k = Some o ->
      h2 !! (n + k) = Some o) ->
  read_LCOEInputs h2 (VRef (n + 5)) = OK (lcoe_view i).
Proof.
  intros H.
  destruct i as [c s fo vo fu cf life [rate type years rates] [] tech uc].
  pose proof (H 0 _ eq_refl) as H0. pose proof (H 1 _ eq_refl) as H1.
  pose proof (H 2 _ eq_refl) as H2. pose proof (H 3 _ eq_refl) as H3.
  pose proof (H 4 _ eq_refl) as H4. pose proof (H 5 _ eq_refl) as H5.
  rewrite Nat.add_0_r in H0. clear H.
  unfold read_LCOEInputs, instance_attrs. rewrite H5. cbn.
  rewrite pynum_round_trip. cbn.
  unfold read_DegradationModel, read_FinancingParameters, instance_attrs,
    list_items.
  rewrite H2. cbn. rewrite H0, H1. cbn.
  rewrite decode_all_ints, decode_all_floats. cbn.
  rewrite H4. reflexivity.
Qed.

Lemma read_LCOSInputs_at (i : LCOSInputs.t) (n : nat) (h2 : list obj) :
  (forall k o,
      (lcos_parts n i ++ [Instance "LCOSInputs" (lcos_attrs n i)]) !! k = Some o ->
      h2 !! (n + k) = Some o) ->
  read_LCOSInputs h2 (VRef (n + 4)) = OK (lcos_view i).
Proof.
  intros H.
  destruct i as [c s p fo vo rte cyc life cal dod cfade efade [] [] tech uc].
  pose proof (H 1 _ eq_refl) as H1. pose proof (H 4 _ eq_refl) as H4. clear H.
  unfold read_LCOSInputs, instance_attrs. rewrite H4. cbn.
  rewrite !pynum_round_trip. cbn.
  unfold read_FinancingParameters, instance_attrs.
  rewrite H1. reflexivity.
Qed.

(** The objects of a constructor are no enum members. *)
Lemma constructed_kept (h tail h2 : list obj) :
  Forall (fun o => match o with
                   | Instance cls _ => is_enum_class cls = false
                   | _ => True
                   end) tail ->
  keeps_all_but_members (h ++ tail) h2 ->
  forall k o, tail !! k = Some o -> h2 !! (length h + k) = Some o.
Proof.
  intros Hno Hkeep k o Hk.
  destruct (Hkeep (length h + k) o) as [Hsame|(cls & attrs & attrs' & -> & Hc & _)].
  - rewrite lookup_beyond. exact Hk.
  - exact Hsame.
  - rewrite Forall_forall in Hno.
    specialize (Hno _ (list_elem_of_lookup_2 _ _ _ Hk)). simpl in Hno. congruence.
Qed.

Lemma constructed_members_atomic (h tail : list obj) :
  Forall (fun o => match o with
                   | Instance cls _ => is_enum_class cls = false
                   | _ => True
                   end) tail ->
  members_atomic h -> members_atomic (h ++ tail).
Proof.
  intros Hno Hm l cls attrs Hl Hc.
  destruct (decide (l < length h)) as [Hlt|Hge].
  - rewrite lookup_app_l in Hl by exact Hlt. exact (Hm l cls attrs Hl Hc).
  - rewrite lookup_app_r in Hl by lia.
    rewrite Forall_forall in Hno.
    specialize (Hno _ (list_elem_of_lookup_2 _ _ _ Hl)). simpl in Hno. congruence.
Qed.

Lemma lcoe_objects_no_members (n : nat) (i : LCOEInputs.t) :
  Forall (fun o => match o with
                   | Instance cls _ => is_enum_class cls = false
                   | _ => True
                   end)
    (lcoe_parts n i ++ [Instance "LCOEInputs" (lcoe_attrs n i)]).
Proof. repeat (apply Forall_cons; split; [reflexivity || exact I|]). apply Forall_nil. exact I. Qed.

Lemma lcos_objects_no_members (n : nat) (i : LCOSInputs.t) :
  Forall (fun o => match o with
                   | Instance cls _ => is_enum_class cls = false
                   | _ => True
                   end)
    (lcos_parts n i ++ [Instance "LCOSInputs" (lcos_attrs n i)]).
Proof. repeat (apply Forall_cons; split; [reflexivity || exact I|]). apply Forall_nil. exact I. Qed.

(** After an analysis that has kept everything but the enum members, the
    calculator reads from the caller's object what it read before. *)
Lemma lcoe_calculate_kept (h h2 : list obj) (i : LCOEInputs.t) :
  keeps_all_but_members (lcoe_heap h i) h2 ->
  fst (lcoe_calculate (VRef (length h + 5)) h2) = LCOECalculator.calculate i.
Proof.
  intros Hkeep. unfold lcoe_calculate. cbn [fst].
  rewrite (read_LCOEInputs_at i (length h) h2).
  - cbn [bind]. apply lcoe_calculate_view.
  - apply constructed_kept; [apply lcoe_objects_no_members | exact Hkeep].
Qed.

Lemma lcos_calculate_kept (h h2 : list obj) (i : LCOSInputs.t) :
  keeps_all_but_members (lcos_heap h i) h2 ->
  fst (lcos_calculate (VRef (length h + 4)) h2) = LCOSCalculator.calculate i.
Proof.
  intros Hkeep. unfold lcos_calculate. cbn [fst].
  rewrite (read_LCOSInputs_at i (length h) h2).
  - cbn [bind]. apply lcos_calculate_view.
  - apply constructed_kept; [apply lcos_objects_no_members | exact Hkeep].
Qed.
End ReadingsKept.

(** The caller's input computes what it computed before. A caller builds
    [LCOEInputs(...)] or [LCOSInputs(...)] on a heap whose enum members hold
    no reference and runs a sensitivity or a Monte Carlo analysis on it,
    with any parameter paths and any distributions: when the analysis has
    ended, by return or by exception, [calculate] on the caller's object
    gives what it gives on the fields the object was built from.  The enum
    members, which an analysis can have changed, are not read by
    [calculate]. *)
Lemma caller_computes_the_same_after_an_analysis (h : list Heap.obj)
    (i : LCOEInputs.t) (j : LCOSInputs.t) :
  Frame.members_atomic h ->
  (forall parameters variation_percent,
      fst (Instances.lcoe_calculate (Heap.VRef (length h + 5))
             (snd (SensitivityAnalyzer.analyze_lcoe_sensitivity
                     (Heap.VRef (length h + 5)) parameters variation_percent
                     (lcoe_heap h i))))
      = LCOECalculator.calculate i)
  /\ (forall parameters variation_percent,
         fst (Instances.lcos_calculate (Heap.VRef (length h + 4))
                (snd (SensitivityAnalyzer.analyze_lcos_sensitivity
                        (Heap.VRef (length h + 4)) parameters variation_percent
                        (lcos_heap h j))))
         = LCOSCalculator.calculate j)
  /\ (forall rng normal uniform triangular n_samples distributions (g : rng),
         fst (Instances.lcoe_calculate (Heap.VRef (length h + 5))
                (snd (MonteCarloAnalyzer.analyze_lcoe_uncertainty rng normal uniform
                        triangular n_samples (Heap.VRef (length h + 5))
                        distributions g (lcoe_heap h i))))
         = LCOECalculator.calculate i)
  /\ (forall rng normal uniform triangular n_samples distributions (g : rng),
         fst (Instances.lcos_calculate (Heap.VRef (length h + 4))
                (snd (MonteCarloAnalyzer.analyze_lcos_uncertainty rng normal uniform
                        triangular n_samples (Heap.VRef (length h + 4))
                        distributions g (lcos_heap h j))))
         = LCOSCalculator.calculate j).
Proof.
  intros Hm.
  assert (Hi : Frame.members_atomic (lcoe_heap h i)).
  { apply constructed_members_atomic; [apply lcoe_objects_no_members | exact Hm]. }
  assert (Hj : Frame.members_atomic (lcos_heap h j)).
  { apply constructed_members_atomic; [apply lcos_objects_no_members | exact Hm]. }
  repeat split.
  - intros parameters vp. apply lcoe_calculate_kept.
    apply (safe_keeps _ _ _ Hi
             (safe_analyze_sensitivity _ _ lcoe_usd_per_kwh_of_read_only _ _ _ _)).
  - intros parameters vp. apply lcos_calculate_kept.
    apply (safe_keeps _ _ _ Hj
             (safe_analyze_sensitivity _ _ lcos_usd_per_kwh_of_read_only _ _ _ _)).
  - intros rng normal uniform triangular n_samples distributions g.
    apply lcoe_calculate_kept.
    apply (safe_keeps _ _ _ Hi
             (safe_analyze_uncertainty _ rng normal uniform triangular n_samples _
                lcoe_usd_per_kwh_of_read_only _ _ _)).
  - intros rng normal uniform triangular n_samples distributions g.
    apply lcos_calculate_kept.
    apply (safe_keeps _ _ _ Hj
             (safe_analyze_uncertainty _ rng normal uniform triangular n_samples _
                lcos_usd_per_kwh_of_read_only _ _ _)).
Qed.
